(** * National-park site pipeline (proj2_nps.py): model and properties

    The program scrapes nps.gov for the national sites of a state, keeps
    every fetched result in one JSON cache file and asks the MapQuest
    radius search for places near a site.

    The model is a shallow embedding.  Python strings are [string]s whose
    characters are the code points below 256.  A value read from or
    written to the cache is a [json] value: Python [None], [bool], [int],
    [str], [list] and [dict] with [str] keys, or one of the floats [nan],
    [inf] and [-inf].  Finite floats, characters above 255, the recursion
    limit and the limit on the digits of an integer are not represented; a
    run that meets a value outside the model ends in [Abort OutOfModel],
    about which nothing is claimed.  [json.dump] and
    [json.load] are modelled on the text of the file.  Effects (the cache
    file, HTTP, the console) are threaded through a state and exception
    monad over a [world], whose trace records what a run did.  The tree
    that html.parser builds from a page and the API key are parameters. *)

From Stdlib Require Import String Ascii List ZArith NArith Arith Lia Bool.
From Stdlib Require Import Decimal DecimalString DecimalFacts DecimalN.
Import ListNotations.
Open Scope string_scope.

(* ================================================================= *)
(** ** Characters and strings as Python sees them *)

Definition ord (c : ascii) : nat := nat_of_ascii c.
Definition chr (n : nat) : ascii := ascii_of_nat n.

(** The characters that have no readable literal. *)
Definition dquote : ascii := Eval cbv in chr 34.
Definition newline : ascii := Eval cbv in chr 10.

Definition in_range (lo hi : nat) (c : ascii) : bool :=
  Nat.leb lo (ord c) && Nat.leb (ord c) hi.

(** [str.isspace] on the code points below 256. *)
Definition isspace (c : ascii) : bool :=
  in_range 9 13 c || in_range 28 32 c || Nat.eqb (ord c) 133 || Nat.eqb (ord c) 160.

Fixpoint lstrip (s : string) : string :=
  match s with
  | String c s' => if isspace c then lstrip s' else s
  | EmptyString => EmptyString
  end.

(** Drops the trailing white space: a character stays when it is not white
    space or when something after it stays. *)
Fixpoint rstrip (s : string) : string :=
  match s with
  | String c s' =>
      match rstrip s' with
      | EmptyString => if isspace c then EmptyString else String c EmptyString
      | r => String c r
      end
  | EmptyString => EmptyString
  end.

(** [str.strip()] *)
Definition strip (s : string) : string := rstrip (lstrip s).

(** [str.lower()] on the code points below 256: the upper-case letters are
    A-Z and the Latin-1 capitals 192-222 without the multiplication sign. *)
Definition isupper (c : ascii) : bool :=
  in_range 65 90 c || (in_range 192 222 c && negb (Nat.eqb (ord c) 215)).

Definition lower_char (c : ascii) : ascii :=
  if isupper c then chr (ord c + 32) else c.

Fixpoint lower (s : string) : string :=
  match s with
  | String c s' => String (lower_char c) (lower s')
  | EmptyString => EmptyString
  end.

(** [sep.join(parts)] *)
Fixpoint join (sep : string) (parts : list string) : string :=
  match parts with
  | [] => ""
  | [p] => p
  | p :: ps => p ++ sep ++ join sep ps
  end.

(** [c * n] for a one-character string *)
Fixpoint replicate (n : nat) (c : ascii) : string :=
  match n with
  | O => ""
  | S n' => String c (replicate n' c)
  end.

(* ================================================================= *)
(** ** JSON values: what the cache holds *)

(** The floats that are not finite: [float('nan')], [float('inf')] and
    [float('-inf')].  A finite float has no value in this model. *)
Inductive nonfinite : Type :=
| NaN
| Infinity (negative : bool).

(** A Python [dict] keeps its items in insertion order, which is the order
    [json.dump] writes them in, so a dict is an association list; its keys
    are pairwise different ([json_wf]). *)
#[warnings="-register-all"] Inductive json : Type :=
| JNull
| JBool (b : bool)
| JInt (z : Z)
| JStr (s : string)
| JList (items : list json)
| JDict (items : list (string * json))
| JFloat (f : nonfinite).

(** [d[k]] for a dict's items *)
Fixpoint dict_get (d : list (string * json)) (k : string) : option json :=
  match d with
  | [] => None
  | (k', v) :: d' => if String.eqb k' k then Some v else dict_get d' k
  end.

(** [k in d.keys()] *)
Definition dict_has (d : list (string * json)) (k : string) : bool :=
  match dict_get d k with Some _ => true | None => false end.

(** [d[k] = v]: an existing key keeps its place, a new one goes last. *)
Fixpoint dict_set (d : list (string * json)) (k : string) (v : json)
  : list (string * json) :=
  match d with
  | [] => [(k, v)]
  | (k', v') :: d' =>
      if String.eqb k' k then (k', v) :: d' else (k', v') :: dict_set d' k v
  end.

(** [dict(pairs)] *)
Definition dict_of_pairs (pairs : list (string * json)) : list (string * json) :=
  fold_left (fun d kv => dict_set d (fst kv) (snd kv)) pairs [].

Definition keys (d : list (string * json)) : list string := map fst d.

Fixpoint distinct (l : list string) : bool :=
  match l with
  | [] => true
  | k :: l' => negb (existsb (String.eqb k) l') && distinct l'
  end.

(** The values a Python program can hold: every dict has distinct keys. *)
Fixpoint json_wf (v : json) : bool :=
  match v with
  | JList l => forallb json_wf l
  | JDict d => distinct (keys d) && forallb (fun kv => json_wf (snd kv)) d
  | _ => true
  end.

(* ----------------------------------------------------------------- *)
(** *** json.dump(obj, fp, indent=4) *)

Definition hex_digit (n : nat) : ascii :=
  if Nat.ltb n 10 then chr (48 + n) else chr (87 + n).

(** One character of a string under [ensure_ascii]: the short escapes, the
    printable ASCII characters as they are, everything else [\u00xx]. *)
Definition escape_char (c : ascii) : string :=
  if Ascii.eqb c dquote then String "\" (String dquote "")
  else if Ascii.eqb c "\" then "\\"
  else if Nat.eqb (ord c) 10 then "\n"
  else if Nat.eqb (ord c) 13 then "\r"
  else if Nat.eqb (ord c) 9 then "\t"
  else if Nat.eqb (ord c) 8 then "\b"
  else if Nat.eqb (ord c) 12 then "\f"
  else if in_range 32 126 c then String c ""
  else "\u00" ++ String (hex_digit (ord c / 16)) (String (hex_digit (ord c mod 16)) "").

Fixpoint escape_chars (s : string) : string :=
  match s with
  | String c s' => escape_char c ++ escape_chars s'
  | EmptyString => EmptyString
  end.

Definition encode_basestring_ascii (s : string) : string :=
  String dquote (escape_chars s ++ String dquote "").

(** [int.__repr__] *)
Definition repr_N (n : N) : string := NilEmpty.string_of_uint (N.to_uint n).

Definition repr_int (z : Z) : string :=
  match z with
  | Zneg p => String "-" (repr_N (Npos p))
  | _ => repr_N (Z.to_N z)
  end.

(** [floatstr] of the encoder, for the floats that are not finite *)
Definition floatstr (f : nonfinite) : string :=
  match f with
  | NaN => "NaN"
  | Infinity false => "Infinity"
  | Infinity true => "-Infinity"
  end.

(** The line break and the indentation of nesting depth [level]. *)
Definition newline_indent (level : nat) : string :=
  String newline (replicate (4 * level) " ").

Fixpoint encode (level : nat) (v : json) : string :=
  match v with
  | JNull => "null"
  | JBool true => "true"
  | JBool false => "false"
  | JInt z => repr_int z
  | JStr s => encode_basestring_ascii s
  | JList [] => "[]"
  | JList l =>
      "[" ++ newline_indent (S level)
          ++ join ("," ++ newline_indent (S level)) (map (encode (S level)) l)
          ++ newline_indent level ++ "]"
  | JDict [] => "{}"
  | JDict d =>
      "{" ++ newline_indent (S level)
          ++ join ("," ++ newline_indent (S level))
               (map (fun kv => encode_basestring_ascii (fst kv) ++ ": "
                                 ++ encode (S level) (snd kv)) d)
          ++ newline_indent level ++ "}"
  | JFloat f => floatstr f
  end.

Definition json_dumps (v : json) : string := encode 0 v.

(* ----------------------------------------------------------------- *)
(** *** json.load(fp) *)

(** Reading stops with the value and the unread text, or fails.
    [Malformed]: the text is not JSON, Python raises [JSONDecodeError].
    [Unrepresented]: the text reaches a finite float or a character above 255,
    which this model has no value for; nothing is said about such a text.
    [OutOfFuel]: the recursion bound was too small. *)
Inductive failure : Type := Malformed | Unrepresented | OutOfFuel.

Inductive parse (A : Type) : Type :=
| Parsed (a : A) (rest : string)
| Fail (f : failure).
Arguments Parsed {A} a rest.
Arguments Fail {A} f.

(** [WHITESPACE]: space, tab, line feed and carriage return. *)
Definition is_ws (c : ascii) : bool :=
  Nat.eqb (ord c) 32 || Nat.eqb (ord c) 9 || Nat.eqb (ord c) 10 || Nat.eqb (ord c) 13.

Fixpoint skip_ws (s : string) : string :=
  match s with
  | String c s' => if is_ws c then skip_ws s' else s
  | EmptyString => EmptyString
  end.

(** [s] without the prefix [p], when it starts with it. *)
Fixpoint literal (p s : string) : option string :=
  match p, s with
  | EmptyString, _ => Some s
  | String a p', String b s' => if Ascii.eqb a b then literal p' s' else None
  | String _ _, EmptyString => None
  end.

Definition hex_value (c : ascii) : option nat :=
  if in_range 48 57 c then Some (ord c - 48)
  else if in_range 97 102 c then Some (ord c - 87)
  else if in_range 65 70 c then Some (ord c - 55)
  else None.

Definition hex4 (a b c d : ascii) : option nat :=
  match hex_value a, hex_value b, hex_value c, hex_value d with
  | Some x, Some y, Some z, Some w => Some (((x * 16 + y) * 16 + z) * 16 + w)
  | _, _, _, _ => None
  end.

(** The decoder's [BACKSLASH] table. *)
Definition BACKSLASH (e : ascii) : option ascii :=
  if Ascii.eqb e dquote then Some dquote
  else if Ascii.eqb e "\" then Some "\"%char
  else if Ascii.eqb e "/" then Some "/"%char
  else if Ascii.eqb e "b" then Some (chr 8)
  else if Ascii.eqb e "f" then Some (chr 12)
  else if Ascii.eqb e "n" then Some (chr 10)
  else if Ascii.eqb e "r" then Some (chr 13)
  else if Ascii.eqb e "t" then Some (chr 9)
  else None.

Definition cons_char (c : ascii) (p : parse string) : parse string :=
  match p with
  | Parsed s r => Parsed (String c s) r
  | Fail f => Fail f
  end.

(** [py_scanstring] in strict mode, from just after the opening quote. *)
Fixpoint scanstring (s : string) : parse string :=
  match s with
  | EmptyString => Fail Malformed
  | String c s1 =>
      if Ascii.eqb c dquote then Parsed "" s1
      else if Ascii.eqb c "\" then
        match s1 with
        | EmptyString => Fail Malformed
        | String e s2 =>
            if Ascii.eqb e "u" then
              match s2 with
              | String h1 (String h2 (String h3 (String h4 s3))) =>
                  match hex4 h1 h2 h3 h4 with
                  | Some n =>
                      if Nat.ltb n 256 then cons_char (chr n) (scanstring s3)
                      else Fail Unrepresented
                  | None => Fail Malformed
                  end
              | _ => Fail Malformed
              end
            else
              match BACKSLASH e with
              | Some ch => cons_char ch (scanstring s2)
              | None => Fail Malformed
              end
        end
      else if Nat.ltb (ord c) 32 then Fail Malformed
      else cons_char c (scanstring s1)
  end.

Definition is_digit (c : ascii) : bool := in_range 48 57 c.

(** The longest run of digits at the front, and what follows it. *)
Fixpoint span_digits (s : string) : string * string :=
  match s with
  | String c s' =>
      if is_digit c
      then let (ds, r) := span_digits s' in (String c ds, r)
      else (EmptyString, s)
  | EmptyString => (EmptyString, EmptyString)
  end.

Definition digits_value (ds : string) : N :=
  match NilEmpty.uint_of_string ds with
  | Some u => N.of_uint u
  | None => 0%N
  end.

(** The integer part: a lone 0, or a run of digits that starts with 1-9. *)
Definition match_uint (s : string) : option (N * string) :=
  match s with
  | String c r =>
      if Ascii.eqb c "0" then Some (0%N, r)
      else if is_digit c
      then let (ds, rest) := span_digits r in Some (digits_value (String c ds), rest)
      else None
  | EmptyString => None
  end.

(** A fraction starts here: a dot and a digit. *)
Definition has_frac (s : string) : bool :=
  match s with
  | String c (String d _) => Ascii.eqb c "." && is_digit d
  | _ => false
  end.

(** An exponent starts here: e or E, an optional sign, a digit. *)
Definition has_exp (s : string) : bool :=
  match s with
  | String c (String d r) =>
      (Ascii.eqb c "e" || Ascii.eqb c "E")
      && (is_digit d
          || ((Ascii.eqb d "+" || Ascii.eqb d "-")
              && match r with String d' _ => is_digit d' | EmptyString => false end))
  | _ => false
  end.

Inductive number_match : Type :=
| NoNumber
| Integer (z : Z) (rest : string)
| Float.

(** [NUMBER_RE]: an optional minus sign and the integer part, then an
    optional fraction and an optional exponent; without fraction and
    exponent the match is an [int]. *)
Definition NUMBER_RE (s : string) : number_match :=
  let (neg, s1) :=
    match s with
    | String c r => if Ascii.eqb c "-" then (true, r) else (false, s)
    | EmptyString => (false, s)
    end in
  match match_uint s1 with
  | None => NoNumber
  | Some (n, rest) =>
      if has_frac rest || has_exp rest then Float
      else Integer (if neg then (- Z.of_N n)%Z else Z.of_N n) rest
  end.

(** [scan_once], [JSONObject] and [JSONArray] of json.decoder.  [JSONObject]
    starts after the opening quote of a key and returns the pairs up to the
    closing brace; [JSONArray] starts at an element. *)
Fixpoint scan_once (fuel : nat) (s : string) {struct fuel} : parse json :=
  match fuel with
  | O => Fail OutOfFuel
  | S fuel' =>
      match s with
      | EmptyString => Fail Malformed
      | String c s' =>
          if Ascii.eqb c dquote then
            match scanstring s' with
            | Parsed str r => Parsed (JStr str) r
            | Fail f => Fail f
            end
          else if Ascii.eqb c "{" then
            match skip_ws s' with
            | String c1 r =>
                if Ascii.eqb c1 "}" then Parsed (JDict []) r
                else if Ascii.eqb c1 dquote then
                  match JSONObject fuel' r with
                  | Parsed pairs r' => Parsed (JDict (dict_of_pairs pairs)) r'
                  | Fail f => Fail f
                  end
                else Fail Malformed
            | EmptyString => Fail Malformed
            end
          else if Ascii.eqb c "[" then
            match skip_ws s' with
            | String c1 r =>
                if Ascii.eqb c1 "]" then Parsed (JList []) r
                else
                  match JSONArray fuel' (String c1 r) with
                  | Parsed l r' => Parsed (JList l) r'
                  | Fail f => Fail f
                  end
            | EmptyString => Fail Malformed
            end
          else
            match literal "null" s, literal "true" s, literal "false" s with
            | Some r, _, _ => Parsed JNull r
            | _, Some r, _ => Parsed (JBool true) r
            | _, _, Some r => Parsed (JBool false) r
            | None, None, None =>
                match NUMBER_RE s with
                | Integer z r => Parsed (JInt z) r
                | Float => Fail Unrepresented
                | NoNumber =>
                    match literal "NaN" s, literal "Infinity" s,
                          literal "-Infinity" s with
                    | Some r, _, _ => Parsed (JFloat NaN) r
                    | _, Some r, _ => Parsed (JFloat (Infinity false)) r
                    | _, _, Some r => Parsed (JFloat (Infinity true)) r
                    | None, None, None => Fail Malformed
                    end
                end
            end
      end
  end

with JSONObject (fuel : nat) (s : string) {struct fuel}
  : parse (list (string * json)) :=
  match fuel with
  | O => Fail OutOfFuel
  | S fuel' =>
      match scanstring s with
      | Fail f => Fail f
      | Parsed key s1 =>
          match skip_ws s1 with
          | String c s2 =>
              if Ascii.eqb c ":" then
                match scan_once fuel' (skip_ws s2) with
                | Fail f => Fail f
                | Parsed value s3 =>
                    match skip_ws s3 with
                    | String c' s4 =>
                        if Ascii.eqb c' "}" then Parsed [(key, value)] s4
                        else if Ascii.eqb c' "," then
                          match skip_ws s4 with
                          | String q s5 =>
                              if Ascii.eqb q dquote then
                                match JSONObject fuel' s5 with
                                | Parsed pairs r => Parsed ((key, value) :: pairs) r
                                | Fail f => Fail f
                                end
                              else Fail Malformed
                          | EmptyString => Fail Malformed
                          end
                        else Fail Malformed
                    | EmptyString => Fail Malformed
                    end
                end
              else Fail Malformed
          | EmptyString => Fail Malformed
          end
      end
  end

with JSONArray (fuel : nat) (s : string) {struct fuel} : parse (list json) :=
  match fuel with
  | O => Fail OutOfFuel
  | S fuel' =>
      match scan_once fuel' s with
      | Fail f => Fail f
      | Parsed value s1 =>
          match skip_ws s1 with
          | String c s2 =>
              if Ascii.eqb c "]" then Parsed [value] s2
              else if Ascii.eqb c "," then
                match JSONArray fuel' (skip_ws s2) with
                | Parsed l r => Parsed (value :: l) r
                | Fail f => Fail f
                end
              else Fail Malformed
          | EmptyString => Fail Malformed
          end
      end
  end.

(** What [json.loads] gives for a text. *)
Inductive loaded : Type :=
| Value (v : json)
| NoValue (f : failure).

(** [JSONDecoder.decode]: white space, one value, white space, the end. *)
Definition json_loads (s : string) : loaded :=
  match scan_once (S (2 * String.length s)) (skip_ws s) with
  | Parsed v rest =>
      match skip_ws rest with
      | EmptyString => Value v
      | String _ _ => NoValue Malformed
      end
  | Fail f => NoValue f
  end.

(* ================================================================= *)
(** ** The document tree of BeautifulSoup *)

(** A tag with its attributes and contents, or a piece of text. *)
#[warnings="-register-all"] Inductive node : Type :=
| Tag (name : string) (attrs : list (string * string)) (contents : list node)
| NavigableString (text : string).

(** [tag.descendants]: the nodes below a tag in document order. *)
Fixpoint descendants (n : node) : list node :=
  match n with
  | Tag _ _ contents => flat_map (fun c => c :: descendants c) contents
  | NavigableString _ => []
  end.

(** [tag.text]: the strings below a tag, concatenated. *)
Fixpoint get_text (n : node) : string :=
  match n with
  | Tag _ _ contents => fold_right (fun c s => get_text c ++ s) "" contents
  | NavigableString s => s
  end.

Fixpoint attr_get (attrs : list (string * string)) (k : string) : option string :=
  match attrs with
  | [] => None
  | (k', v) :: attrs' => if String.eqb k' k then Some v else attr_get attrs' k
  end.

(** The words of an attribute value, as the tree builder splits a [class]:
    [split_words] gives the word in progress and the words after it. *)
Fixpoint split_words (s : string) : string * list string :=
  match s with
  | EmptyString => (EmptyString, [])
  | String c s' =>
      let (w, ws) := split_words s' in
      if isspace c
      then (EmptyString, match w with EmptyString => ws | _ => w :: ws end)
      else (String c w, ws)
  end.

Definition words (s : string) : list string :=
  let (w, ws) := split_words s in
  match w with EmptyString => ws | _ => w :: ws end.

(** What [find] and [find_all] are asked for: a tag name, a CSS class and
    attribute values. *)
Record query : Type := {
  q_name : string;
  q_class : option string;
  q_attrs : list (string * string)
}.

(** A class matches when it is one of the words of the attribute, or the
    words joined by single spaces. *)
Definition class_matches (wanted value : string) : bool :=
  existsb (String.eqb wanted) (words value)
  || String.eqb wanted (join " " (words value)).

Definition attr_matches (attrs : list (string * string)) (kv : string * string) : bool :=
  match attr_get attrs (fst kv) with
  | Some v => String.eqb v (snd kv)
  | None => false
  end.

Definition matches (q : query) (n : node) : bool :=
  match n with
  | Tag name attrs _ =>
      String.eqb name (q_name q)
      && match q_class q with
         | Some c =>
             match attr_get attrs "class" with
             | Some v => class_matches c v
             | None => false
             end
         | None => true
         end
      && forallb (attr_matches attrs) (q_attrs q)
  | NavigableString _ => false
  end.

(** [tag.find_all(...)] and [tag.find(...)] *)
Definition find_all (n : node) (q : query) : list node :=
  filter (matches q) (descendants n).

Definition find (n : node) (q : query) : option node :=
  List.find (matches q) (descendants n).

(* ================================================================= *)
(** ** The world and the monad of effects *)

Inductive exn : Type :=
| AttributeError | KeyError | TypeError | ValueError | IndexError | EOFError
| FileNotFoundError | JSONDecodeError | RequestException.

Definition exn_eqb (a b : exn) : bool :=
  match a, b with
  | AttributeError, AttributeError | KeyError, KeyError | TypeError, TypeError
  | ValueError, ValueError | IndexError, IndexError | EOFError, EOFError
  | FileNotFoundError, FileNotFoundError | JSONDecodeError, JSONDecodeError
  | RequestException, RequestException => true
  | _, _ => false
  end.

(** Why a run says nothing about the program: a value outside the model
    (a finite float, a character above 255, a cached value that is not of
    the type the docstrings declare), or a loop bound that was too small. *)
Inductive reason : Type := OutOfModel | NoFuel.

Inductive outcome (A : Type) : Type :=
| Ok (a : A)
| Raise (e : exn)
| Abort (r : reason).
Arguments Ok {A} a.
Arguments Raise {A} e.
Arguments Abort {A} r.

(** a national site *)
Record NationalSite : Type := {
  category : string;
  name : string;
  address : string;
  zipcode : string;
  phone : string
}.

(** [requests.get(url, params)] *)
Record request : Type := {
  url : string;
  params : list (string * string)
}.

(** What a run leaves behind, oldest first.  [Mutated] and [Entered] are
    not effects of the program: they record that the in-memory cache store
    was assigned to, with the store after the assignment, and that
    [get_nearby_places] was entered, with its argument. *)
Inductive event : Type :=
| Printed (text : string)
| Requested (r : request)
| Written (filename content : string)
| Mutated (store : json)
| Entered (site : NationalSite).

Record world : Type := {
  files : string -> option string;      (* the text of each existing file *)
  web : request -> option string;       (* the body served; [None]: no answer *)
  stdin : list string;                  (* the lines still to be typed *)
  trace : list event
}.

Definition M (A : Type) : Type := world -> outcome A * world.

Definition ret {A : Type} (a : A) : M A := fun w => (Ok a, w).

Definition bind {A B : Type} (m : M A) (k : A -> M B) : M B :=
  fun w =>
    match m w with
    | (Ok a, w') => k a w'
    | (Raise e, w') => (Raise e, w')
    | (Abort r, w') => (Abort r, w')
    end.

Definition raise {A : Type} (e : exn) : M A := fun w => (Raise e, w).
Definition abort {A : Type} (r : reason) : M A := fun w => (Abort r, w).

(** [try: body  except e: handler] *)
Definition try_except {A : Type} (body : M A) (e : exn) (handler : M A) : M A :=
  fun w =>
    match body w with
    | (Raise e', w') => if exn_eqb e' e then handler w' else (Raise e', w')
    | r => r
    end.

Notation "x <- m ;; k" := (bind m (fun x => k))
  (at level 61, m at next level, right associativity).
Notation "m ;; k" := (bind m (fun _ => k))
  (at level 61, right associativity).

(** The world after an event, after typing a line, after writing a file. *)
Definition log (w : world) (e : event) : world :=
  {| files := files w; web := web w; stdin := stdin w;
     trace := (trace w ++ [e])%list |}.

Definition typed (w : world) (rest : list string) : world :=
  {| files := files w; web := web w; stdin := rest; trace := trace w |}.

Definition store_file (w : world) (filename content : string) : world :=
  {| files := fun f => if String.eqb f filename then Some content else files w f;
     web := web w; stdin := stdin w; trace := trace w |}.

Definition emit (e : event) : M unit := fun w => (Ok tt, log w e).

(** [print(line)] *)
Definition print (line : string) : M unit := emit (Printed line).

(** [input(prompt)] *)
Definition input (prompt : string) : M string :=
  emit (Printed prompt) ;;
  fun w =>
    match stdin w with
    | [] => (Raise EOFError, w)
    | line :: rest => (Ok line, typed w rest)
    end.

(** [requests.get(url, params).text] *)
Definition requests_get (u : string) (ps : list (string * string)) : M string :=
  emit (Requested {| url := u; params := ps |}) ;;
  fun w =>
    match web w {| url := u; params := ps |} with
    | Some body => (Ok body, w)
    | None => (Raise RequestException, w)
    end.

(** [open(filename, 'r')] and reading it *)
Definition read_file (filename : string) : M string :=
  fun w =>
    match files w filename with
    | Some text => (Ok text, w)
    | None => (Raise FileNotFoundError, w)
    end.

(** [open(filename, 'w')] and writing all of [content] *)
Definition write_file (filename content : string) : M unit :=
  emit (Written filename content) ;;
  fun w => (Ok tt, store_file w filename content).

(** [json.load] and [response.json()] on a text *)
Definition json_load (text : string) : M json :=
  match json_loads text with
  | Value v => ret v
  | NoValue Malformed => raise JSONDecodeError
  | NoValue Unrepresented => abort OutOfModel
  | NoValue OutOfFuel => abort NoFuel
  end.

(* ----------------------------------------------------------------- *)
(** *** Python operations on cached values *)

(** [k in d.keys()] *)
Definition keys_contains (d : json) (k : string) : M bool :=
  match d with
  | JDict items => ret (dict_has items k)
  | _ => raise AttributeError
  end.

(** [d[k]] for a string [k] *)
Definition getitem (d : json) (k : string) : M json :=
  match d with
  | JDict items =>
      match dict_get items k with
      | Some v => ret v
      | None => raise KeyError
      end
  | _ => raise TypeError
  end.

(** [cache_dict[k] = v] *)
Definition setitem (d : json) (k : string) (v : json) : M json :=
  match d with
  | JDict items =>
      let d' := JDict (dict_set items k v) in
      emit (Mutated d') ;; ret d'
  | _ => raise TypeError
  end.

(** What [for x in v] goes through. *)
Definition iterate (v : json) : M (list json) :=
  match v with
  | JList l => ret l
  | JDict items => ret (map (fun kv => JStr (fst kv)) items)
  | JStr s => ret (map (fun c => JStr (String c "")) (list_ascii_of_string s))
  | _ => raise TypeError
  end.

(** A value used where the docstrings declare a string. *)
Definition as_str (v : json) : M string :=
  match v with
  | JStr s => ret s
  | _ => abort OutOfModel
  end.

(** [str(v)] inside an f-string, for the values that print as in JSON or
    as a Python constant. *)
Definition format (v : json) : M string :=
  match v with
  | JStr s => ret s
  | JInt z => ret (repr_int z)
  | JBool true => ret "True"
  | JBool false => ret "False"
  | JNull => ret "None"
  | JFloat NaN => ret "nan"
  | JFloat (Infinity false) => ret "inf"
  | JFloat (Infinity true) => ret "-inf"
  | _ => abort OutOfModel
  end.

(** Method calls on the result of a [find], which may be [None]. *)
Definition tag_find (t : option node) (q : query) : M (option node) :=
  match t with
  | Some n => ret (find n q)
  | None => raise AttributeError
  end.

Definition tag_find_all (t : option node) (q : query) : M (list node) :=
  match t with
  | Some n => ret (find_all n q)
  | None => raise AttributeError
  end.

Definition tag_text (t : option node) : M string :=
  match t with
  | Some n => ret (get_text n)
  | None => raise AttributeError
  end.

(** [tag[attr]] *)
Definition tag_getitem (t : option node) (attr : string) : M string :=
  match t with
  | Some (Tag _ attrs _) =>
      match attr_get attrs attr with
      | Some v => ret v
      | None => raise KeyError
      end
  | Some (NavigableString _) => raise TypeError
  | None => raise TypeError
  end.

(* ================================================================= *)
(** ** What the command loop needs from Python *)

(** The cased characters below 256. *)
Definition iscased (c : ascii) : bool :=
  in_range 65 90 c || in_range 97 122 c
  || Nat.eqb (ord c) 170 || Nat.eqb (ord c) 181 || Nat.eqb (ord c) 186
  || in_range 192 214 c || in_range 216 246 c || in_range 248 255 c.

(** The title case of a character; the title case of the micro sign and of
    y with diaeresis lies above 255. *)
Definition title_char (c : ascii) : option string :=
  if in_range 97 122 c || in_range 224 246 c || in_range 248 254 c
  then Some (String (chr (ord c - 32)) "")
  else if Nat.eqb (ord c) 223 then Some "Ss"
  else if Nat.eqb (ord c) 181 || Nat.eqb (ord c) 255 then None
  else Some (String c "").

Fixpoint title_from (previous_is_cased : bool) (s : string) : option string :=
  match s with
  | EmptyString => Some EmptyString
  | String c s' =>
      match (if previous_is_cased then Some (String (lower_char c) "")
             else title_char c),
            title_from (iscased c) s' with
      | Some a, Some b => Some (a ++ b)
      | _, _ => None
      end
  end.

(** [str.title()] *)
Definition title (s : string) : option string := title_from false s.

(** The digits of an integer literal: digits with single underscores
    between them. *)
Fixpoint int_digits (after_digit : bool) (s : string) : option string :=
  match s with
  | EmptyString => if after_digit then Some EmptyString else None
  | String c s' =>
      if is_digit c then option_map (String c) (int_digits true s')
      else if Ascii.eqb c "_" && after_digit then
        match s' with
        | String d _ => if is_digit d then int_digits false s' else None
        | EmptyString => None
        end
      else None
  end.

(** The white space [int] skips at either end of its argument: the white
    space of C and, of the characters from 128 on, the two that are white
    space to [str.isspace].  The separators 28 to 31, which [str.strip]
    drops, are not skipped. *)
Definition int_space (c : ascii) : bool :=
  in_range 9 13 c || Nat.eqb (ord c) 32
  || Nat.eqb (ord c) 133 || Nat.eqb (ord c) 160.

Fixpoint int_lstrip (s : string) : string :=
  match s with
  | String c s' => if int_space c then int_lstrip s' else s
  | EmptyString => EmptyString
  end.

Fixpoint int_rstrip (s : string) : string :=
  match s with
  | String c s' =>
      match int_rstrip s' with
      | EmptyString => if int_space c then EmptyString else String c EmptyString
      | r => String c r
      end
  | EmptyString => EmptyString
  end.

(** [int(s)]: white space, an optional sign, the digits, white space. *)
Definition py_int (s : string) : option Z :=
  let t := int_rstrip (int_lstrip s) in
  let (neg, body) :=
    match t with
    | String c r =>
        if Ascii.eqb c "-" then (true, r)
        else if Ascii.eqb c "+" then (false, r)
        else (false, t)
    | EmptyString => (false, t)
    end in
  match int_digits false body with
  | Some ds =>
      let n := Z.of_N (digits_value ds) in
      Some (if neg then (- n)%Z else n)
  | None => None
  end.

Definition to_int (s : string) : M Z :=
  match py_int s with
  | Some z => ret z
  | None => raise ValueError
  end.

Definition to_title (s : string) : M string :=
  match title s with
  | Some t => ret t
  | None => abort OutOfModel
  end.

(** [l[i]] for an integer [i] *)
Definition list_getitem {A : Type} (l : list A) (i : Z) : M A :=
  let n := Z.of_nat (List.length l) in
  let j := if (i <? 0)%Z then (i + n)%Z else i in
  if (j <? 0)%Z then raise IndexError
  else match nth_error l (Z.to_nat j) with
       | Some x => ret x
       | None => raise IndexError
       end.

(** [print("-" * len(header), header, "-" * len(header), sep='\n')] *)
Definition print_header (header : string) : M unit :=
  let rule := replicate (String.length header) "-" in
  print (join (String newline "") [rule; header; rule]).

(* ================================================================= *)
(** ** The program *)

Definition CACHE_FILENAME : string := "cache.json".

Section Pipeline.

(** [BeautifulSoup(text, 'html.parser')]: the tree the parser builds. *)
Variable html_parser : string -> node.

(** [secrets.API_KEY] *)
Variable API_KEY : string.

(** Execute BeautifulSoup request *)
Definition get_soup (u : string) : M node :=
  response <- requests_get u [] ;;
  ret (html_parser response).

(** Opens the cache file if it exists and loads the JSON; if the cache
    file doesn't exist, creates a new cache dictionary *)
Definition open_cache (filename : string) : M json :=
  try_except
    (text <- read_file filename ;;
     json_load text)
    FileNotFoundError
    (ret (JDict [])).

(** Saves the current state of the cache to disk *)
Definition save_cache (cache_dict : json) (filename : string) : M unit :=
  write_file filename (json_dumps cache_dict).

(** [f"No {k}"] for an empty attribute *)
Definition or_missing (k : string) (v : json) : json :=
  match v with
  | JStr EmptyString => JStr ("No " ++ k)
  | _ => v
  end.

(** One place of [print_places] *)
Definition print_place (place : json) : M unit :=
  name_ <- getitem place "name" ;;
  fields <- getitem place "fields" ;;
  category_ <- getitem fields "group_sic_code_name" ;;
  fields <- getitem place "fields" ;;
  address_ <- getitem fields "address" ;;
  fields <- getitem place "fields" ;;
  city_ <- getitem fields "city" ;;
  n <- format (or_missing "name" name_) ;;
  c <- format (or_missing "category" category_) ;;
  a <- format (or_missing "address" address_) ;;
  t <- format (or_missing "city" city_) ;;
  print (join " " ["- " ++ n ++ " (" ++ c ++ "):"; a ++ ", " ++ t]).

Fixpoint print_places_loop (places : list json) : M unit :=
  match places with
  | [] => ret tt
  | place :: rest => print_place place ;; print_places_loop rest
  end.

(** Print places included in the given dictionary *)
Definition print_places (place_dict : json) : M unit :=
  results <- getitem place_dict "searchResults" ;;
  places <- iterate results ;;
  print_places_loop places.

(** [NationalSite.info] *)
Definition info (self : NationalSite) : string :=
  name self ++ " (" ++ category self ++ "): " ++ address self ++ " " ++ zipcode self.

Definition ul_states : query :=
  {| q_name := "ul"; q_class := Some "dropdown-menu SearchBar-keywordSearch";
     q_attrs := [] |}.
Definition any (tag : string) : query :=
  {| q_name := tag; q_class := None; q_attrs := [] |}.
Definition with_class (tag class : string) : query :=
  {| q_name := tag; q_class := Some class; q_attrs := [] |}.
Definition with_attr (tag attr value : string) : query :=
  {| q_name := tag; q_class := None; q_attrs := [(attr, value)] |}.

(** The loop of [build_state_url_dict] over the anchors. *)
Fixpoint state_loop (baseurl : string) (state_list : list node)
         (state_dict : list (string * json)) : M (list (string * json)) :=
  match state_list with
  | [] => ret state_dict
  | state :: rest =>
      state_path <- tag_getitem (Some state) "href" ;;
      state_loop baseurl rest
        (dict_set state_dict (lower (get_text state)) (JStr (baseurl ++ state_path)))
  end.

(** Make a dictionary that maps state name to state page url from
    "https://www.nps.gov" *)
Definition build_state_url_dict : M json :=
  let baseurl := "https://www.nps.gov" in
  let index_path := "/index.htm" in
  cache_dict <- open_cache CACHE_FILENAME ;;
  hit <- keys_contains cache_dict (baseurl ++ index_path) ;;
  if hit : bool then
    getitem cache_dict (baseurl ++ index_path)
  else
    soup <- get_soup (baseurl ++ index_path) ;;
    state_list <- tag_find_all (find soup ul_states) (any "a") ;;
    state_dict <- state_loop baseurl state_list [] ;;
    cache_dict <- setitem cache_dict (baseurl ++ index_path) (JDict state_dict) ;;
    save_cache cache_dict CACHE_FILENAME ;;
    ret (JDict state_dict).

(** [try: x = x.text.strip()  except AttributeError: x = sentinel] *)
Definition text_or (t : option node) (sentinel : string) : M string :=
  try_except
    (s <- tag_text t ;; ret (strip s))
    AttributeError
    (ret sentinel).

Definition site_record (site : NationalSite) : json :=
  JDict [("category", JStr (category site)); ("name", JStr (name site));
         ("address", JStr (address site)); ("zipcode", JStr (zipcode site));
         ("phone", JStr (phone site))].

(** The [key] of the record cached under [site_url]. *)
Definition cached_field (cache_dict : json) (site_url key : string) : M string :=
  record <- getitem cache_dict site_url ;;
  v <- getitem record key ;;
  as_str v.

(** Make an instances from a national site URL. *)
Definition get_site_instance (site_url : string) : M NationalSite :=
  cache_dict <- open_cache CACHE_FILENAME ;;
  hit <- keys_contains cache_dict site_url ;;
  if hit : bool then
    print "Using cache" ;;
    category_ <- cached_field cache_dict site_url "category" ;;
    name_ <- cached_field cache_dict site_url "name" ;;
    address_ <- cached_field cache_dict site_url "address" ;;
    zipcode_ <- cached_field cache_dict site_url "zipcode" ;;
    phone_ <- cached_field cache_dict site_url "phone" ;;
    ret {| category := category_; name := name_; address := address_;
           zipcode := zipcode_; phone := phone_ |}
  else
    print "Fetching" ;;
    soup <- get_soup site_url ;;
    (* search header area *)
    let headers := find soup (with_class "div" "Hero-titleContainer") in
    (* collect attributes *)
    name_ <- tag_find headers (with_class "a" "Hero-title") ;;
    name_ <- text_or name_ "No name" ;;
    category_ <- tag_find headers (with_class "span" "Hero-designation") ;;
    category_ <- text_or category_ "No category" ;;
    (* search footer area *)
    let footers := find soup (with_class "div" "ParkFooter-contact") in
    (* collect attributes *)
    local <- tag_find footers (with_attr "span" "itemprop" "addressLocality") ;;
    region <- tag_find footers (with_attr "span" "itemprop" "addressRegion") ;;
    address_ <- try_except
                  (l <- tag_text local ;;
                   r <- tag_text region ;;
                   ret (strip l ++ ", " ++ strip r))
                  AttributeError
                  (ret "No address") ;;
    zipcode_ <- tag_find footers (with_attr "span" "itemprop" "postalCode") ;;
    zipcode_ <- text_or zipcode_ "No zipcode" ;;
    phone_ <- tag_find footers (with_attr "span" "itemprop" "telephone") ;;
    phone_ <- text_or phone_ "No phone" ;;
    (* create instance *)
    let site := {| category := category_; name := name_; address := address_;
                   zipcode := zipcode_; phone := phone_ |} in
    (* update cache *)
    cache_dict <- setitem cache_dict site_url (site_record site) ;;
    save_cache cache_dict CACHE_FILENAME ;;
    ret site.

(** The loop of [get_sites_for_state] over the headings. *)
Fixpoint site_urls_loop (site_h3_list : list node) (site_urls : list string)
  : M (list string) :=
  match site_h3_list with
  | [] => ret site_urls
  | site :: rest =>
      let baseurl := "https://www.nps.gov" in
      let index_path := "index.htm" in
      site_path <- tag_getitem (find site (any "a")) "href" ;;
      let site_url := baseurl ++ site_path ++ index_path in
      site_urls_loop rest (site_urls ++ [site_url])%list
  end.

(** The loop of [get_sites_for_state] over the URLs. *)
Fixpoint sites_loop (site_urls : list json) (sites : list NationalSite)
  : M (list NationalSite) :=
  match site_urls with
  | [] => ret sites
  | u :: rest =>
      u <- as_str u ;;
      site <- get_site_instance u ;;
      sites_loop rest (sites ++ [site])%list
  end.

(** Make a list of national site instances from a state URL. *)
Definition get_sites_for_state (state_url : string) : M (list NationalSite) :=
  cache_dict <- open_cache CACHE_FILENAME ;;
  hit <- keys_contains cache_dict state_url ;;
  site_urls <-
    (if hit : bool then
       print "Using cache" ;;
       getitem cache_dict state_url
     else
       print "Fetching" ;;
       (* get list of headings of each site *)
       soup <- get_soup state_url ;;
       site_h3_list <- tag_find_all (find soup (with_attr "ul" "id" "list_parks"))
                                    (any "h3") ;;
       (* create list of URLs *)
       site_urls <- site_urls_loop site_h3_list [] ;;
       let site_urls := JList (map JStr site_urls) in
       (* update cache *)
       cache_dict <- setitem cache_dict state_url site_urls ;;
       save_cache cache_dict CACHE_FILENAME ;;
       ret site_urls) ;;
  (* create NationalSite objects for each URL *)
  site_urls <- iterate site_urls ;;
  sites_loop site_urls [].

(** Obtain API data from MapQuest API. *)
Definition get_nearby_places (site_object : NationalSite) : M json :=
  emit (Entered site_object) ;;
  cache_dict <- open_cache CACHE_FILENAME ;;
  let zipcode_ := zipcode site_object in
  hit <- keys_contains cache_dict zipcode_ ;;
  if hit : bool then
    print "Using cache" ;;
    getitem cache_dict zipcode_
  else
    print "Fetching" ;;
    let baseurl := "http://www.mapquestapi.com/search/v2/radius" in
    let params_ := [("key", API_KEY); ("origin", zipcode_); ("radius", "10");
                    ("maxMatches", "10"); ("ambiguities", "ignore");
                    ("outFormat", "json")] in
    response <- requests_get baseurl params_ ;;
    place_dict <- json_load response ;;
    cache_dict <- setitem cache_dict zipcode_ place_dict ;;
    save_cache cache_dict CACHE_FILENAME ;;
    ret place_dict.

Definition prompt : string :=
  "Enter a state name (e.g. Michigan, michigan), or 'exit': ".
Definition prompt2 : string :=
  "Choose the number for detail search or 'exit' or 'back': ".

(** [for site in sites: print(...); counter += 1] *)
Fixpoint list_sites (sites : list NationalSite) (counter : Z) : M Z :=
  match sites with
  | [] => ret counter
  | site :: rest =>
      print ("[" ++ repr_int counter ++ "] " ++ info site) ;;
      list_sites rest (counter + 1)%Z
  end.

(** The inner [while True] of the command loop; the result is the
    [detail] it was left with. *)
Fixpoint detail_loop (fuel : nat) (sites : list NationalSite) (counter : Z)
  : M string :=
  match fuel with
  | O => abort NoFuel
  | S fuel' =>
      detail <- input prompt2 ;;
      (* check exit *)
      if String.eqb detail "exit" || String.eqb detail "back" then ret detail
      else
        n <- to_int detail ;;
        (* check invalid input (out of range) *)
        if (n >? counter - 1)%Z || (n <? 1)%Z then
          print "[Error] Invalid input." ;;
          detail_loop fuel' sites counter
        else
          site <- list_getitem sites (n - 1)%Z ;;
          (* check if the selected site has zipcode *)
          if String.eqb (zipcode site) "No zipcode" then
            print "[Error] This site does not have location info" ;;
            detail_loop fuel' sites counter
          (* pretty-print nearby places *)
          else
            site <- list_getitem sites (n - 1)%Z ;;
            place_dict <- get_nearby_places site ;;
            site <- list_getitem sites (n - 1)%Z ;;
            t <- to_title (name site) ;;
            print_header ("Places near " ++ t) ;;
            print_places place_dict ;;
            detail_loop fuel' sites counter
  end.

(** The outer [while True]. *)
Fixpoint state_loop_main (fuel : nat) (state_dict : json) : M unit :=
  match fuel with
  | O => abort NoFuel
  | S fuel' =>
      state <- input prompt ;;
      let state := lower state in
      (* check exit *)
      if String.eqb state "exit" then ret tt
      else
        leave <-
          try_except
            (state_url <- getitem state_dict state ;;
             state_url <- as_str state_url ;;
             sites <- get_sites_for_state state_url ;;
             (* pretty print *)
             t <- to_title state ;;
             print_header ("List of national sites in " ++ t) ;;
             counter <- list_sites sites 1%Z ;;
             (* display nearby places *)
             detail <- detail_loop fuel' sites counter ;;
             (* check exit *)
             ret (String.eqb detail "exit"))
            (* if invalid state name is given *)
            KeyError
            (print "Enter proper state name." ;; ret false) ;;
        if leave : bool then ret tt else state_loop_main fuel' state_dict
  end.

(** [if __name__ == "__main__"] *)
Definition main (fuel : nat) : M unit :=
  state_dict <- build_state_url_dict ;;
  state_loop_main fuel state_dict.

End Pipeline.

(* ================================================================= *)
(** ** Sample pages and worlds *)

Definition document (contents : list node) : node := Tag "[document]" [] contents.
Definition text_in (tag : string) (attrs : list (string * string)) (s : string) : node :=
  Tag tag attrs [NavigableString s].

(** A site page with everything in place. *)
Definition isle_royale_html : string :=
  "<div class='Hero-titleContainer'><a class='Hero-title'>Isle Royale</a><span class='Hero-designation'>National Park</span></div><div class='ParkFooter-contact'><span itemprop='addressLocality'>Houghton</span><span itemprop='addressRegion'>MI</span><span itemprop='postalCode'>49931</span><span itemprop='telephone'>(906) 482-0984</span></div>".

Definition isle_royale_page : node :=
  document
    [Tag "div" [("class", "Hero-titleContainer")]
       [text_in "a" [("class", "Hero-title")] "Isle Royale";
        text_in "span" [("class", "Hero-designation")] "National Park"];
     Tag "div" [("class", "ParkFooter-contact")]
       [text_in "span" [("itemprop", "addressLocality")] "Houghton";
        text_in "span" [("itemprop", "addressRegion")] "MI";
        text_in "span" [("itemprop", "postalCode")] "49931";
        text_in "span" [("itemprop", "telephone")] "(906) 482-0984"]].

(** A site page without the header container. *)
Definition headless_html : string :=
  "<div class='ParkFooter-contact'><span itemprop='postalCode'>49931</span></div>".

Definition headless_page : node :=
  document
    [Tag "div" [("class", "ParkFooter-contact")]
       [text_in "span" [("itemprop", "postalCode")] "49931"]].

(** A site page without the footer container. *)
Definition footless_html : string :=
  "<div class='Hero-titleContainer'><a class='Hero-title'>Isle Royale</a></div>".

Definition footless_page : node :=
  document
    [Tag "div" [("class", "Hero-titleContainer")]
       [text_in "a" [("class", "Hero-title")] "Isle Royale"]].

(** A site page whose designation is blank and that has no telephone. *)
Definition blank_html : string :=
  "<div class='Hero-titleContainer'><a class='Hero-title'>Keweenaw</a><span class='Hero-designation'></span></div><div class='ParkFooter-contact'><span itemprop='addressLocality'>Calumet</span><span itemprop='addressRegion'>MI</span><span itemprop='postalCode'>49913</span></div>".

Definition blank_page : node :=
  document
    [Tag "div" [("class", "Hero-titleContainer")]
       [text_in "a" [("class", "Hero-title")] "Keweenaw";
        Tag "span" [("class", "Hero-designation")] []];
     Tag "div" [("class", "ParkFooter-contact")]
       [text_in "span" [("itemprop", "addressLocality")] "Calumet";
        text_in "span" [("itemprop", "addressRegion")] "MI";
        text_in "span" [("itemprop", "postalCode")] "49913"]].

(** A page with no zip code: only the header. *)
Definition nozip_html : string :=
  "<div class='Hero-titleContainer'><a class='Hero-title'>North Country</a></div><div class='ParkFooter-contact'></div>".

Definition nozip_page : node :=
  document
    [Tag "div" [("class", "Hero-titleContainer")]
       [text_in "a" [("class", "Hero-title")] "North Country"];
     Tag "div" [("class", "ParkFooter-contact")] []].

(** A page with both containers and nothing in them. *)
Definition bare_html : string :=
  "<div class='Hero-titleContainer'></div><div class='ParkFooter-contact'></div>".

Definition bare_page : node :=
  document
    [Tag "div" [("class", "Hero-titleContainer")] [];
     Tag "div" [("class", "ParkFooter-contact")] []].

(** The state page of Michigan with three sites. *)
Definition michigan_html : string :=
  "<ul id='list_parks'><li><h3><a href='/isro/'>Isle Royale</a></h3></li><li><h3><a href='/kewe/'>Keweenaw</a></h3></li><li><h3><a href='/noco/'>North Country</a></h3></li></ul>".

Definition michigan_page : node :=
  document
    [Tag "ul" [("id", "list_parks")]
       [Tag "li" [] [Tag "h3" [] [text_in "a" [("href", "/isro/")] "Isle Royale"]];
        Tag "li" [] [Tag "h3" [] [text_in "a" [("href", "/kewe/")] "Keweenaw"]];
        Tag "li" [] [Tag "h3" [] [text_in "a" [("href", "/noco/")] "North Country"]]]].

(** The index page with one state. *)
Definition index_html : string :=
  "<ul class='dropdown-menu SearchBar-keywordSearch'><li><a href='/state/mi/index.htm'>Michigan</a></li></ul>".

Definition index_page : node :=
  document
    [Tag "ul" [("class", "dropdown-menu SearchBar-keywordSearch")]
       [Tag "li" [] [text_in "a" [("href", "/state/mi/index.htm")] "Michigan"]]].

(** The tree of each sample text; any other text is read as an empty
    document. *)
Definition sample_parser (text : string) : node :=
  if String.eqb text isle_royale_html then isle_royale_page
  else if String.eqb text headless_html then headless_page
  else if String.eqb text footless_html then footless_page
  else if String.eqb text blank_html then blank_page
  else if String.eqb text nozip_html then nozip_page
  else if String.eqb text bare_html then bare_page
  else if String.eqb text michigan_html then michigan_page
  else if String.eqb text index_html then index_page
  else document [].

Definition sample_key : string := "KEY".

Definition table (rows : list (string * string)) (r : request) : option string :=
  match params r with
  | [] => attr_get rows (url r)
  | _ => None
  end.

(** Nothing cached, nothing typed, and the web serving [rows]. *)
Definition fresh_world (rows : list (string * string)) (typed : list string) : world :=
  {| files := fun _ => None; web := table rows; stdin := typed; trace := [] |}.

Definition isro_url : string := "https://www.nps.gov/isro/index.htm".
Definition kewe_url : string := "https://www.nps.gov/kewe/index.htm".
Definition noco_url : string := "https://www.nps.gov/noco/index.htm".
Definition mi_url : string := "https://www.nps.gov/state/mi/index.htm".

Definition nps_rows : list (string * string) :=
  [("https://www.nps.gov/index.htm", index_html);
   (mi_url, michigan_html);
   (isro_url, isle_royale_html);
   (kewe_url, blank_html);
   (noco_url, nozip_html)].

(** The worlds the examples start from. *)
Definition nps_world : world := fresh_world nps_rows [].
Definition headless_world : world := fresh_world [(isro_url, headless_html)] [].
Definition footless_world : world := fresh_world [(isro_url, footless_html)] [].
Definition bare_world : world := fresh_world [(isro_url, bare_html)] [].

Definition isle_royale : NationalSite :=
  {| category := "National Park"; name := "Isle Royale";
     address := "Houghton, MI"; zipcode := "49931"; phone := "(906) 482-0984" |}.

Definition keweenaw : NationalSite :=
  {| category := ""; name := "Keweenaw"; address := "Calumet, MI";
     zipcode := "49913"; phone := "No phone" |}.

(** A cache with every kind of value in it. *)
Definition sample_cache : json :=
  JDict [(mi_url, JList [JStr isro_url; JStr kewe_url]);
         ("49931", JDict [("resultsCount", JInt 2); ("ok", JBool true);
                          ("origin", JNull); ("searchResults", JList []);
                          ("options", JDict [])]);
         (String dquote "\ quoted", JInt (-17))].

(** A world whose cache file is cut short. *)
Definition corrupt_world : world :=
  {| files := fun f => if String.eqb f CACHE_FILENAME then Some "{" else None;
     web := table []; stdin := []; trace := [] |}.

(* ================================================================= *)
(** ** Measures and predicates used in the proofs *)

(** A bound on the recursion depth [scan_once] needs to read a value back. *)
Fixpoint size (v : json) : nat :=
  match v with
  | JList l => S (fold_right (fun x n => S (size x + n)) 0 l)
  | JDict d => S (fold_right (fun kv n => S (size (snd kv) + n)) 0 d)
  | _ => 1
  end.

(** The text after a number does not continue it. *)
Definition ends_number (rest : string) : bool :=
  match rest with
  | EmptyString => true
  | String c _ =>
      negb (is_digit c) && negb (Ascii.eqb c ".")
      && negb (Ascii.eqb c "e") && negb (Ascii.eqb c "E")
  end.

(** A character that can start the text of an integer. *)
Definition starts_number (c : ascii) : bool := Ascii.eqb c "-" || is_digit c.

(** A value never starts with white space or a closing bracket. *)
Definition starts_value (c : ascii) : bool :=
  negb (is_ws c) && negb (Ascii.eqb c "]") && negb (Ascii.eqb c "}").

(** What [encode] writes for [v] is read back as [v]. *)
Definition reads_back (v : json) : Prop :=
  json_wf v = true ->
  forall level fuel rest,
    ends_number rest = true -> size v <= fuel ->
    scan_once fuel (encode level v ++ rest) = Parsed v rest.

(** The text of a dict item and the separator of items at depth [level]. *)
Definition item_text (level : nat) (kv : string * json) : string :=
  encode_basestring_ascii (fst kv) ++ ": " ++ encode (S level) (snd kv).

Definition comma (level : nat) : string := "," ++ newline_indent (S level).

(** Induction on [json] values with the hypotheses for the items of a list
    and of a dict. *)
Section json_induction.
Variable P : json -> Prop.
Hypothesis HNull : P JNull.
Hypothesis HBool : forall b, P (JBool b).
Hypothesis HInt : forall z, P (JInt z).
Hypothesis HStr : forall s, P (JStr s).
Hypothesis HList : forall l, Forall P l -> P (JList l).
Hypothesis HDict : forall d, Forall (fun kv => P (snd kv)) d -> P (JDict d).
Hypothesis HFloat : forall f, P (JFloat f).

Fixpoint json_induction (v : json) : P v :=
  match v with
  | JNull => HNull
  | JBool b => HBool b
  | JInt z => HInt z
  | JStr s => HStr s
  | JList l =>
      HList l ((fix items (l : list json) : Forall P l :=
                match l with
                | [] => Forall_nil P
                | x :: xs => Forall_cons x (json_induction x) (items xs)
                end) l)
  | JDict d =>
      HDict d ((fix items (d : list (string * json))
               : Forall (fun kv => P (snd kv)) d :=
                match d with
                | [] => Forall_nil _
                | kv :: d' =>
                    Forall_cons (P := fun kv => P (snd kv)) kv (json_induction (snd kv)) (items d')
                end) d)
  | JFloat f => HFloat f
  end.
End json_induction.

(* ================================================================= *)
(** ** Notions the statements are written with *)

(** What [open_cache] finds in the file [filename]. *)
Definition stored (filename : string) (w : world) : outcome json :=
  match files w filename with
  | None => Ok (JDict [])
  | Some text =>
      match json_loads text with
      | Value v => Ok v
      | NoValue Malformed => Raise JSONDecodeError
      | NoValue Unrepresented => Abort OutOfModel
      | NoValue OutOfFuel => Abort NoFuel
      end
  end.







(** The cache file holds the dict [items], which has no key [key]. *)
Definition misses (w : world) (items : list (string * json)) (key : string) : Prop :=
  stored CACHE_FILENAME w = Ok (JDict items) /\ dict_has items key = false.

(** The page request for [u] is answered with [body]. *)
Definition page (u : string) : request := {| url := u; params := [] |}.

Definition serves (w : world) (u body : string) : Prop :=
  web w (page u) = Some body.

(** The queries of [get_site_instance]. *)
Definition header_q : query := with_class "div" "Hero-titleContainer".
Definition name_q : query := with_class "a" "Hero-title".
Definition category_q : query := with_class "span" "Hero-designation".
Definition footer_q : query := with_class "div" "ParkFooter-contact".
Definition local_q : query := with_attr "span" "itemprop" "addressLocality".
Definition region_q : query := with_attr "span" "itemprop" "addressRegion".
Definition zipcode_q : query := with_attr "span" "itemprop" "postalCode".
Definition phone_q : query := with_attr "span" "itemprop" "telephone".

(** The stripped text of an element, or the sentinel when there is none. *)
Definition field_text (t : option node) (sentinel : string) : string :=
  match t with
  | Some n => strip (get_text n)
  | None => sentinel
  end.

Definition address_text (local region : option node) : string :=
  match local, region with
  | Some l, Some r => strip (get_text l) ++ ", " ++ strip (get_text r)
  | _, _ => "No address"
  end.

(** The record read off a header and a footer container. *)
Definition record_of (h f : node) : NationalSite :=
  {| category := field_text (find h category_q) "No category";
     name := field_text (find h name_q) "No name";
     address := address_text (find f local_q) (find f region_q);
     zipcode := field_text (find f zipcode_q) "No zipcode";
     phone := field_text (find f phone_q) "No phone" |}.

(** The world after [get_site_instance] fetched [u] and before it stored
    anything, and after it stored [site] in the cache [items]. *)
Definition fetched (w : world) (u : string) : world :=
  log (log w (Printed "Fetching")) (Requested (page u)).

Definition saved (w : world) (store : json) : world :=
  store_file (log (log w (Mutated store))
                  (Written CACHE_FILENAME (json_dumps store)))
             CACHE_FILENAME (json_dumps store).

(** Sequencing of outcomes. *)
Definition and_then {A B : Type} (o : outcome A) (k : A -> outcome B) : outcome B :=
  match o with
  | Ok a => k a
  | Raise e => Raise e
  | Abort r => Abort r
  end.

(** [cache_dict[site_url][key]] as a string. *)
Definition cached_string (items : list (string * json)) (site_url key : string)
  : outcome string :=
  match dict_get items site_url with
  | None => Raise KeyError
  | Some (JDict record) =>
      match dict_get record key with
      | None => Raise KeyError
      | Some (JStr s) => Ok s
      | Some _ => Abort OutOfModel
      end
  | Some _ => Raise TypeError
  end.

(** The record [get_site_instance] builds from the cache on a hit. *)
Definition cached_site (items : list (string * json)) (site_url : string)
  : outcome NationalSite :=
  and_then (cached_string items site_url "category") (fun c =>
  and_then (cached_string items site_url "name") (fun n =>
  and_then (cached_string items site_url "address") (fun a =>
  and_then (cached_string items site_url "zipcode") (fun z =>
  and_then (cached_string items site_url "phone") (fun p =>
  Ok {| category := c; name := n; address := a; zipcode := z; phone := p |}))))).

(** What [get_site_instance] does on a miss: the page is fetched, the
    record is read off the two containers and stored; without one of the
    containers the attribute lookup on [None] ends the call. *)
Definition site_miss (html_parser : string -> node) (site_url : string)
           (items : list (string * json)) (w : world)
  : outcome NationalSite * world :=
  match web w (page site_url) with
  | None => (Raise RequestException, fetched w site_url)
  | Some body =>
      match find (html_parser body) header_q, find (html_parser body) footer_q with
      | Some h, Some f =>
          (Ok (record_of h f),
           saved (fetched w site_url)
                 (JDict (dict_set items site_url (site_record (record_of h f)))))
      | _, _ => (Raise AttributeError, fetched w site_url)
      end
  end.

(** Every assignment to the in-memory store is followed at once by the
    write of that whole store to the cache file, and the file is written
    at no other moment. *)
Fixpoint persisted (tr : list event) : bool :=
  match tr with
  | [] => true
  | Mutated store :: tr' =>
      match tr' with
      | Written f content :: tr'' =>
          String.eqb f CACHE_FILENAME && String.eqb content (json_dumps store)
          && persisted tr''
      | _ => false
      end
  | Written _ _ :: _ => false
  | _ :: tr' => persisted tr'
  end.

(** [get_nearby_places] was entered only for sites with a zip code. *)
Definition has_zipcode (e : event) : bool :=
  match e with
  | Entered site => negb (String.eqb (zipcode site) "No zipcode")
  | _ => true
  end.

(** Whatever the world, running [m] only adds events to the trace, and
    the events added satisfy [P]. *)
Definition extends (P : list event -> Prop) {A : Type} (m : M A) : Prop :=
  forall w, exists delta,
    trace (snd (m w)) = (trace w ++ delta)%list /\ P delta.

(** Every value [m] returns satisfies [Q]. *)
Definition yields {A : Type} (Q : A -> Prop) (m : M A) : Prop :=
  forall w a w', m w = (Ok a, w') -> Q a.

(** [l[i]] without the exception, for the indexes Python accepts. *)
Definition item_at {A : Type} (l : list A) (i : Z) : option A :=
  let n := Z.of_nat (List.length l) in
  let j := if (i <? 0)%Z then (i + n)%Z else i in
  if (j <? 0)%Z then None else nth_error l (Z.to_nat j).

(** The path of the anchor of a heading. *)
Definition heading_path (h3 : node) : option string :=
  match find h3 (any "a") with
  | Some (Tag _ attrs _) => attr_get attrs "href"
  | _ => None
  end.

Definition site_url_of (path : string) : string :=
  "https://www.nps.gov" ++ path ++ "index.htm".

Definition list_parks_q : query := with_attr "ul" "id" "list_parks".

(** With at most [n] lines left to type, [m] does not stop for lack of
    fuel and types no line back. *)
Definition safe (n : nat) {A : Type} (m : M A) : Prop :=
  forall w, List.length (stdin w) <= n ->
    fst (m w) <> Abort NoFuel
    /\ List.length (stdin (snd (m w))) <= List.length (stdin w).

(* ================================================================= *)
(** ** Notions for the other resolvers and the command loop *)

(** The cache file holds a dict in which [k] is bound to [v]. *)
Definition holds (w : world) (k : string) (v : json) : Prop :=
  exists items,
    stored CACHE_FILENAME w = Ok (JDict items) /\ dict_get items k = Some v.

(** Every binding of the cache file in [w] is a binding of the cache file
    in [w']. *)
Definition keeps (w w' : world) : Prop :=
  forall k v, holds w k v -> holds w' k v.

(** [m] keeps every binding of the cache file, whatever the world. *)
Definition keeping {A : Type} (m : M A) : Prop :=
  forall w, keeps w (snd (m w)).

(** The world after the lines were printed. *)
Definition printing (w : world) (lines : list string) : world :=
  fold_left (fun w line => log w (Printed line)) lines w.

(** The requests of a trace. *)
Definition requests_of (tr : list event) : list request :=
  flat_map (fun e => match e with Requested r => [r] | _ => [] end) tr.

(** [build_state_url_dict] *)
Definition index_url : string := "https://www.nps.gov/index.htm".

Definition anchor_href (a : node) : option string :=
  match a with
  | Tag _ attrs _ => attr_get attrs "href"
  | NavigableString _ => None
  end.

(** The state dict after the anchors with these paths. *)
Definition states_of (anchors : list node) (paths : list string)
  : list (string * json) :=
  fold_left (fun d ap => dict_set d (lower (get_text (fst ap)))
                                  (JStr ("https://www.nps.gov" ++ snd ap)))
            (combine anchors paths) [].

(** The loop over the anchors without the world. *)
Fixpoint state_entries (baseurl : string) (state_list : list node)
         (state_dict : list (string * json)) : outcome (list (string * json)) :=
  match state_list with
  | [] => Ok state_dict
  | NavigableString _ :: _ => Raise TypeError
  | (Tag _ attrs _ as state) :: rest =>
      match attr_get attrs "href" with
      | Some state_path =>
          state_entries baseurl rest
            (dict_set state_dict (lower (get_text state))
                      (JStr (baseurl ++ state_path)))
      | None => Raise KeyError
      end
  end.

(** What [build_state_url_dict] does on a miss. *)
Definition index_miss (html_parser : string -> node)
           (items : list (string * json)) (w : world) : outcome json * world :=
  let w1 := log w (Requested (page index_url)) in
  match web w (page index_url) with
  | None => (Raise RequestException, w1)
  | Some body =>
      match find (html_parser body) ul_states with
      | None => (Raise AttributeError, w1)
      | Some ul =>
          match state_entries "https://www.nps.gov" (find_all ul (any "a")) [] with
          | Ok state_dict =>
              (Ok (JDict state_dict),
               saved w1 (JDict (dict_set items index_url (JDict state_dict))))
          | Raise e => (Raise e, w1)
          | Abort r => (Abort r, w1)
          end
      end
  end.

(** [get_sites_for_state]: the loop over the headings without the world,
    and the first half of the function, which ends with the list of URLs. *)
Fixpoint heading_urls (site_h3_list : list node) (site_urls : list string)
  : outcome (list string) :=
  match site_h3_list with
  | [] => Ok site_urls
  | site :: rest =>
      match find site (any "a") with
      | Some (Tag _ attrs _) =>
          match attr_get attrs "href" with
          | Some site_path =>
              heading_urls rest (site_urls ++ [site_url_of site_path])%list
          | None => Raise KeyError
          end
      | _ => Raise TypeError
      end
  end.

Definition state_miss (html_parser : string -> node) (state_url : string)
           (items : list (string * json)) (w : world) : outcome json * world :=
  match web w (page state_url) with
  | None => (Raise RequestException, fetched w state_url)
  | Some body =>
      match find (html_parser body) list_parks_q with
      | None => (Raise AttributeError, fetched w state_url)
      | Some ul =>
          match heading_urls (find_all ul (any "h3")) [] with
          | Ok urls =>
              (Ok (JList (map JStr urls)),
               saved (fetched w state_url)
                     (JDict (dict_set items state_url (JList (map JStr urls)))))
          | Raise e => (Raise e, fetched w state_url)
          | Abort r => (Abort r, fetched w state_url)
          end
      end
  end.

Definition site_urls_of (html_parser : string -> node) (state_url : string)
  : M json :=
  fun w =>
    match stored CACHE_FILENAME w with
    | Ok (JDict items) =>
        match dict_get items state_url with
        | Some site_urls => (Ok site_urls, log w (Printed "Using cache"))
        | None => state_miss html_parser state_url items w
        end
    | Ok _ => (Raise AttributeError, w)
    | Raise e => (Raise e, w)
    | Abort r => (Abort r, w)
    end.

(** [get_nearby_places] *)
Definition nearby_request (key zipcode_ : string) : request :=
  {| url := "http://www.mapquestapi.com/search/v2/radius";
     params := [("key", key); ("origin", zipcode_); ("radius", "10");
                ("maxMatches", "10"); ("ambiguities", "ignore");
                ("outFormat", "json")] |}.

(** The world after [get_nearby_places] asked for the places near
    [site_object] and before it stored anything. *)
Definition asked (key : string) (site_object : NationalSite) (w : world) : world :=
  log (log (log w (Entered site_object)) (Printed "Fetching"))
      (Requested (nearby_request key (zipcode site_object))).

(** [print_places]: an attribute as it is printed, and the line of a
    place. *)
Definition shown (k v : string) : string :=
  match v with
  | EmptyString => "No " ++ k
  | _ => v
  end.

Definition place_line (name_ category_ address_ city_ : string) : string :=
  "- " ++ shown "name" name_ ++ " (" ++ shown "category" category_ ++ "): "
       ++ shown "address" address_ ++ ", " ++ shown "city" city_.

(** The four strings [print_places] reads in a place. *)
Definition place_strings (place : json)
  : option (string * string * string * string) :=
  match place with
  | JDict p =>
      match dict_get p "name", dict_get p "fields" with
      | Some (JStr n), Some (JDict f) =>
          match dict_get f "group_sic_code_name", dict_get f "address",
                dict_get f "city" with
          | Some (JStr c), Some (JStr a), Some (JStr t) => Some (n, c, a, t)
          | _, _, _ => None
          end
      | _, _ => None
      end
  | _ => None
  end.

Definition line_of (place : json) : option string :=
  match place_strings place with
  | Some (n, c, a, t) => Some (place_line n c a t)
  | None => None
  end.

(** The lines [list_sites] prints, the first with the number [counter]. *)
Fixpoint numbered (sites : list NationalSite) (counter : Z) : list string :=
  match sites with
  | [] => []
  | site :: rest =>
      ("[" ++ repr_int counter ++ "] " ++ info site) :: numbered rest (counter + 1)%Z
  end.

(** [m] does not end with the exception [e]. *)
Definition never (e : exn) {A : Type} (m : M A) : Prop :=
  forall w, fst (m w) <> Raise e.

(** The world with more lines to type after those of [w]. *)
Definition more (w : world) (lines : list string) : world :=
  typed w (stdin w ++ lines)%list.

(** [m] reads no line: with more lines to type it does the same and
    leaves them, and it does not end with EOFError. *)
Definition oblivious {A : Type} (m : M A) : Prop :=
  forall w,
    fst (m w) <> Raise EOFError
    /\ forall lines, m (more w lines) = (fst (m w), more (snd (m w)) lines).

(** A line that is no choice at the second prompt: neither "exit" nor
    "back" nor the text of an integer. *)
Definition no_choice (detail : string) : Prop :=
  detail <> "exit" /\ detail <> "back" /\ py_int detail = None.

(** What more lines to type change of a run of [m].  A run that came to
    its end does the same and leaves the lines.  A run that ended with
    EOFError at the second prompt ends with ValueError when a line comes
    that is no choice, where it had ended and with the lines after that
    line left. *)
Definition resumes {A : Type} (m : M A) : Prop :=
  forall w,
    (fst (m w) <> Raise EOFError ->
     forall lines, m (more w lines) = (fst (m w), more (snd (m w)) lines))
    /\ (fst (m w) = Raise EOFError ->
        forall tr detail rest,
          trace (snd (m w)) = (tr ++ [Printed prompt2])%list ->
          no_choice detail ->
          m (more w (detail :: rest)) = (Raise ValueError, typed (snd (m w)) rest)).

(** A string without white space at either end. *)
Definition stripped (s : string) : Prop := strip s = s.

(* ----------------------------------------------------------------- *)
(** *** More sample pages and worlds *)

(** A site page without telephone, with white space around the texts and
    a tag inside the title. *)
Definition padded_html : string :=
  "<div class='Hero-titleContainer'><a class='Hero-title'> Pictured <b>Rocks</b>  </a><span class='Hero-designation'>  National Lakeshore </span></div><div class='ParkFooter-contact'><span itemprop='addressLocality'> Munising</span><span itemprop='addressRegion'>MI  </span><span itemprop='postalCode'> 49862 </span></div>".

Definition padded_page : node :=
  document
    [Tag "div" [("class", "Hero-titleContainer")]
       [Tag "a" [("class", "Hero-title")]
          [NavigableString " Pictured "; text_in "b" [] "Rocks";
           NavigableString "  "];
        text_in "span" [("class", "Hero-designation")] "  National Lakeshore "];
     Tag "div" [("class", "ParkFooter-contact")]
       [text_in "span" [("itemprop", "addressLocality")] " Munising";
        text_in "span" [("itemprop", "addressRegion")] "MI  ";
        text_in "span" [("itemprop", "postalCode")] " 49862 "]].

Definition padded_parser (text : string) : node :=
  if String.eqb text padded_html then padded_page else sample_parser text.

Definition piro_url : string := "https://www.nps.gov/piro/index.htm".

Definition padded_world : world := fresh_world [(piro_url, padded_html)] [].

Definition pictured_rocks : NationalSite :=
  {| category := "National Lakeshore"; name := "Pictured Rocks";
     address := "Munising, MI"; zipcode := "49862"; phone := "No phone" |}.

(** An index page whose second anchor has no [href]. *)
Definition broken_index_html : string :=
  "<ul class='dropdown-menu SearchBar-keywordSearch'><li><a href='/state/mi/index.htm'>Michigan</a></li><li><a>Ohio</a></li></ul>".

Definition broken_index_page : node :=
  document
    [Tag "ul" [("class", "dropdown-menu SearchBar-keywordSearch")]
       [Tag "li" [] [text_in "a" [("href", "/state/mi/index.htm")] "Michigan"];
        Tag "li" [] [text_in "a" [] "Ohio"]]].

(** A state page whose second heading has no anchor. *)
Definition broken_state_html : string :=
  "<ul id='list_parks'><li><h3><a href='/isro/'>Isle Royale</a></h3></li><li><h3>Keweenaw</h3></li></ul>".

Definition broken_state_page : node :=
  document
    [Tag "ul" [("id", "list_parks")]
       [Tag "li" [] [Tag "h3" [] [text_in "a" [("href", "/isro/")] "Isle Royale"]];
        Tag "li" [] [Tag "h3" [] [NavigableString "Keweenaw"]]]].

Definition broken_parser (text : string) : node :=
  if String.eqb text broken_index_html then broken_index_page
  else if String.eqb text broken_state_html then broken_state_page
  else sample_parser text.

Definition broken_world : world :=
  fresh_world [(index_url, broken_index_html); (mi_url, broken_state_html)] [].

(** Two places as the search service describes them; the second has no
    address. *)
Definition cafe : json :=
  JDict [("name", JStr "Suomi Cafe");
         ("fields", JDict [("group_sic_code_name", JStr "Restaurants");
                           ("address", JStr "54 Huron St");
                           ("city", JStr "Houghton")])].

Definition pier : json :=
  JDict [("name", JStr "Ranger III Pier");
         ("fields", JDict [("group_sic_code_name", JStr EmptyString);
                           ("address", JStr EmptyString);
                           ("city", JStr "Houghton")])].

Definition sample_places : json :=
  JDict [("resultsCount", JInt 2); ("searchResults", JList [cafe; pier])].

(** The web of [nps_rows] with the search service answering for the zip
    code of Isle Royale. *)
Definition places_web (r : request) : option string :=
  if String.eqb (url r) "http://www.mapquestapi.com/search/v2/radius"
  then match attr_get (params r) "origin" with
       | Some "49931" => Some (json_dumps sample_places)
       | Some "49913" => Some "<html>Service unavailable</html>"
       | _ => None
       end
  else table nps_rows r.

Definition places_world (typed : list string) : world :=
  {| files := fun _ => None; web := places_web; stdin := typed; trace := [] |}.

(** The site read off [nozip_html], and another site at the zip code of
    Isle Royale. *)
Definition north_country : NationalSite :=
  {| category := "No category"; name := "North Country";
     address := "No address"; zipcode := "No zipcode"; phone := "No phone" |}.

Definition ranger_pier : NationalSite :=
  {| category := "Pier"; name := "Ranger III"; address := "Houghton, MI";
     zipcode := "49931"; phone := "No phone" |}.

(** A web whose index page and state page have neither menu nor list. *)
Definition bare_nps_world : world :=
  fresh_world [(index_url, bare_html); (mi_url, bare_html)] [].

(** A cache that binds the state page to its list, and one whose record
    of a site has no category. *)
Definition listed_world : world :=
  saved nps_world (JDict [(mi_url, JList [JStr isro_url])]).

Definition nameless_world : world :=
  saved nps_world (JDict [(isro_url, JDict [("name", JStr "Isle Royale")])]).

Lemma append_assoc (a b c : string) : (a ++ b) ++ c = a ++ (b ++ c).
Proof. induction a; simpl; congruence. Qed.

Lemma length_append (a b : string) :
  String.length (a ++ b) = String.length a + String.length b.
Proof. induction a; simpl; congruence. Qed.

(** Reading back one escaped character. *)
Lemma scanstring_escape_char (c : ascii) (tail : string) :
  scanstring (escape_char c ++ tail) = cons_char c (scanstring tail).
Proof.
  destruct c as [[] [] [] [] [] [] [] []]; reflexivity.
Qed.

Lemma scanstring_escape_chars (s rest : string) :
  scanstring (escape_chars s ++ String dquote rest) = Parsed s rest.
Proof.
  induction s as [|c s IH]; simpl.
  - reflexivity.
  - rewrite append_assoc, scanstring_escape_char, IH. reflexivity.
Qed.

Lemma ends_number_span (rest : string) :
  ends_number rest = true -> span_digits rest = (EmptyString, rest).
Proof.
  destruct rest as [|c r]; simpl; [reflexivity|].
  destruct (is_digit c); simpl; [discriminate | reflexivity].
Qed.

Lemma ends_number_frac (rest : string) :
  ends_number rest = true -> has_frac rest || has_exp rest = false.
Proof.
  destruct rest as [|c [|d r]]; simpl; try reflexivity.
  destruct (is_digit c), (Ascii.eqb c "."), (Ascii.eqb c "e"), (Ascii.eqb c "E");
    simpl; intros; try discriminate; reflexivity.
Qed.

Lemma span_digits_uint (d : uint) (rest : string) :
  ends_number rest = true ->
  span_digits (NilEmpty.string_of_uint d ++ rest) = (NilEmpty.string_of_uint d, rest).
Proof.
  intros H. induction d; simpl; try (rewrite IHd; reflexivity).
  apply ends_number_span, H.
Qed.

Lemma digits_value_uint (d : uint) :
  digits_value (NilEmpty.string_of_uint d) = N.of_uint d.
Proof. unfold digits_value. rewrite NilEmpty.usu. reflexivity. Qed.

Lemma pos_to_uint_head (p : positive) :
  match Pos.to_uint p with Nil | D0 _ => False | _ => True end.
Proof.
  pose proof (DecimalPos.Unsigned.to_of (Pos.to_uint p)) as H.
  rewrite DecimalPos.Unsigned.of_to in H. simpl in H.
  pose proof (DecimalPos.Unsigned.to_uint_nonzero p) as Hz.
  pose proof (nzhead_nonzero (Pos.to_uint p)) as Hn.
  unfold unorm in H.
  destruct (nzhead (Pos.to_uint p)) eqn:E;
    try (rewrite H in *; exact I).
  - congruence.
  - exfalso. eapply Hn. reflexivity.
Qed.

Lemma match_uint_repr (n : N) (rest : string) :
  ends_number rest = true ->
  match_uint (repr_N n ++ rest) = Some (n, rest).
Proof.
  intros H. unfold repr_N.
  destruct n as [|p]; [reflexivity|].
  pose proof (pos_to_uint_head p) as Hh.
  pose proof (DecimalN.Unsigned.of_to (Npos p)) as Hv.
  simpl N.to_uint in *.
  destruct (Pos.to_uint p) as [|d|d|d|d|d|d|d|d|d|d] eqn:E; try contradiction.
  all: cbn [NilEmpty.string_of_uint append match_uint].
  all: cbv [Ascii.eqb Bool.eqb is_digit in_range ord nat_of_ascii].
  all: simpl.
  all: rewrite (span_digits_uint d rest H), <- Hv.
  all: do 2 f_equal.
  all: match goal with
       | |- digits_value (String ?c (NilEmpty.string_of_uint ?d)) = N.of_uint ?u =>
           change (String c (NilEmpty.string_of_uint d))
             with (NilEmpty.string_of_uint u)
       end.
  all: apply digits_value_uint.
Qed.

(** The text of an integer is read back as that integer. *)
Lemma NUMBER_RE_repr (z : Z) (rest : string) :
  ends_number rest = true ->
  NUMBER_RE (repr_int z ++ rest) = Integer z rest.
Proof.
  intros H. unfold NUMBER_RE.
  destruct z as [|p|p].
  - simpl. rewrite (ends_number_frac _ H). reflexivity.
  - assert (Hs : exists c s, repr_N (Npos p) = String c s /\ Ascii.eqb c "-" = false).
    { unfold repr_N. simpl N.to_uint. pose proof (pos_to_uint_head p) as Hh.
      destruct (Pos.to_uint p); try contradiction; simpl; eauto. }
    destruct Hs as (c & s & Hs & Hc).
    unfold repr_int. simpl Z.to_N.
    pose proof (match_uint_repr (Npos p) rest H) as Hm.
    rewrite Hs in *. cbn [append] in *. rewrite Hc, Hm.
    rewrite (ends_number_frac _ H). reflexivity.
  - unfold repr_int. cbn [append].
    change (Ascii.eqb "-" "-") with true. cbv iota.
    rewrite (match_uint_repr (Npos p) rest H), (ends_number_frac _ H). reflexivity.
Qed.

Lemma append_nil_r (s : string) : s ++ "" = s.
Proof. induction s; simpl; congruence. Qed.

(** *** Where a dumped value starts *)

Lemma repr_int_head (z : Z) :
  exists c s, repr_int z = String c s /\ starts_number c = true.
Proof.
  destruct z as [|p|p].
  - exists "0"%char, "". split; reflexivity.
  - unfold repr_int, repr_N. simpl Z.to_N. simpl N.to_uint.
    pose proof (pos_to_uint_head p) as Hh.
    destruct (Pos.to_uint p); try contradiction; simpl; eauto.
  - unfold repr_int. eauto.
Qed.

Lemma starts_number_value (c : ascii) :
  starts_number c = true -> starts_value c = true.
Proof.
  destruct c as [[] [] [] [] [] [] [] []]; cbv; intros H;
    first [reflexivity | discriminate H].
Qed.

Lemma encode_head (level : nat) (v : json) :
  exists c s, encode level v = String c s /\ starts_value c = true.
Proof.
  destruct v as [|[]|z|s|[|x l]|[|kv d]|[|[]]];
    try (do 2 eexists; split; [reflexivity | reflexivity]).
  destruct (repr_int_head z) as (c & s & E & H).
  exists c, s. split; [exact E | apply starts_number_value, H].
Qed.

Lemma skip_ws_head (c : ascii) (s : string) :
  starts_value c = true -> skip_ws (String c s) = String c s.
Proof.
  unfold starts_value. simpl. destruct (is_ws c); simpl; [discriminate | reflexivity].
Qed.

Lemma skip_ws_encode (level : nat) (v : json) (rest : string) :
  skip_ws (encode level v ++ rest) = encode level v ++ rest.
Proof.
  destruct (encode_head level v) as (c & s & E & H). rewrite E. simpl append.
  apply skip_ws_head, H.
Qed.

Lemma skip_ws_replicate (n : nat) (s : string) :
  skip_ws (replicate n " " ++ s) = skip_ws s.
Proof. induction n; simpl; auto. Qed.

Lemma skip_ws_indent (level : nat) (s : string) :
  skip_ws (newline_indent level ++ s) = skip_ws s.
Proof. unfold newline_indent. cbn [append]. simpl skip_ws. apply skip_ws_replicate. Qed.

Lemma ends_number_indent (level : nat) (s : string) :
  ends_number (newline_indent level ++ s) = true.
Proof. reflexivity. Qed.

(** *** Atoms *)

Lemma scan_once_str (fuel : nat) (s rest : string) :
  scan_once (S fuel) (encode_basestring_ascii s ++ rest) = Parsed (JStr s) rest.
Proof.
  unfold encode_basestring_ascii. cbn [append]. rewrite append_assoc. cbn [append].
  cbn [scan_once]. change (Ascii.eqb dquote dquote) with true. cbv iota.
  rewrite scanstring_escape_chars. reflexivity.
Qed.

Lemma scan_once_number (fuel : nat) (c : ascii) (s : string) :
  starts_number c = true ->
  scan_once (S fuel) (String c s) =
  match NUMBER_RE (String c s) with
  | Integer z r => Parsed (JInt z) r
  | Float => Fail Unrepresented
  | NoNumber =>
      match literal "NaN" (String c s), literal "Infinity" (String c s),
            literal "-Infinity" (String c s) with
      | Some r, _, _ => Parsed (JFloat NaN) r
      | _, Some r, _ => Parsed (JFloat (Infinity false)) r
      | _, _, Some r => Parsed (JFloat (Infinity true)) r
      | None, None, None => Fail Malformed
      end
  end.
Proof.
  destruct c as [[] [] [] [] [] [] [] []]; intros H;
    first [discriminate H | reflexivity].
Qed.

Lemma scan_once_int (fuel : nat) (z : Z) (rest : string) :
  ends_number rest = true ->
  scan_once (S fuel) (repr_int z ++ rest) = Parsed (JInt z) rest.
Proof.
  intros H. pose proof (NUMBER_RE_repr z rest H) as Hn.
  destruct (repr_int_head z) as (c & s & E & Hc). rewrite E in *.
  cbn [append] in *. rewrite (scan_once_number fuel c (s ++ rest) Hc), Hn. reflexivity.
Qed.

Lemma scan_once_float (fuel : nat) (f : nonfinite) (rest : string) :
  scan_once (S fuel) (floatstr f ++ rest) = Parsed (JFloat f) rest.
Proof. destruct f as [|[]]; reflexivity. Qed.

(** *** Dicts built from pairs with distinct keys *)

Lemma dict_set_fresh (d : list (string * json)) (k : string) (v : json) :
  existsb (String.eqb k) (keys d) = false -> dict_set d k v = (d ++ [(k, v)])%list.
Proof.
  induction d as [|[k' v'] d IH]; simpl; [reflexivity|].
  rewrite (String.eqb_sym k k'). destruct (String.eqb k' k); simpl; [discriminate|].
  intros H. rewrite IH by exact H. reflexivity.
Qed.

Lemma existsb_keys_app (k : string) (a b : list (string * json)) :
  existsb (String.eqb k) (keys (a ++ b)%list) =
  existsb (String.eqb k) (keys a) || existsb (String.eqb k) (keys b).
Proof. unfold keys. rewrite map_app. apply existsb_app. Qed.

Lemma distinct_app_cons (a : list string) (k : string) (b : list string) :
  distinct (a ++ k :: b)%list = true ->
  existsb (String.eqb k) a = false /\ distinct ((a ++ [k]) ++ b)%list = true.
Proof.
  induction a as [|x a IH]; simpl.
  - intros H. split; [reflexivity | exact H].
  - rewrite !andb_true_iff, !negb_true_iff. intros [Hx Hd].
    destruct (IH Hd) as [Hk Hd'].
    rewrite existsb_app in Hx. simpl in Hx.
    apply orb_false_iff in Hx. destruct Hx as [Hxa Hx].
    apply orb_false_iff in Hx. destruct Hx as [Hxk Hxb].
    rewrite (String.eqb_sym k x), Hxk, Hk. split; [reflexivity|].
    split; [|exact Hd'].
    rewrite !existsb_app. simpl. rewrite Hxa, Hxk, Hxb. reflexivity.
Qed.

Lemma fold_dict_set (d acc : list (string * json)) :
  distinct (keys (acc ++ d)%list) = true ->
  fold_left (fun a kv => dict_set a (fst kv) (snd kv)) d acc = (acc ++ d)%list.
Proof.
  revert acc. induction d as [|[k v] d IH]; intros acc H; simpl.
  - symmetry. apply List.app_nil_r.
  - unfold keys in H. rewrite map_app in H. simpl in H.
    apply distinct_app_cons in H. destruct H as [Hk Hd].
    rewrite dict_set_fresh by exact Hk.
    rewrite IH.
    + rewrite <- List.app_assoc. reflexivity.
    + unfold keys. rewrite !map_app. simpl. exact Hd.
Qed.

Lemma dict_of_pairs_distinct (d : list (string * json)) :
  distinct (keys d) = true -> dict_of_pairs d = d.
Proof. intros H. unfold dict_of_pairs. apply (fold_dict_set d []), H. Qed.

(** *** Unfolding the reader one step *)

Lemma scan_once_bracket (fuel : nat) (s : string) :
  scan_once (S fuel) (String "[" s) =
  match skip_ws s with
  | String c r =>
      if Ascii.eqb c "]" then Parsed (JList []) r
      else match JSONArray fuel (String c r) with
           | Parsed l r' => Parsed (JList l) r'
           | Fail f => Fail f
           end
  | EmptyString => Fail Malformed
  end.
Proof. reflexivity. Qed.

Lemma scan_once_brace (fuel : nat) (s : string) :
  scan_once (S fuel) (String "{" s) =
  match skip_ws s with
  | String c r =>
      if Ascii.eqb c "}" then Parsed (JDict []) r
      else if Ascii.eqb c dquote then
        match JSONObject fuel r with
        | Parsed pairs r' => Parsed (JDict (dict_of_pairs pairs)) r'
        | Fail f => Fail f
        end
      else Fail Malformed
  | EmptyString => Fail Malformed
  end.
Proof. reflexivity. Qed.

Lemma JSONArray_step (fuel : nat) (s : string) :
  JSONArray (S fuel) s =
  match scan_once fuel s with
  | Fail f => Fail f
  | Parsed value s1 =>
      match skip_ws s1 with
      | String c s2 =>
          if Ascii.eqb c "]" then Parsed [value] s2
          else if Ascii.eqb c "," then
            match JSONArray fuel (skip_ws s2) with
            | Parsed l r => Parsed (value :: l) r
            | Fail f => Fail f
            end
          else Fail Malformed
      | EmptyString => Fail Malformed
      end
  end.
Proof. reflexivity. Qed.

Lemma JSONObject_step (fuel : nat) (s : string) :
  JSONObject (S fuel) s =
  match scanstring s with
  | Fail f => Fail f
  | Parsed key s1 =>
      match skip_ws s1 with
      | String c s2 =>
          if Ascii.eqb c ":" then
            match scan_once fuel (skip_ws s2) with
            | Fail f => Fail f
            | Parsed value s3 =>
                match skip_ws s3 with
                | String c' s4 =>
                    if Ascii.eqb c' "}" then Parsed [(key, value)] s4
                    else if Ascii.eqb c' "," then
                      match skip_ws s4 with
                      | String q s5 =>
                          if Ascii.eqb q dquote then
                            match JSONObject fuel s5 with
                            | Parsed pairs r => Parsed ((key, value) :: pairs) r
                            | Fail f => Fail f
                            end
                          else Fail Malformed
                      | EmptyString => Fail Malformed
                      end
                    else Fail Malformed
                | EmptyString => Fail Malformed
                end
            end
          else Fail Malformed
      | EmptyString => Fail Malformed
      end
  end.
Proof. reflexivity. Qed.

(** *** Reading back what [encode] wrote *)

Arguments newline_indent : simpl never.
Arguments comma : simpl never.
Arguments encode : simpl never.
Arguments join : simpl never.

Lemma encode_list (level : nat) (x : json) (l : list json) :
  encode level (JList (x :: l)) =
  "[" ++ newline_indent (S level)
      ++ join (comma level) (map (encode (S level)) (x :: l))
      ++ newline_indent level ++ "]".
Proof. reflexivity. Qed.

Lemma encode_dict (level : nat) (kv : string * json) (d : list (string * json)) :
  encode level (JDict (kv :: d)) =
  "{" ++ newline_indent (S level)
      ++ join (comma level) (map (item_text level) (kv :: d))
      ++ newline_indent level ++ "}".
Proof. reflexivity. Qed.

Lemma join_cons (sep a : string) (l : list string) :
  join sep (a :: l) = a ++ match l with [] => "" | _ :: _ => sep ++ join sep l end.
Proof. destruct l; simpl; [symmetry; apply append_nil_r | reflexivity]. Qed.

Lemma JSONArray_items (level : nat) (l : list json) :
  Forall reads_back l -> forallb json_wf l = true -> l <> [] ->
  forall fuel rest,
    fold_right (fun x n => S (size x + n)) 0 l <= fuel ->
    JSONArray fuel (join (comma level) (map (encode (S level)) l)
                      ++ newline_indent level ++ String "]" rest)
    = Parsed l rest.
Proof.
  induction 1 as [|x l Hx Hl IH]; intros Hwf Hne fuel rest Hfuel; [contradiction|].
  simpl in Hwf. apply andb_true_iff in Hwf. destruct Hwf as [Hwx Hwl].
  simpl fold_right in Hfuel. destruct fuel as [|fuel]; [lia|].
  rewrite JSONArray_step. cbn [map]. rewrite join_cons, append_assoc.
  destruct l as [|y l].
  - cbn [map append].
    rewrite (Hx Hwx (S level) fuel _ (ends_number_indent _ _)) by (simpl in Hfuel; lia).
    rewrite skip_ws_indent. reflexivity.
  - cbn [map]. cbv iota. unfold comma at 1. cbn [append]. rewrite append_assoc.
    rewrite (Hx Hwx (S level) fuel) by (reflexivity || (simpl in Hfuel; lia)).
    cbn [skip_ws]. change (is_ws ",") with false. cbv iota.
    change (Ascii.eqb "," "]") with false. change (Ascii.eqb "," ",") with true.
    cbv iota. rewrite skip_ws_indent.
    change (encode (S level) y :: map (encode (S level)) l)
      with (map (encode (S level)) (y :: l)).
    assert (Hs : forall z, skip_ws (join (comma level) (map (encode (S level)) (y :: l)) ++ z)
                 = join (comma level) (map (encode (S level)) (y :: l)) ++ z).
    { intros z. cbn [map]. rewrite join_cons, append_assoc. apply skip_ws_encode. }
    rewrite Hs. rewrite (IH Hwl) by (discriminate || (simpl in Hfuel; simpl; lia)).
    reflexivity.
Qed.

Lemma item_text_quote (level : nat) (kv : string * json) (z : string) :
  item_text level kv ++ z =
  String dquote (escape_chars (fst kv)
                   ++ String dquote (": " ++ encode (S level) (snd kv) ++ z)).
Proof.
  unfold item_text, encode_basestring_ascii. cbn [append].
  rewrite !append_assoc. reflexivity.
Qed.

Lemma join_items_quote (level : nat) (kv : string * json)
      (d : list (string * json)) (z : string) :
  exists tail,
    join (comma level) (map (item_text level) (kv :: d)) ++ z = String dquote tail.
Proof.
  cbn [map]. rewrite join_cons, append_assoc, item_text_quote. eauto.
Qed.

Lemma JSONObject_items (level : nat) (d : list (string * json)) :
  Forall (fun kv => reads_back (snd kv)) d ->
  forallb (fun kv => json_wf (snd kv)) d = true -> d <> [] ->
  forall fuel rest tail,
    fold_right (fun kv n => S (size (snd kv) + n)) 0 d <= fuel ->
    join (comma level) (map (item_text level) d)
      ++ newline_indent level ++ String "}" rest = String dquote tail ->
    JSONObject fuel tail = Parsed d rest.
Proof.
  induction 1 as [|[k v] d Hx Hd IH]; intros Hwf Hne fuel rest tail Hfuel Htail;
    [contradiction|].
  simpl in Hwf. apply andb_true_iff in Hwf. destruct Hwf as [Hwx Hwd].
  simpl fold_right in Hfuel. destruct fuel as [|fuel]; [lia|].
  cbn [fst snd] in *.
  cbn [map] in Htail. rewrite join_cons, append_assoc, item_text_quote in Htail.
  cbn [fst snd] in Htail.
  match type of Htail with String _ ?t = _ => assert (Et : tail = t) by congruence end.
  subst tail. clear Htail.
  rewrite JSONObject_step, scanstring_escape_chars.
  cbn [append skip_ws]. change (is_ws ":") with false. cbv iota.
  change (Ascii.eqb ":" ":") with true. cbv iota.
  cbn [skip_ws]. change (is_ws " ") with true. cbv iota. rewrite skip_ws_encode.
  destruct d as [|kv d].
  - cbn [map]. cbv iota. cbn [append].
    rewrite (Hx Hwx (S level) fuel _ (ends_number_indent _ _)) by lia.
    rewrite skip_ws_indent. reflexivity.
  - cbn [map]. cbv iota. unfold comma at 1. cbn [append]. rewrite append_assoc.
    rewrite (Hx Hwx (S level) fuel) by (reflexivity || lia).
    cbn [skip_ws]. change (is_ws ",") with false. cbv iota.
    change (Ascii.eqb "," "}") with false. change (Ascii.eqb "," ",") with true.
    cbv iota. rewrite skip_ws_indent.
    change (item_text level kv :: map (item_text level) d)
      with (map (item_text level) (kv :: d)).
    destruct (join_items_quote level kv d (newline_indent level ++ String "}" rest))
      as (tail & Ht).
    rewrite Ht. cbn [skip_ws]. change (is_ws dquote) with false. cbv iota.
    change (Ascii.eqb dquote dquote) with true. cbv iota.
    rewrite (IH Hwd ltac:(discriminate) fuel rest tail ltac:(simpl in *; lia) Ht).
    reflexivity.
Qed.

(** Every well-formed value is read back from its text. *)
Lemma encode_reads_back (v : json) : reads_back v.
Proof.
  induction v as [|b|z|s|l IH|d IH|f] using json_induction;
    intros Hwf level fuel rest Hrest Hfuel;
    (destruct fuel as [|fuel]; [simpl in Hfuel; lia|]);
    [| | | | | |apply scan_once_float].
  - reflexivity.
  - destruct b; reflexivity.
  - apply scan_once_int, Hrest.
  - apply scan_once_str.
  - destruct l as [|x l]; [reflexivity|].
    rewrite encode_list. cbn [append]. rewrite scan_once_bracket.
    rewrite !append_assoc, skip_ws_indent.
    assert (Hs : exists c s,
               join (comma level) (map (encode (S level)) (x :: l))
                 ++ newline_indent level ++ "]" ++ rest = String c s
               /\ starts_value c = true).
    { cbn [map]. rewrite join_cons, append_assoc.
      destruct (encode_head (S level) x) as (c & s & E & H).
      rewrite E. cbn [append]. eauto. }
    destruct Hs as (c & s & E & H). rewrite E, (skip_ws_head c s H).
    unfold starts_value in H. rewrite !andb_true_iff, !negb_true_iff in H.
    destruct H as [[_ Hc] _]. rewrite Hc, <- E.
    cbn [append]. simpl in Hwf.
    rewrite (JSONArray_items level (x :: l) IH Hwf) by (discriminate || (simpl in *; lia)).
    reflexivity.
  - destruct d as [|kv d]; [reflexivity|].
    rewrite encode_dict. cbn [append]. rewrite scan_once_brace.
    rewrite !append_assoc, skip_ws_indent.
    destruct (join_items_quote level kv d (newline_indent level ++ "}" ++ rest))
      as (tail & Ht).
    rewrite Ht. cbn [skip_ws]. change (is_ws dquote) with false. cbv iota.
    change (Ascii.eqb dquote "}") with false.
    change (Ascii.eqb dquote dquote) with true. cbv iota.
    simpl json_wf in Hwf. apply andb_true_iff in Hwf. destruct Hwf as [Hk Hv].
    rewrite (JSONObject_items level (kv :: d) IH Hv ltac:(discriminate) fuel rest tail
               ltac:(simpl in *; lia) Ht).
    rewrite (dict_of_pairs_distinct (kv :: d) Hk). reflexivity.
Qed.

(** *** The recursion bound of [json_loads] is enough *)

Lemma length_newline_indent (level : nat) : 1 <= String.length (newline_indent level).
Proof. unfold newline_indent. simpl. lia. Qed.

Lemma length_comma (level : nat) : 2 <= String.length (comma level).
Proof.
  unfold comma. rewrite length_append. pose proof (length_newline_indent (S level)).
  simpl String.length at 1. lia.
Qed.

Lemma length_join_items {A : Type} (sep : string) (text : A -> string)
      (weight : A -> nat) (l : list A) :
  1 <= String.length sep ->
  Forall (fun x => weight x <= String.length (text x)) l ->
  fold_right (fun x n => S (weight x + n)) 0 l
  <= S (String.length (join sep (map text l))).
Proof.
  intros Hsep. induction 1 as [|x l Hx Hl IH]; [simpl; lia|].
  cbn [map]. rewrite join_cons, length_append. cbn [fold_right].
  destruct l as [|y l]; [simpl; lia|].
  cbn [map] in *. cbv iota. rewrite length_append. lia.
Qed.

Lemma size_le_length (v : json) :
  forall level, size v <= String.length (encode level v).
Proof.
  induction v as [|b|z|s|l IH|d IH|f] using json_induction; intros level;
    [| | | | | |destruct f as [|[]]; simpl; lia].
  - simpl. lia.
  - destruct b; simpl; lia.
  - destruct (repr_int_head z) as (c & s & E & _).
    change (encode level (JInt z)) with (repr_int z). rewrite E. simpl. lia.
  - change (encode level (JStr s)) with (encode_basestring_ascii s).
    unfold encode_basestring_ascii. simpl. lia.
  - destruct l as [|x l]; [simpl; lia|].
    rewrite encode_list. cbn [size].
    pose proof (length_join_items (comma level) (encode (S level)) size (x :: l)) as Hj.
    rewrite !length_append.
    pose proof (length_newline_indent (S level)).
    pose proof (length_newline_indent level).
    pose proof (length_comma level).
    assert (Forall (fun x => size x <= String.length (encode (S level) x)) (x :: l)).
    { eapply Forall_impl; [|exact IH]. intros a Ha. apply Ha. }
    specialize (Hj ltac:(lia) ltac:(assumption)).
    simpl String.length at 1. lia.
  - destruct d as [|kv d]; [simpl; lia|].
    rewrite encode_dict. cbn [size].
    pose proof (length_join_items (comma level) (item_text level)
                  (fun kv => size (snd kv)) (kv :: d)) as Hj.
    rewrite !length_append.
    pose proof (length_newline_indent (S level)).
    pose proof (length_newline_indent level).
    pose proof (length_comma level).
    assert (Forall (fun kv => size (snd kv) <= String.length (item_text level kv)) (kv :: d)).
    { eapply Forall_impl; [|exact IH]. intros a Ha. cbv beta in Ha.
      unfold item_text. rewrite !length_append. specialize (Ha (S level)). lia. }
    specialize (Hj ltac:(lia) ltac:(assumption)).
    simpl String.length at 1. lia.
Qed.

(** The round trip of the codec: what [json.dump] writes, [json.load] reads
    back as the same value. *)
Lemma json_loads_dumps (v : json) :
  json_wf v = true -> json_loads (json_dumps v) = Value v.
Proof.
  intros Hwf. unfold json_loads, json_dumps.
  pose proof (skip_ws_encode 0 v "") as Hs. rewrite append_nil_r in Hs. rewrite Hs.
  pose proof (encode_reads_back v Hwf 0 (S (2 * String.length (encode 0 v))) ""
                eq_refl) as Hr.
  rewrite append_nil_r in Hr. rewrite Hr; [reflexivity|].
  pose proof (size_le_length v 0). lia.
Qed.

(** *** What the reader returns is a Python value *)

Lemma existsb_keys_dict_set (x : string) (d : list (string * json))
      (k : string) (v : json) :
  existsb (String.eqb x) (keys (dict_set d k v))
  = existsb (String.eqb x) (keys d) || String.eqb x k.
Proof.
  induction d as [|[k' v'] d IH]; simpl.
  - apply orb_false_r.
  - destruct (String.eqb k' k) eqn:E; simpl.
    + apply String.eqb_eq in E. subst k'.
      destruct (String.eqb x k); simpl; [reflexivity|].
      symmetry. apply orb_false_r.
    + rewrite IH. apply orb_assoc.
Qed.

Lemma dict_set_distinct (d : list (string * json)) (k : string) (v : json) :
  distinct (keys d) = true -> distinct (keys (dict_set d k v)) = true.
Proof.
  induction d as [|[k' v'] d IH]; simpl; [reflexivity|].
  rewrite andb_true_iff, negb_true_iff. intros [Hk Hd].
  destruct (String.eqb k' k) eqn:E; simpl.
  - rewrite Hk, Hd. reflexivity.
  - rewrite existsb_keys_dict_set, Hk, E, (IH Hd). reflexivity.
Qed.

Lemma dict_set_forallb (p : json -> bool) (d : list (string * json))
      (k : string) (v : json) :
  forallb (fun kv => p (snd kv)) d = true -> p v = true ->
  forallb (fun kv => p (snd kv)) (dict_set d k v) = true.
Proof.
  intros Hd Hv. induction d as [|[k' v'] d IH]; simpl in *.
  - rewrite Hv. reflexivity.
  - apply andb_true_iff in Hd. destruct Hd as [H1 H2].
    destruct (String.eqb k' k); simpl; rewrite ?Hv, ?H1, ?H2, ?IH; auto.
Qed.

Lemma dict_set_wf (d : list (string * json)) (k : string) (v : json) :
  json_wf (JDict d) = true -> json_wf v = true ->
  json_wf (JDict (dict_set d k v)) = true.
Proof.
  simpl. rewrite !andb_true_iff. intros [Hk Hd] Hv. split.
  - apply dict_set_distinct, Hk.
  - apply dict_set_forallb; assumption.
Qed.

Lemma dict_of_pairs_wf (pairs : list (string * json)) :
  forallb (fun kv => json_wf (snd kv)) pairs = true ->
  json_wf (JDict (dict_of_pairs pairs)) = true.
Proof.
  unfold dict_of_pairs.
  assert (G : forall acc, json_wf (JDict acc) = true ->
              forallb (fun kv => json_wf (snd kv)) pairs = true ->
              json_wf (JDict (fold_left (fun d kv => dict_set d (fst kv) (snd kv))
                                        pairs acc)) = true).
  { induction pairs as [|[k v] pairs IH]; intros acc Ha Hp; [exact Ha|].
    simpl in Hp. apply andb_true_iff in Hp. destruct Hp as [Hv Hp].
    simpl fold_left. apply IH; [|exact Hp]. apply dict_set_wf; assumption. }
  apply G. reflexivity.
Qed.

(** Splits the innermost [match] or [if] of hypothesis [H]. *)
Ltac break_match H :=
  match type of H with
  | context [match ?x with _ => _ end] =>
      lazymatch x with
      | context [match _ with _ => _ end] => fail
      | _ => destruct x eqn:?
      end
  end.

Ltac break_all H := repeat (break_match H; try discriminate H).

Lemma scan_once_wf (fuel : nat) :
  (forall s v r, scan_once fuel s = Parsed v r -> json_wf v = true)
  /\ (forall s l r, JSONObject fuel s = Parsed l r ->
        forallb (fun kv => json_wf (snd kv)) l = true)
  /\ (forall s l r, JSONArray fuel s = Parsed l r -> forallb json_wf l = true).
Proof.
  induction fuel as [|fuel (IHs & IHo & IHa)].
  - repeat split; intros; discriminate.
  - repeat split.
    + intros s v r H. destruct s as [|c s]; [discriminate|].
      destruct (Ascii.eqb c "[") eqn:Eb.
      { apply Ascii.eqb_eq in Eb. subst c. rewrite scan_once_bracket in H.
        break_all H; injection H as <- <-; [reflexivity|]. simpl. eauto. }
      destruct (Ascii.eqb c "{") eqn:Ec.
      { apply Ascii.eqb_eq in Ec. subst c. rewrite scan_once_brace in H.
        break_all H; injection H as <- <-; [reflexivity|].
        apply dict_of_pairs_wf. eauto. }
      cbn [scan_once] in H. rewrite Eb, Ec in H.
      break_all H; injection H as <- <-; reflexivity.
    + intros s l r H. rewrite JSONObject_step in H.
      break_all H; injection H as <- <-; simpl;
        repeat match goal with
               | E : scan_once fuel _ = Parsed _ _ |- _ => apply IHs in E; rewrite E
               | E : JSONObject fuel _ = Parsed _ _ |- _ => apply IHo in E; rewrite E
               end; reflexivity.
    + intros s l r H. rewrite JSONArray_step in H.
      break_all H; injection H as <- <-; simpl;
        repeat match goal with
               | E : scan_once fuel _ = Parsed _ _ |- _ => apply IHs in E; rewrite E
               | E : JSONArray fuel _ = Parsed _ _ |- _ => apply IHa in E; rewrite E
               end; reflexivity.
Qed.

Lemma json_loads_wf (s : string) (v : json) :
  json_loads s = Value v -> json_wf v = true.
Proof.
  unfold json_loads. intros H.
  destruct (scan_once _ _) as [v' r|f] eqn:E; [|discriminate].
  destruct (skip_ws r); [|discriminate]. injection H as <-.
  eapply (proj1 (scan_once_wf _)), E.
Qed.

(** *** The reader always has fuel enough *)

Lemma skip_ws_length (s r : string) :
  skip_ws s = r -> String.length r <= String.length s.
Proof.
  intros <-. induction s as [|c s IH]; simpl; [lia|].
  destruct (is_ws c); simpl; lia.
Qed.

Lemma literal_length (p s r : string) :
  literal p s = Some r -> String.length r + String.length p = String.length s.
Proof.
  revert s. induction p as [|a p IH]; intros s H; simpl in *.
  - injection H as <-. lia.
  - destruct s as [|b s]; [discriminate|].
    destruct (Ascii.eqb a b); [|discriminate]. apply IH in H. simpl. lia.
Qed.

Lemma cons_char_parsed (c : ascii) (p : parse string) (s r : string) :
  cons_char c p = Parsed s r -> exists s', p = Parsed s' r.
Proof. destruct p; simpl; intros H; [injection H as <- <-; eauto | discriminate]. Qed.

Lemma scanstring_length (s : string) :
  forall k r, scanstring s = Parsed k r -> String.length r < String.length s.
Proof.
  induction s as [s IH] using (well_founded_induction
                                 (well_founded_ltof _ String.length)).
  unfold ltof in IH. intros k r H.
  destruct s as [|c s]; [discriminate|]. cbn [scanstring] in H.
  break_all H;
    try (injection H as <- <-; simpl; lia);
    apply cons_char_parsed in H; destruct H as (k' & H);
    apply IH in H; simpl in *; lia.
Qed.

Lemma span_digits_length (s ds r : string) :
  span_digits s = (ds, r) -> String.length r <= String.length s.
Proof.
  revert ds r. induction s as [|c s IH]; intros ds r H; simpl in H.
  - injection H as <- <-. simpl. lia.
  - destruct (is_digit c).
    + destruct (span_digits s) as [ds' r'] eqn:E. injection H as <- <-.
      specialize (IH _ _ eq_refl). simpl. lia.
    + injection H as <- <-. simpl. lia.
Qed.

Lemma NUMBER_RE_length (s : string) (z : Z) (r : string) :
  NUMBER_RE s = Integer z r -> String.length r < String.length s.
Proof.
  unfold NUMBER_RE, match_uint. intros H.
  break_all H; injection H as <- <-;
    repeat match goal with
           | E : (_, _) = (_, _) |- _ => injection E as <- <-
           | E : Some _ = Some _ |- _ => injection E as <- <-
           | E : span_digits _ = _ |- _ => apply span_digits_length in E
           end; simpl in *; lia.
Qed.

Ltac lengths :=
  repeat match goal with
         | E : skip_ws _ = _ |- _ => apply skip_ws_length in E
         | E : scanstring _ = Parsed _ _ |- _ => apply scanstring_length in E
         | E : literal _ _ = Some _ |- _ => apply literal_length in E
         | E : NUMBER_RE _ = Integer _ _ |- _ => apply NUMBER_RE_length in E
         end.

(** Gives a name to the texts [skip_ws a] the reader is called on. *)
Ltac name_skips :=
  repeat match goal with
         | E : context [scan_once _ (skip_ws ?a)] |- _ =>
             let t := fresh "t" in let Et := fresh "Et" in
             remember (skip_ws a) as t eqn:Et; symmetry in Et
         | E : context [JSONArray _ (skip_ws ?a)] |- _ =>
             let t := fresh "t" in let Et := fresh "Et" in
             remember (skip_ws a) as t eqn:Et; symmetry in Et
         end.

Lemma scan_once_shrinks (fuel : nat) :
  (forall s v r, scan_once fuel s = Parsed v r -> String.length r < String.length s)
  /\ (forall s l r, JSONObject fuel s = Parsed l r -> String.length r < String.length s)
  /\ (forall s l r, JSONArray fuel s = Parsed l r -> String.length r < String.length s).
Proof.
  induction fuel as [|fuel (IHs & IHo & IHa)].
  - repeat split; intros; discriminate.
  - repeat split.
    + intros s v r H. destruct s as [|c s]; [discriminate|].
      destruct (Ascii.eqb c "[") eqn:Eb.
      { apply Ascii.eqb_eq in Eb. subst c. rewrite scan_once_bracket in H.
        break_all H; injection H as <- <-;
          repeat match goal with
                 | E : JSONArray fuel _ = Parsed _ _ |- _ => apply IHa in E
                 end; lengths; simpl in *; lia. }
      destruct (Ascii.eqb c "{") eqn:Ec.
      { apply Ascii.eqb_eq in Ec. subst c. rewrite scan_once_brace in H.
        break_all H; injection H as <- <-;
          repeat match goal with
                 | E : JSONObject fuel _ = Parsed _ _ |- _ => apply IHo in E
                 end; lengths; simpl in *; lia. }
      cbn [scan_once] in H. rewrite Eb, Ec in H.
      break_all H; injection H as <- <-; lengths; simpl in *; lia.
    + intros s l r H. rewrite JSONObject_step in H.
      break_all H; injection H as <- <-;
        name_skips;
        repeat match goal with
               | E : scan_once fuel _ = Parsed _ _ |- _ => apply IHs in E
               | E : JSONObject fuel _ = Parsed _ _ |- _ => apply IHo in E
               end; lengths; simpl in *; lia.
    + intros s l r H. rewrite JSONArray_step in H.
      break_all H; injection H as <- <-;
        name_skips;
        repeat match goal with
               | E : scan_once fuel _ = Parsed _ _ |- _ => apply IHs in E
               | E : JSONArray fuel _ = Parsed _ _ |- _ => apply IHa in E
               end; lengths; simpl in *; lia.
Qed.

Lemma scanstring_fuel (s : string) : scanstring s <> Fail OutOfFuel.
Proof.
  induction s as [s IH] using (well_founded_induction
                                 (well_founded_ltof _ String.length)).
  unfold ltof in IH. intros H.
  destruct s as [|c s]; [discriminate|]. cbn [scanstring] in H.
  break_all H;
    match type of H with
    | cons_char _ (scanstring ?t) = _ =>
        destruct (scanstring t) eqn:E; simpl in H; [discriminate|];
        injection H as ->; apply IH in E; [exact E | simpl; lia]
    end.
Qed.

Lemma scan_once_fuel (fuel : nat) :
  (forall s, 2 * String.length s < fuel -> scan_once fuel s <> Fail OutOfFuel)
  /\ (forall s, 2 * String.length s < fuel -> JSONObject fuel s <> Fail OutOfFuel)
  /\ (forall s, 2 * String.length s + 1 < fuel -> JSONArray fuel s <> Fail OutOfFuel).
Proof.
  induction fuel as [|fuel (IHs & IHo & IHa)].
  - repeat split; intros; lia.
  - pose proof (scan_once_shrinks fuel) as (Ss & So & Sa).
    assert (Hstr : forall t f, scanstring t = Fail f -> f <> OutOfFuel).
    { intros t f E ->. exact (scanstring_fuel t E). }
    repeat split.
    + intros s Hf H. destruct s as [|c s]; [discriminate|].
      destruct (Ascii.eqb c "[") eqn:Eb.
      { apply Ascii.eqb_eq in Eb. subst c. rewrite scan_once_bracket in H.
        break_all H. injection H as ->.
        match goal with E : JSONArray fuel _ = _ |- _ => apply IHa in E; [exact E|] end.
        lengths. simpl in *. lia. }
      destruct (Ascii.eqb c "{") eqn:Ec.
      { apply Ascii.eqb_eq in Ec. subst c. rewrite scan_once_brace in H.
        break_all H. injection H as ->.
        match goal with E : JSONObject fuel _ = _ |- _ => apply IHo in E; [exact E|] end.
        lengths. simpl in *. lia. }
      cbn [scan_once] in H. rewrite Eb, Ec in H.
      break_all H. injection H as ->.
      match goal with E : scanstring _ = _ |- _ => exact (Hstr _ _ E eq_refl) end.
    + intros s Hf H. rewrite JSONObject_step in H.
      break_all H; injection H as ->; name_skips;
        try match goal with E : scanstring _ = Fail _ |- _ => exact (Hstr _ _ E eq_refl) end;
        repeat match goal with
               | E : scan_once fuel _ = Parsed _ _ |- _ => apply Ss in E
               end;
        match goal with
        | E : scan_once fuel _ = Fail _ |- _ => apply IHs in E; [exact E|]
        | E : JSONObject fuel _ = Fail _ |- _ => apply IHo in E; [exact E|]
        end; lengths; simpl in *; lia.
    + intros s Hf H. rewrite JSONArray_step in H.
      break_all H; injection H as ->; name_skips;
        repeat match goal with
               | E : scan_once fuel _ = Parsed _ _ |- _ => apply Ss in E
               end;
        match goal with
        | E : scan_once fuel _ = Fail _ |- _ => apply IHs in E; [exact E|]
        | E : JSONArray fuel _ = Fail _ |- _ => apply IHa in E; [exact E|]
        end; lengths; simpl in *; lia.
Qed.

(** [json_loads] never stops for lack of fuel. *)
Lemma json_loads_total (s : string) : json_loads s <> NoValue OutOfFuel.
Proof.
  unfold json_loads. intros H.
  destruct (scan_once _ _) as [v r|f] eqn:E.
  - destruct (skip_ws r); discriminate.
  - injection H as ->. apply (proj1 (scan_once_fuel _)) in E; [exact E|].
    pose proof (skip_ws_length s _ eq_refl). lia.
Qed.

Arguments find : simpl never.
Arguments find_all : simpl never.
Arguments get_text : simpl never.
Arguments strip : simpl never.
Arguments json_dumps : simpl never.
Arguments json_loads : simpl never.

(** *** Running the monad *)

Lemma bind_run {A B : Type} (m : M A) (k : A -> M B) (w : world) :
  bind m k w =
  match m w with
  | (Ok a, w') => k a w'
  | (Raise e, w') => (Raise e, w')
  | (Abort r, w') => (Abort r, w')
  end.
Proof. reflexivity. Qed.

Lemma open_cache_run (filename : string) (w : world) :
  open_cache filename w = (stored filename w, w).
Proof.
  unfold open_cache, stored, try_except, bind, read_file, json_load.
  destruct (files w filename) as [text|]; [|reflexivity].
  destruct (json_loads text) as [v|[]]; reflexivity.
Qed.

Lemma text_or_run (t : option node) (sentinel : string) (w : world) :
  text_or t sentinel w = (Ok (field_text t sentinel), w).
Proof. destruct t; reflexivity. Qed.

Lemma cached_field_run (items : list (string * json)) (site_url key : string)
      (w : world) :
  cached_field (JDict items) site_url key w = (cached_string items site_url key, w).
Proof.
  unfold cached_field, cached_string, bind, getitem.
  destruct (dict_get items site_url) as [[| | | | |record|]|]; try reflexivity.
  cbn [ret]. destruct (dict_get record key) as [[| | | | | |]|]; reflexivity.
Qed.

(** Runs the monad operations that are applied to a world. *)
Ltac run :=
  cbv beta iota delta [bind print emit ret raise abort requests_get get_soup
                       tag_find tag_find_all tag_text text_or try_except exn_eqb
                       save_cache write_file setitem log store_file typed];
  cbn [web files stdin trace].

(** *** [get_site_instance] on a miss and on a hit *)

Section Site.
Variable html_parser : string -> node.

(** All of [get_site_instance], by what the cache file holds. *)
Lemma get_site_instance_run (site_url : string) (w : world) :
  get_site_instance html_parser site_url w =
  match stored CACHE_FILENAME w with
  | Ok (JDict items) =>
      if dict_has items site_url
      then (cached_site items site_url, log w (Printed "Using cache"))
      else site_miss html_parser site_url items w
  | Ok _ => (Raise AttributeError, w)
  | Raise e => (Raise e, w)
  | Abort r => (Abort r, w)
  end.
Proof.
  unfold get_site_instance. rewrite bind_run, open_cache_run.
  destruct (stored CACHE_FILENAME w) as [[| | | | |items|]|e|r]; try reflexivity.
  cbn [keys_contains]. rewrite bind_run. cbn [ret].
  destruct (dict_has items site_url).
  - unfold cached_site. run.
    repeat (rewrite cached_field_run;
            match goal with
            | |- context [and_then (cached_string ?i ?u ?k) _] =>
                destruct (cached_string i u k); cbn [and_then];
                [run | reflexivity | reflexivity]
            end).
    reflexivity.
  - unfold site_miss, page.
    change (with_class "div" "Hero-titleContainer") with header_q.
    change (with_class "div" "ParkFooter-contact") with footer_q.
    change (with_attr "span" "itemprop" "addressLocality") with local_q.
    change (with_attr "span" "itemprop" "addressRegion") with region_q.
    run.
    destruct (web w {| url := site_url; params := [] |}) as [body|];
      [|reflexivity].
    run.
    destruct (find (html_parser body) header_q) as [h|]; [|reflexivity].
    destruct (find (html_parser body) footer_q) as [f|].
    + unfold record_of, field_text, address_text, saved, fetched, page.
      change (with_class "a" "Hero-title") with name_q.
      change (with_class "span" "Hero-designation") with category_q.
      change (with_attr "span" "itemprop" "postalCode") with zipcode_q.
      change (with_attr "span" "itemprop" "telephone") with phone_q.
      destruct (find h name_q), (find h category_q), (find f local_q),
        (find f region_q), (find f zipcode_q), (find f phone_q); reflexivity.
    + change (with_class "a" "Hero-title") with name_q.
      change (with_class "span" "Hero-designation") with category_q.
      destruct (find h name_q), (find h category_q); reflexivity.
Qed.
End Site.

(** *** The cache file as [open_cache] sees it *)

Lemma stored_log (filename : string) (w : world) (e : event) :
  stored filename (log w e) = stored filename w.
Proof. reflexivity. Qed.

Lemma stored_wf (filename : string) (w : world) (v : json) :
  stored filename w = Ok v -> json_wf v = true.
Proof.
  unfold stored. destruct (files w filename) as [text|].
  - destruct (json_loads text) as [v'|[]] eqn:E; intros H; try discriminate.
    injection H as <-. exact (json_loads_wf text v' E).
  - intros H. injection H as <-. reflexivity.
Qed.

Lemma stored_store_file (filename : string) (w : world) (v : json) :
  json_wf v = true ->
  stored filename (store_file w filename (json_dumps v)) = Ok v.
Proof.
  intros H. unfold stored, store_file. cbn [files].
  rewrite String.eqb_refl, (json_loads_dumps v H). reflexivity.
Qed.

Lemma stored_saved (w : world) (v : json) :
  json_wf v = true -> stored CACHE_FILENAME (saved w v) = Ok v.
Proof. intros H. unfold saved. apply stored_store_file, H. Qed.

Lemma dict_get_set (items : list (string * json)) (k : string) (v : json) :
  dict_get (dict_set items k v) k = Some v.
Proof.
  induction items as [|[k' v'] items IH]; cbn [dict_set dict_get].
  - rewrite String.eqb_refl. reflexivity.
  - destruct (String.eqb k' k) eqn:E; cbn [dict_get]; rewrite E; [reflexivity | exact IH].
Qed.

Lemma dict_has_set (items : list (string * json)) (k : string) (v : json) :
  dict_has (dict_set items k v) k = true.
Proof. unfold dict_has. rewrite dict_get_set. reflexivity. Qed.

(** *** Equality of cached values *)



Lemma site_record_wf (site : NationalSite) : json_wf (site_record site) = true.
Proof. reflexivity. Qed.

Lemma cached_site_set (items : list (string * json)) (site_url : string)
      (site : NationalSite) :
  cached_site (dict_set items site_url (site_record site)) site_url = Ok site.
Proof.
  unfold cached_site, cached_string. rewrite dict_get_set.
  destruct site; reflexivity.
Qed.

Create HintDb ext.

(** *** What a run adds to the trace *)

Section Traces.
Variable P : list event -> Prop.
Variable allowed : NationalSite -> Prop.
Hypothesis P_nil : P [].
Hypothesis P_app : forall a b, P a -> P b -> P (a ++ b)%list.
Hypothesis P_printed : forall s, P [Printed s].
Hypothesis P_requested : forall r, P [Requested r].
Hypothesis P_stored :
  forall d, P [Mutated d; Written CACHE_FILENAME (json_dumps d)].
Hypothesis P_entered : forall s, allowed s -> P [Entered s].

Lemma extends_quiet {A : Type} (m : M A) :
  (forall w, trace (snd (m w)) = trace w) -> extends P m.
Proof.
  intros H w. exists []. rewrite H, List.app_nil_r. split; [reflexivity | exact P_nil].
Qed.

Lemma extends_pure {A : Type} (m : M A) :
  (forall w, snd (m w) = w) -> extends P m.
Proof. intros H. apply extends_quiet. intros w. rewrite H. reflexivity. Qed.

Lemma extends_ret {A : Type} (a : A) : extends P (ret a).
Proof. apply extends_pure. reflexivity. Qed.

Lemma extends_raise {A : Type} (e : exn) : extends P (@raise A e).
Proof. apply extends_pure. reflexivity. Qed.

Lemma extends_abort {A : Type} (r : reason) : extends P (@abort A r).
Proof. apply extends_pure. reflexivity. Qed.

Lemma extends_bind_yields {A B : Type} (Q : A -> Prop) (m : M A) (k : A -> M B) :
  extends P m -> yields Q m -> (forall a, Q a -> extends P (k a)) ->
  extends P (bind m k).
Proof.
  intros Hm Hq Hk w. unfold bind.
  destruct (Hm w) as (d1 & E1 & P1).
  destruct (m w) as [[a|e|r] w1] eqn:E; cbn [snd] in *.
  - destruct (Hk a (Hq w a w1 E) w1) as (d2 & E2 & P2).
    exists (d1 ++ d2)%list. rewrite E2, E1, List.app_assoc. auto.
  - exists d1. auto.
  - exists d1. auto.
Qed.

Lemma extends_bind {A B : Type} (m : M A) (k : A -> M B) :
  extends P m -> (forall a, extends P (k a)) -> extends P (bind m k).
Proof.
  intros Hm Hk. apply (extends_bind_yields (fun _ => True)); auto.
  intros w a w' _. exact I.
Qed.

Lemma extends_try {A : Type} (body handler : M A) (e : exn) :
  extends P body -> extends P handler -> extends P (try_except body e handler).
Proof.
  intros Hb Hh w. unfold try_except.
  destruct (Hb w) as (d1 & E1 & P1).
  destruct (body w) as [[a|e'|r] w1] eqn:E; cbn [snd] in *;
    try (exists d1; auto; fail).
  destruct (exn_eqb e' e); [|exists d1; auto].
  destruct (Hh w1) as (d2 & E2 & P2).
  exists (d1 ++ d2)%list. rewrite E2, E1, List.app_assoc. auto.
Qed.

Lemma extends_emit (e : event) : P [e] -> extends P (emit e).
Proof. intros H w. exists [e]. auto. Qed.

Lemma extends_print (s : string) : extends P (print s).
Proof. apply extends_emit, P_printed. Qed.

Lemma extends_input (prompt : string) : extends P (input prompt).
Proof.
  unfold input. apply extends_bind; [apply extends_emit, P_printed|].
  intros _. apply extends_quiet. intros w. destruct (stdin w); reflexivity.
Qed.

Lemma extends_requests_get (u : string) (ps : list (string * string)) :
  extends P (requests_get u ps).
Proof.
  unfold requests_get. apply extends_bind; [apply extends_emit, P_requested|].
  intros _. apply extends_pure. intros w. destruct (web w _); reflexivity.
Qed.

Lemma extends_open_cache (filename : string) : extends P (open_cache filename).
Proof. apply extends_pure. intros w. rewrite open_cache_run. reflexivity. Qed.

Lemma extends_json_load (text : string) : extends P (json_load text).
Proof.
  apply extends_pure. intros w. unfold json_load.
  destruct (json_loads text) as [v|[]]; reflexivity.
Qed.

(** The assignment to the in-memory store and the write that follows. *)
Lemma extends_store {A : Type} (d : json) (k : string) (v : json) (rest : M A) :
  extends P rest ->
  extends P (cache_dict <- setitem d k v ;;
             save_cache cache_dict CACHE_FILENAME ;; rest).
Proof.
  intros Hr w. destruct d as [| | | | |items|];
    try (exists []; rewrite List.app_nil_r; split; [reflexivity | exact P_nil]).
  set (d' := JDict (dict_set items k v)).
  destruct (Hr (saved w d')) as (d2 & E2 & P2).
  exists ([Mutated d'; Written CACHE_FILENAME (json_dumps d')] ++ d2)%list.
  split; [|apply P_app; [apply P_stored | exact P2]].
  change ((cache_dict <- setitem (JDict items) k v ;;
           save_cache cache_dict CACHE_FILENAME ;; rest) w)
    with (rest (saved w d')).
  rewrite E2. unfold saved. cbn [trace store_file log].
  rewrite <- !List.app_assoc. reflexivity.
Qed.

(** The operations that leave the world as it is. *)
Ltac pure_op :=
  lazymatch goal with
  | |- extends _ (keys_contains _ _) => idtac
  | |- extends _ (getitem _ _) => idtac
  | |- extends _ (iterate _) => idtac
  | |- extends _ (as_str _) => idtac
  | |- extends _ (format _) => idtac
  | |- extends _ (tag_find _ _) => idtac
  | |- extends _ (tag_find_all _ _) => idtac
  | |- extends _ (tag_text _) => idtac
  | |- extends _ (tag_getitem _ _) => idtac
  | |- extends _ (to_int _) => idtac
  | |- extends _ (to_title _) => idtac
  | |- extends _ (list_getitem _ _) => idtac
  end;
  apply extends_pure; intros ?;
  unfold keys_contains, getitem, iterate, as_str, format, tag_find,
    tag_find_all, tag_text, tag_getitem, to_int, to_title, list_getitem;
  repeat match goal with
         | |- context [match ?x with _ => _ end] => destruct x
         end;
  reflexivity.

Ltac ext_step :=
  first
    [ apply extends_ret | apply extends_raise | apply extends_abort
    | apply extends_print | apply extends_input | apply extends_requests_get
    | apply extends_open_cache | apply extends_json_load
    | apply extends_store
    | apply extends_try
    | pure_op
    | solve [auto with ext]
    | apply extends_bind; [|intros ?]
    | match goal with
      | |- extends _ (if ?b then _ else _) => destruct b
      | |- extends _ (match ?x with _ => _ end) => destruct x
      end ].

Ltac ext := repeat ext_step.

Section Resolvers.
Variable html_parser : string -> node.
Variable API_KEY : string.

Lemma extends_get_soup (u : string) : extends P (get_soup html_parser u).
Proof. unfold get_soup. ext. Qed.
Hint Resolve extends_get_soup : ext.

Lemma extends_text_or (t : option node) (sentinel : string) :
  extends P (text_or t sentinel).
Proof. apply extends_pure. intros w. rewrite text_or_run. reflexivity. Qed.
Hint Resolve extends_text_or : ext.

Lemma extends_print_places_loop (places : list json) :
  extends P (print_places_loop places).
Proof.
  induction places as [|place places IH]; cbn [print_places_loop]; [ext|].
  unfold print_place. ext.
Qed.
Hint Resolve extends_print_places_loop : ext.

Lemma extends_print_places (place_dict : json) :
  extends P (print_places place_dict).
Proof. unfold print_places. ext. Qed.
Hint Resolve extends_print_places : ext.

Lemma extends_state_loop (baseurl : string) (state_list : list node) :
  forall state_dict, extends P (state_loop baseurl state_list state_dict).
Proof.
  induction state_list as [|state rest IH]; intros state_dict;
    cbn [state_loop]; ext.
Qed.
Hint Resolve extends_state_loop : ext.

Lemma extends_build_state_url_dict :
  extends P (build_state_url_dict html_parser).
Proof. unfold build_state_url_dict. ext. Qed.
Hint Resolve extends_build_state_url_dict : ext.

Lemma extends_cached_field (cache_dict : json) (site_url key : string) :
  extends P (cached_field cache_dict site_url key).
Proof. unfold cached_field. ext. Qed.
Hint Resolve extends_cached_field : ext.

Lemma extends_get_site_instance (site_url : string) :
  extends P (get_site_instance html_parser site_url).
Proof. unfold get_site_instance. ext. Qed.
Hint Resolve extends_get_site_instance : ext.

Lemma extends_site_urls_loop (site_h3_list : list node) :
  forall site_urls, extends P (site_urls_loop site_h3_list site_urls).
Proof.
  induction site_h3_list as [|site rest IH]; intros site_urls;
    cbn [site_urls_loop]; ext.
Qed.
Hint Resolve extends_site_urls_loop : ext.

Lemma extends_sites_loop (site_urls : list json) :
  forall sites, extends P (sites_loop html_parser site_urls sites).
Proof.
  induction site_urls as [|u rest IH]; intros sites; cbn [sites_loop]; ext.
Qed.
Hint Resolve extends_sites_loop : ext.

Lemma extends_get_sites_for_state (state_url : string) :
  extends P (get_sites_for_state html_parser state_url).
Proof. unfold get_sites_for_state. ext. Qed.
Hint Resolve extends_get_sites_for_state : ext.

Lemma extends_get_nearby_places (site_object : NationalSite) :
  allowed site_object ->
  extends P (get_nearby_places API_KEY site_object).
Proof.
  intros H. unfold get_nearby_places.
  apply extends_bind; [apply extends_emit, P_entered, H|]. intros _. ext.
Qed.

Hypothesis allowed_zipcode :
  forall s, String.eqb (zipcode s) "No zipcode" = false -> allowed s.

Lemma yields_list_getitem {A : Type} (l : list A) (i : Z) :
  yields (fun a => item_at l i = Some a) (list_getitem l i).
Proof.
  intros w a w'. unfold list_getitem, item_at.
  destruct (_ <? 0)%Z; [discriminate|].
  destruct (nth_error l _); [|discriminate].
  intros H. injection H as <- _. reflexivity.
Qed.

Lemma extends_list_sites (sites : list NationalSite) :
  forall counter, extends P (list_sites sites counter).
Proof.
  induction sites as [|site rest IH]; intros counter; cbn [list_sites]; ext.
Qed.
Hint Resolve extends_list_sites : ext.

Lemma extends_print_header (header : string) : extends P (print_header header).
Proof. unfold print_header. ext. Qed.
Hint Resolve extends_print_header : ext.

(** The inner loop enters [get_nearby_places] only behind its check
    of the zip code. *)
Lemma extends_detail_loop (fuel : nat) (sites : list NationalSite) (counter : Z) :
  extends P (detail_loop API_KEY fuel sites counter).
Proof.
  induction fuel as [|fuel IH]; cbn [detail_loop]; [ext|].
  apply extends_bind; [apply extends_input|]. intros detail.
  destruct (String.eqb detail "exit" || String.eqb detail "back"); [ext|].
  apply extends_bind; [ext|]. intros n.
  destruct ((n >? counter - 1)%Z || (n <? 1)%Z); [ext|].
  apply (extends_bind_yields (fun a => item_at sites (n - 1)%Z = Some a));
    [ext | apply yields_list_getitem |]. intros site Hsite.
  destruct (String.eqb (zipcode site) "No zipcode") eqn:Hz; [ext|].
  apply (extends_bind_yields (fun a => item_at sites (n - 1)%Z = Some a));
    [ext | apply yields_list_getitem |]. intros site' Hsite'.
  assert (site' = site) by congruence. subst site'.
  apply extends_bind;
    [apply extends_get_nearby_places, allowed_zipcode, Hz|]. intros place_dict.
  ext.
Qed.
Hint Resolve extends_detail_loop : ext.

Lemma extends_state_loop_main (fuel : nat) (state_dict : json) :
  extends P (state_loop_main html_parser API_KEY fuel state_dict).
Proof.
  induction fuel as [|fuel IH]; cbn [state_loop_main]; [ext|].
  apply extends_bind; [apply extends_input|]. intros state.
  destruct (String.eqb (lower state) "exit"); [ext|].
  apply extends_bind; [ext|]. intros [|]; ext.
Qed.
Hint Resolve extends_state_loop_main : ext.

Lemma extends_main (fuel : nat) : extends P (main html_parser API_KEY fuel).
Proof. unfold main. ext. Qed.
End Resolvers.
End Traces.

Lemma persisted_app (a b : list event) :
  persisted a = true -> persisted b = true -> persisted (a ++ b) = true.
Proof.
  induction a as [a IH] using (well_founded_induction
                                 (well_founded_ltof _ (@List.length event))).
  unfold ltof in IH. intros Ha Hb.
  destruct a as [|e a]; [exact Hb|].
  destruct e; cbn [persisted List.app] in *;
    try (apply IH; [simpl; lia | exact Ha | exact Hb]); try discriminate.
  destruct a as [|[] a]; try discriminate.
  cbn [List.app]. apply andb_true_iff in Ha. destruct Ha as [Ha1 Ha2].
  rewrite Ha1. cbn [andb]. apply IH; [simpl; lia | exact Ha2 | exact Hb].
Qed.

Lemma has_zipcode_app (a b : list event) :
  forallb has_zipcode a = true -> forallb has_zipcode b = true ->
  forallb has_zipcode (a ++ b) = true.
Proof. intros Ha Hb. rewrite forallb_app, Ha, Hb. reflexivity. Qed.

(** C5: whatever is typed and however long the command loop runs,
    [get_nearby_places] is entered only for sites whose zip code is not
    "No zipcode": every [Entered] event the program adds to the trace
    carries such a site. *)
Theorem main_enters_with_zipcode (html_parser : string -> node)
        (API_KEY : string) (fuel : nat) (w : world) :
  exists delta,
    trace (snd (main html_parser API_KEY fuel w)) = (trace w ++ delta)%list
    /\ forallb has_zipcode delta = true.
Proof.
  apply (extends_main (fun d => forallb has_zipcode d = true)
           (fun s => String.eqb (zipcode s) "No zipcode" = false));
    try reflexivity; auto using has_zipcode_app.
  intros s H. cbn [forallb has_zipcode]. rewrite H. reflexivity.
Qed.

(** C9: in each of the four resolvers, every assignment to the in-memory
    store is followed at once by one write of that whole store to the
    cache file, and the file is written at no other moment: the events a
    call adds to the trace are accepted by [persisted]. *)
Theorem resolvers_persist (html_parser : string -> node) (API_KEY : string)
        (w : world) :
  (exists delta,
      trace (snd (build_state_url_dict html_parser w)) = (trace w ++ delta)%list
      /\ persisted delta = true)
  /\ (forall state_url, exists delta,
        trace (snd (get_sites_for_state html_parser state_url w))
        = (trace w ++ delta)%list
        /\ persisted delta = true)
  /\ (forall site_url, exists delta,
        trace (snd (get_site_instance html_parser site_url w))
        = (trace w ++ delta)%list
        /\ persisted delta = true)
  /\ (forall site_object, exists delta,
        trace (snd (get_nearby_places API_KEY site_object w))
        = (trace w ++ delta)%list
        /\ persisted delta = true).
Proof.
  assert (Hs : forall d, persisted [Mutated d; Written CACHE_FILENAME (json_dumps d)]
                         = true).
  { intros d. cbn [persisted]. rewrite !String.eqb_refl. reflexivity. }
  repeat split; intros.
  - apply (extends_build_state_url_dict (fun d => persisted d = true));
      auto using persisted_app.
  - apply (extends_get_sites_for_state (fun d => persisted d = true));
      auto using persisted_app.
  - apply (extends_get_site_instance (fun d => persisted d = true));
      auto using persisted_app.
  - apply (extends_get_nearby_places (fun d => persisted d = true) (fun _ => True));
      auto using persisted_app.
Qed.

Section SiteDetail.
Variable html_parser : string -> node.

(** C1 (as the code has it): on a cache miss, a page without the header
    container ends [get_site_instance] with [AttributeError], after the
    fetch and before anything is stored; the sentinels "No name" and
    "No category" are what a page gives whose header container is there
    and lacks the title and the designation. *)
Theorem get_site_instance_header (site_url body : string)
        (items : list (string * json)) (w : world) :
  misses w items site_url -> serves w site_url body ->
  (find (html_parser body) header_q = None ->
   get_site_instance html_parser site_url w
   = (Raise AttributeError, fetched w site_url))
  /\ (forall h f,
        find (html_parser body) header_q = Some h ->
        find (html_parser body) footer_q = Some f ->
        find h name_q = None -> find h category_q = None ->
        exists site w',
          get_site_instance html_parser site_url w = (Ok site, w')
          /\ name site = "No name" /\ category site = "No category").
Proof.
  intros [Hs Hm] Hb. rewrite get_site_instance_run, Hs, Hm.
  unfold site_miss. unfold serves in Hb. rewrite Hb. split.
  - intros ->. reflexivity.
  - intros h f -> -> Hn Hc. do 2 eexists. split; [reflexivity|].
    unfold record_of. cbn [name category]. rewrite Hn, Hc. split; reflexivity.
Qed.

(** C2 (as the code has it): on a cache miss that returns a record, both
    containers are there and every field is read from its own element:
    the sentinel "No <field>" when the element is absent, the stripped
    text of the element when it is there, empty when that text is blank;
    the address is never empty. *)
Theorem get_site_instance_fields (site_url body : string)
        (items : list (string * json)) (w w' : world) (site : NationalSite) :
  misses w items site_url -> serves w site_url body ->
  get_site_instance html_parser site_url w = (Ok site, w') ->
  exists h f,
    find (html_parser body) header_q = Some h
    /\ find (html_parser body) footer_q = Some f
    /\ category site = field_text (find h category_q) "No category"
    /\ name site = field_text (find h name_q) "No name"
    /\ address site = address_text (find f local_q) (find f region_q)
    /\ zipcode site = field_text (find f zipcode_q) "No zipcode"
    /\ phone site = field_text (find f phone_q) "No phone"
    /\ address site <> "".
Proof.
  intros [Hs Hm] Hb. rewrite get_site_instance_run, Hs, Hm.
  unfold site_miss. unfold serves in Hb. rewrite Hb.
  destruct (find (html_parser body) header_q) as [h|]; [|discriminate].
  destruct (find (html_parser body) footer_q) as [f|]; [|discriminate].
  intros H. injection H as <- <-. exists h, f.
  repeat (split; [reflexivity|]).
  cbn [address record_of]. unfold address_text.
  destruct (find f local_q) as [l|]; [|discriminate].
  destruct (find f region_q) as [r|]; [|discriminate].
  destruct (strip (get_text l)); discriminate.
Qed.

(** C3: a second call of [get_site_instance] with the same URL returns
    the record of the first call, and all it does is print
    "Using cache": no request, no write. *)
Theorem get_site_instance_again (site_url : string) (w w1 : world)
        (site : NationalSite) :
  get_site_instance html_parser site_url w = (Ok site, w1) ->
  get_site_instance html_parser site_url w1
  = (Ok site, log w1 (Printed "Using cache")).
Proof.
  rewrite get_site_instance_run.
  destruct (stored CACHE_FILENAME w) as [[| | | | |items|]|e|r] eqn:Hs;
    try discriminate.
  destruct (dict_has items site_url) eqn:Hm.
  - intros H. injection H as Hc <-.
    rewrite get_site_instance_run, stored_log, Hs, Hm, Hc. reflexivity.
  - unfold site_miss.
    destruct (web w (page site_url)) as [body|]; [|discriminate].
    destruct (find (html_parser body) header_q) as [h|]; [|discriminate].
    destruct (find (html_parser body) footer_q) as [f|]; [|discriminate].
    intros H. injection H as <- <-.
    rewrite get_site_instance_run, stored_saved.
    + rewrite dict_has_set, cached_site_set. reflexivity.
    + apply dict_set_wf; [exact (stored_wf _ _ _ Hs) | apply site_record_wf].
Qed.

(** C7: on a cache miss, a page whose footer container is there and has
    no telephone gives the record with phone "No phone" and every other
    field read from its own element. *)
Theorem get_site_instance_no_phone (site_url body : string)
        (items : list (string * json)) (w : world) (h f : node) :
  misses w items site_url -> serves w site_url body ->
  find (html_parser body) header_q = Some h ->
  find (html_parser body) footer_q = Some f ->
  find f phone_q = None ->
  exists w',
    get_site_instance html_parser site_url w
    = (Ok {| category := field_text (find h category_q) "No category";
             name := field_text (find h name_q) "No name";
             address := address_text (find f local_q) (find f region_q);
             zipcode := field_text (find f zipcode_q) "No zipcode";
             phone := "No phone" |}, w').
Proof.
  intros [Hs Hm] Hb Hh Hf Hp. rewrite get_site_instance_run, Hs, Hm.
  unfold site_miss. unfold serves in Hb. rewrite Hb, Hh, Hf.
  unfold record_of. rewrite Hp. eexists. reflexivity.
Qed.

(** C10: on a cache miss, a page without the footer container ends
    [get_site_instance] with [AttributeError]; nothing is stored. *)
Theorem get_site_instance_footer (site_url body : string)
        (items : list (string * json)) (w : world) :
  misses w items site_url -> serves w site_url body ->
  find (html_parser body) footer_q = None ->
  get_site_instance html_parser site_url w
  = (Raise AttributeError, fetched w site_url).
Proof.
  intros [Hs Hm] Hb Hf. rewrite get_site_instance_run, Hs, Hm.
  unfold site_miss. unfold serves in Hb. rewrite Hb, Hf.
  destruct (find (html_parser body) header_q); reflexivity.
Qed.
End SiteDetail.


(** C6: [open_cache] returns an empty dict when the file does not exist,
    and raises the decoder's error when the file exists and its text is
    not JSON. *)
Theorem open_cache_missing_or_corrupt (filename : string) (w : world) :
  (files w filename = None -> open_cache filename w = (Ok (JDict []), w))
  /\ (forall text,
        files w filename = Some text -> json_loads text = NoValue Malformed ->
        open_cache filename w = (Raise JSONDecodeError, w)).
Proof.
  split.
  - intros H. rewrite open_cache_run. unfold stored. rewrite H. reflexivity.
  - intros text H E. rewrite open_cache_run. unfold stored. rewrite H, E. reflexivity.
Qed.

(** *** [get_sites_for_state] *)

(** The nodes below a tag come in document order: a child, what is below
    it, then the rest. *)
Lemma descendants_cons (name : string) (attrs : list (string * string))
      (c : node) (cs : list node) :
  descendants (Tag name attrs (c :: cs))
  = (c :: descendants c ++ descendants (Tag name attrs cs))%list.
Proof. reflexivity. Qed.

Lemma site_urls_loop_run (hs : list node) :
  forall paths acc w,
    Forall2 (fun h p => heading_path h = Some p) hs paths ->
    site_urls_loop hs acc w = (Ok (acc ++ map site_url_of paths)%list, w).
Proof.
  induction hs as [|h hs IH]; intros paths acc w H; inversion H; subst.
  - cbn [site_urls_loop map]. rewrite List.app_nil_r. reflexivity.
  - cbn [site_urls_loop map]. unfold bind, tag_getitem.
    match goal with E : heading_path h = Some _ |- _ => unfold heading_path in E end.
    destruct (find h (any "a")) as [[n attrs cs|]|]; try discriminate.
    match goal with E : attr_get _ _ = Some _ |- _ => rewrite E end.
    cbn [ret]. rewrite (IH l'); [|assumption].
    rewrite <- List.app_assoc. reflexivity.
Qed.

Section SiteList.
Variable html_parser : string -> node.

(** C8: on a cache miss, the URLs [get_sites_for_state] stores and then
    visits are those of the headings of the list container in document
    order, each the base URL, the path of the heading's anchor and
    "index.htm". *)
Theorem get_sites_for_state_order (state_url body : string)
        (items : list (string * json)) (w : world) (ul : node)
        (paths : list string) :
  misses w items state_url -> serves w state_url body ->
  find (html_parser body) list_parks_q = Some ul ->
  Forall2 (fun h3 path => heading_path h3 = Some path)
          (find_all ul (any "h3")) paths ->
  let site_urls :=
    map (fun path => JStr ("https://www.nps.gov" ++ path ++ "index.htm")) paths in
  get_sites_for_state html_parser state_url w
  = sites_loop html_parser site_urls []
      (saved (fetched w state_url)
             (JDict (dict_set items state_url (JList site_urls)))).
Proof.
  intros [Hs Hm] Hb Hul Hp site_urls. unfold serves, page in Hb.
  unfold get_sites_for_state. rewrite bind_run, open_cache_run, Hs.
  cbn [keys_contains]. rewrite bind_run. cbn [ret]. rewrite Hm.
  change (with_attr "ul" "id" "list_parks") with list_parks_q.
  run. rewrite Hb. run. rewrite Hul.
  rewrite (site_urls_loop_run _ paths [] _ Hp). cbn [List.app].
  run. unfold iterate.
  replace (map JStr (map site_url_of paths)) with site_urls
    by (unfold site_urls; rewrite map_map; reflexivity).
  reflexivity.
Qed.
End SiteList.

Create HintDb safe.

(** *** The command loop has fuel enough when it has more fuel than there
    are lines to type *)

Section Fuel.
Variable n : nat.

Lemma safe_pure {A : Type} (m : M A) :
  (forall w, snd (m w) = w /\ fst (m w) <> Abort NoFuel) -> safe n m.
Proof. intros H w _. destruct (H w) as [E F]. rewrite E. auto. Qed.

Lemma safe_ret {A : Type} (a : A) : safe n (ret a).
Proof. apply safe_pure. intros w. split; [reflexivity | discriminate]. Qed.

Lemma safe_raise {A : Type} (e : exn) : safe n (@raise A e).
Proof. apply safe_pure. intros w. split; [reflexivity | discriminate]. Qed.

Lemma safe_abort {A : Type} : safe n (@abort A OutOfModel).
Proof. apply safe_pure. intros w. split; [reflexivity | discriminate]. Qed.

Lemma safe_bind {A B : Type} (m : M A) (k : A -> M B) :
  safe n m -> (forall a, safe n (k a)) -> safe n (bind m k).
Proof.
  intros Hm Hk w Hw. unfold bind. destruct (Hm w Hw) as [F L].
  destruct (m w) as [[a|e|r] w1]; cbn [fst snd] in *.
  - destruct (Hk a w1 ltac:(lia)) as [F' L']. split; [exact F' | lia].
  - split; [discriminate | exact L].
  - split; [|exact L]. intros E. apply F. injection E as ->. reflexivity.
Qed.

Lemma safe_try {A : Type} (body handler : M A) (e : exn) :
  safe n body -> safe n handler -> safe n (try_except body e handler).
Proof.
  intros Hb Hh w Hw. unfold try_except. destruct (Hb w Hw) as [F L].
  destruct (body w) as [[a|e'|r] w1]; cbn [fst snd] in *; auto.
  destruct (exn_eqb e' e); [|auto].
  destruct (Hh w1 ltac:(lia)) as [F' L']. split; [exact F' | lia].
Qed.

Lemma safe_emit (e : event) : safe n (emit e).
Proof. intros w _. split; [discriminate | reflexivity]. Qed.

Lemma safe_print (s : string) : safe n (print s).
Proof. apply safe_emit. Qed.

Lemma safe_requests_get (u : string) (ps : list (string * string)) :
  safe n (requests_get u ps).
Proof.
  unfold requests_get. apply safe_bind; [apply safe_emit|]. intros _.
  apply safe_pure. intros w. destruct (web w _); split; (reflexivity || discriminate).
Qed.

Lemma safe_open_cache (filename : string) : safe n (open_cache filename).
Proof.
  apply safe_pure. intros w. rewrite open_cache_run. split; [reflexivity|].
  unfold stored. cbn [fst]. destruct (files w filename) as [text|]; [|discriminate].
  pose proof (json_loads_total text) as T.
  destruct (json_loads text) as [v|[]]; try discriminate. congruence.
Qed.

Lemma safe_json_load (text : string) : safe n (json_load text).
Proof.
  apply safe_pure. intros w. unfold json_load.
  pose proof (json_loads_total text) as T.
  destruct (json_loads text) as [v|[]]; split; try reflexivity; try discriminate.
  congruence.
Qed.

Lemma safe_save_cache (d : json) (filename : string) : safe n (save_cache d filename).
Proof.
  unfold save_cache, write_file. apply safe_bind; [apply safe_emit|]. intros _.
  intros w _. split; [discriminate | reflexivity].
Qed.

Lemma safe_setitem (d : json) (k : string) (v : json) : safe n (setitem d k v).
Proof.
  destruct d; try apply safe_raise. cbn [setitem].
  apply safe_bind; [apply safe_emit | intros _; apply safe_ret].
Qed.

(** After a line was read there is one line less to type. *)
Lemma safe_input {B : Type} (prompt : string) (k : string -> M B) :
  (forall line n', n = S n' -> safe n' (k line)) ->
  safe n (bind (input prompt) k).
Proof.
  intros Hk w Hw.
  assert (E : bind (input prompt) k w =
              match stdin w with
              | [] => (Raise EOFError, log w (Printed prompt))
              | line :: rest => k line (typed (log w (Printed prompt)) rest)
              end).
  { unfold input, emit, bind. cbn [stdin log]. destruct (stdin w); reflexivity. }
  rewrite E. destruct (stdin w) as [|line rest] eqn:Es.
  - cbn [fst snd stdin log]. rewrite Es. split; [discriminate | reflexivity].
  - destruct n as [|n']; [simpl in Hw; lia|].
    destruct (Hk line n' eq_refl (typed (log w (Printed prompt)) rest))
      as [F L]; [simpl in *; lia|].
    split; [exact F|]. cbn [stdin typed] in L. simpl. lia.
Qed.
End Fuel.

Ltac safe_op :=
  lazymatch goal with
  | |- safe _ (keys_contains _ _) => idtac
  | |- safe _ (getitem _ _) => idtac
  | |- safe _ (iterate _) => idtac
  | |- safe _ (as_str _) => idtac
  | |- safe _ (format _) => idtac
  | |- safe _ (tag_find _ _) => idtac
  | |- safe _ (tag_find_all _ _) => idtac
  | |- safe _ (tag_text _) => idtac
  | |- safe _ (tag_getitem _ _) => idtac
  | |- safe _ (to_int _) => idtac
  | |- safe _ (to_title _) => idtac
  | |- safe _ (list_getitem _ _) => idtac
  end;
  apply safe_pure; intros ?;
  unfold keys_contains, getitem, iterate, as_str, format, tag_find,
    tag_find_all, tag_text, tag_getitem, to_int, to_title, list_getitem;
  repeat match goal with
         | |- context [match ?x with _ => _ end] => destruct x
         end;
  split; (reflexivity || discriminate).

Ltac safe_step :=
  first
    [ apply safe_ret | apply safe_raise | apply safe_abort
    | apply safe_print | apply safe_requests_get | apply safe_emit
    | apply safe_open_cache | apply safe_json_load
    | apply safe_save_cache | apply safe_setitem
    | apply safe_try
    | safe_op
    | solve [auto with safe]
    | apply safe_bind; [|intros ?]
    | match goal with
      | |- safe _ (if ?b then _ else _) => destruct b
      | |- safe _ (match ?x with _ => _ end) => destruct x
      end ].

Ltac safely := repeat safe_step.

Section FuelOfProgram.
Variable html_parser : string -> node.
Variable API_KEY : string.

Lemma safe_get_soup (n : nat) (u : string) : safe n (get_soup html_parser u).
Proof. unfold get_soup. safely. Qed.
Hint Resolve safe_get_soup : safe.

Lemma safe_text_or (n : nat) (t : option node) (sentinel : string) :
  safe n (text_or t sentinel).
Proof.
  apply safe_pure. intros w. rewrite text_or_run. split; [reflexivity | discriminate].
Qed.
Hint Resolve safe_text_or : safe.

Lemma safe_print_places_loop (n : nat) (places : list json) :
  safe n (print_places_loop places).
Proof.
  induction places as [|place places IH]; cbn [print_places_loop]; [safely|].
  unfold print_place. safely.
Qed.
Hint Resolve safe_print_places_loop : safe.

Lemma safe_print_places (n : nat) (place_dict : json) :
  safe n (print_places place_dict).
Proof. unfold print_places. safely. Qed.
Hint Resolve safe_print_places : safe.

Lemma safe_state_loop (n : nat) (baseurl : string) (state_list : list node) :
  forall state_dict, safe n (state_loop baseurl state_list state_dict).
Proof.
  induction state_list as [|state rest IH]; intros state_dict;
    cbn [state_loop]; safely.
Qed.
Hint Resolve safe_state_loop : safe.

Lemma safe_build_state_url_dict (n : nat) :
  safe n (build_state_url_dict html_parser).
Proof. unfold build_state_url_dict. safely. Qed.
Hint Resolve safe_build_state_url_dict : safe.

Lemma safe_cached_field (n : nat) (cache_dict : json) (site_url key : string) :
  safe n (cached_field cache_dict site_url key).
Proof. unfold cached_field. safely. Qed.
Hint Resolve safe_cached_field : safe.

Lemma safe_get_site_instance (n : nat) (site_url : string) :
  safe n (get_site_instance html_parser site_url).
Proof. unfold get_site_instance. safely. Qed.
Hint Resolve safe_get_site_instance : safe.

Lemma safe_site_urls_loop (n : nat) (site_h3_list : list node) :
  forall site_urls, safe n (site_urls_loop site_h3_list site_urls).
Proof.
  induction site_h3_list as [|site rest IH]; intros site_urls;
    cbn [site_urls_loop]; safely.
Qed.
Hint Resolve safe_site_urls_loop : safe.

Lemma safe_sites_loop (n : nat) (site_urls : list json) :
  forall sites, safe n (sites_loop html_parser site_urls sites).
Proof.
  induction site_urls as [|u rest IH]; intros sites; cbn [sites_loop]; safely.
Qed.
Hint Resolve safe_sites_loop : safe.

Lemma safe_get_sites_for_state (n : nat) (state_url : string) :
  safe n (get_sites_for_state html_parser state_url).
Proof. unfold get_sites_for_state. safely. Qed.
Hint Resolve safe_get_sites_for_state : safe.

Lemma safe_get_nearby_places (n : nat) (site_object : NationalSite) :
  safe n (get_nearby_places API_KEY site_object).
Proof. unfold get_nearby_places. safely. Qed.
Hint Resolve safe_get_nearby_places : safe.

Lemma safe_list_sites (n : nat) (sites : list NationalSite) :
  forall counter, safe n (list_sites sites counter).
Proof.
  induction sites as [|site rest IH]; intros counter; cbn [list_sites]; safely.
Qed.
Hint Resolve safe_list_sites : safe.

Lemma safe_print_header (n : nat) (header : string) : safe n (print_header header).
Proof. unfold print_header. safely. Qed.
Hint Resolve safe_print_header : safe.

Lemma safe_detail_loop (fuel : nat) :
  forall n sites counter,
    n < fuel -> safe n (detail_loop API_KEY fuel sites counter).
Proof.
  induction fuel as [|fuel IH]; intros n sites counter Hn; [lia|].
  cbn [detail_loop]. apply safe_input. intros detail n' ->.
  assert (IH' : safe n' (detail_loop API_KEY fuel sites counter))
    by (apply IH; lia).
  safely.
Qed.

Lemma safe_state_loop_main (fuel : nat) :
  forall n state_dict,
    n < fuel -> safe n (state_loop_main html_parser API_KEY fuel state_dict).
Proof.
  induction fuel as [|fuel IH]; intros n state_dict Hn; [lia|].
  cbn [state_loop_main]. apply safe_input. intros state n' ->.
  assert (IH' : safe n' (state_loop_main html_parser API_KEY fuel state_dict))
    by (apply IH; lia).
  assert (ID : forall sites counter,
             safe n' (detail_loop API_KEY fuel sites counter))
    by (intros; apply safe_detail_loop; lia).
  safely.
Qed.

(** X20: every turn of the two loops of the program reads a line, so
    with more fuel than lines to type the command loop runs to its end:
    it returns, or an exception ends it, or it leaves the model; it does
    not stop for lack of fuel. *)
Lemma main_fuel (fuel : nat) (w : world) :
  List.length (stdin w) < fuel ->
  fst (main html_parser API_KEY fuel w) <> Abort NoFuel.
Proof.
  intros H.
  assert (S : safe (List.length (stdin w)) (main html_parser API_KEY fuel)).
  { unfold main. apply safe_bind; [apply safe_build_state_url_dict|].
    intros state_dict. apply safe_state_loop_main, H. }
  apply (S w). lia.
Qed.
End FuelOfProgram.

(** *** The theorems at the sample pages *)

Lemma nps_world_misses (u : string) : misses nps_world [] u.
Proof. split; reflexivity. Qed.

Lemma get_site_instance_header_witness :
  (misses headless_world [] isro_url
   /\ serves headless_world isro_url headless_html
   /\ find (sample_parser headless_html) header_q = None
   /\ get_site_instance sample_parser isro_url headless_world
      = (Raise AttributeError, fetched headless_world isro_url))
  /\ (misses bare_world [] isro_url
      /\ serves bare_world isro_url bare_html
      /\ exists site w',
           get_site_instance sample_parser isro_url bare_world = (Ok site, w')
           /\ name site = "No name" /\ category site = "No category").
Proof.
  assert (Hm : misses headless_world [] isro_url) by (split; reflexivity).
  assert (Hs : serves headless_world isro_url headless_html) by reflexivity.
  assert (Hf : find (sample_parser headless_html) header_q = None) by reflexivity.
  assert (Hm' : misses bare_world [] isro_url) by (split; reflexivity).
  assert (Hs' : serves bare_world isro_url bare_html) by reflexivity.
  split.
  - split; [exact Hm | split; [exact Hs | split; [exact Hf|]]].
    exact (proj1 (get_site_instance_header sample_parser isro_url headless_html []
                    headless_world Hm Hs) Hf).
  - split; [exact Hm' | split; [exact Hs'|]].
    exact (proj2 (get_site_instance_header sample_parser isro_url bare_html []
                    bare_world Hm' Hs')
             (Tag "div" [("class", "Hero-titleContainer")] [])
             (Tag "div" [("class", "ParkFooter-contact")] [])
             eq_refl eq_refl eq_refl eq_refl).
Defined.

(** C1 as the spec states it fails: the page [headless_html] has no header
    container, and [get_site_instance] returns no record for it. *)
Lemma header_absent_counterexample :
  find (sample_parser headless_html) header_q = None
  /\ ~ (exists site w',
          get_site_instance sample_parser isro_url headless_world = (Ok site, w')
          /\ name site = "No name" /\ category site = "No category").
Proof.
  split; [reflexivity|]. intros (site & w' & H & _).
  assert (E : fst (get_site_instance sample_parser isro_url headless_world)
              = Raise AttributeError) by reflexivity.
  rewrite H in E. discriminate E.
Qed.

(** C2 as the spec states it fails: the designation of the page
    [blank_html] is there and blank, and the record has an empty
    category. *)
Lemma blank_category_counterexample :
  exists w',
    get_site_instance sample_parser kewe_url nps_world = (Ok keweenaw, w')
    /\ category keweenaw = "".
Proof.
  exists (snd (get_site_instance sample_parser kewe_url nps_world)).
  split; reflexivity.
Qed.

Lemma get_site_instance_fields_witness :
  exists h f,
    find (sample_parser blank_html) header_q = Some h
    /\ find (sample_parser blank_html) footer_q = Some f
    /\ category keweenaw = field_text (find h category_q) "No category"
    /\ name keweenaw = field_text (find h name_q) "No name"
    /\ address keweenaw = address_text (find f local_q) (find f region_q)
    /\ zipcode keweenaw = field_text (find f zipcode_q) "No zipcode"
    /\ phone keweenaw = field_text (find f phone_q) "No phone"
    /\ address keweenaw <> "".
Proof.
  apply (get_site_instance_fields sample_parser kewe_url blank_html [] nps_world
           (snd (get_site_instance sample_parser kewe_url nps_world)) keweenaw).
  - apply nps_world_misses.
  - reflexivity.
  - reflexivity.
Defined.

Lemma get_site_instance_again_witness :
  let w1 := snd (get_site_instance sample_parser isro_url nps_world) in
  get_site_instance sample_parser isro_url nps_world = (Ok isle_royale, w1)
  /\ get_site_instance sample_parser isro_url w1
     = (Ok isle_royale, log w1 (Printed "Using cache")).
Proof.
  intros w1.
  assert (H : get_site_instance sample_parser isro_url nps_world
              = (Ok isle_royale, w1)) by reflexivity.
  split; [exact H|].
  exact (get_site_instance_again sample_parser isro_url nps_world w1 isle_royale H).
Defined.



Lemma open_cache_missing_or_corrupt_witness :
  open_cache CACHE_FILENAME nps_world = (Ok (JDict []), nps_world)
  /\ json_loads "{" = NoValue Malformed
  /\ open_cache CACHE_FILENAME corrupt_world = (Raise JSONDecodeError, corrupt_world).
Proof.
  split; [|split].
  - exact (proj1 (open_cache_missing_or_corrupt CACHE_FILENAME nps_world) eq_refl).
  - reflexivity.
  - exact (proj2 (open_cache_missing_or_corrupt CACHE_FILENAME corrupt_world)
             "{" eq_refl eq_refl).
Defined.

Lemma get_site_instance_no_phone_witness :
  exists h f w',
    misses padded_world [] piro_url
    /\ serves padded_world piro_url padded_html
    /\ find (padded_parser padded_html) header_q = Some h
    /\ find (padded_parser padded_html) footer_q = Some f
    /\ find f phone_q = None
    /\ get_site_instance padded_parser piro_url padded_world
       = (Ok {| category := "National Lakeshore"; name := "Pictured Rocks";
                address := "Munising, MI"; zipcode := "49862";
                phone := "No phone" |}, w').
Proof.
  assert (Hm : misses padded_world [] piro_url) by (split; reflexivity).
  assert (Hs : serves padded_world piro_url padded_html) by reflexivity.
  destruct (find (padded_parser padded_html) header_q) as [h|] eqn:Hh;
    [|discriminate Hh].
  destruct (find (padded_parser padded_html) footer_q) as [f|] eqn:Hf;
    [|discriminate Hf].
  vm_compute in Hh. injection Hh as <-.
  vm_compute in Hf. injection Hf as <-.
  destruct (get_site_instance_no_phone padded_parser piro_url padded_html []
              padded_world _ _ Hm Hs eq_refl eq_refl eq_refl)
    as (w' & H).
  do 2 eexists. exists w'.
  split; [exact Hm | split; [exact Hs|]].
  split; [reflexivity | split; [reflexivity | split; [reflexivity|]]].
  exact H.
Defined.

Lemma get_sites_for_state_order_witness :
  exists ul,
    find (sample_parser michigan_html) list_parks_q = Some ul
    /\ Forall2 (fun h3 path => heading_path h3 = Some path)
               (find_all ul (any "h3")) ["/isro/"; "/kewe/"; "/noco/"]
    /\ get_sites_for_state sample_parser mi_url nps_world
       = sites_loop sample_parser [JStr isro_url; JStr kewe_url; JStr noco_url] []
           (saved (fetched nps_world mi_url)
                  (JDict (dict_set [] mi_url
                            (JList [JStr isro_url; JStr kewe_url; JStr noco_url])))).
Proof.
  eexists. split; [reflexivity|].
  assert (Hp : Forall2 (fun h3 path => heading_path h3 = Some path)
                 (find_all
                    (Tag "ul" [("id", "list_parks")]
                       [Tag "li" [] [Tag "h3" [] [text_in "a" [("href", "/isro/")] "Isle Royale"]];
                        Tag "li" [] [Tag "h3" [] [text_in "a" [("href", "/kewe/")] "Keweenaw"]];
                        Tag "li" [] [Tag "h3" [] [text_in "a" [("href", "/noco/")] "North Country"]]])
                    (any "h3")) ["/isro/"; "/kewe/"; "/noco/"]).
  { repeat constructor. }
  split; [exact Hp|].
  exact (get_sites_for_state_order sample_parser mi_url michigan_html []
           nps_world _ ["/isro/"; "/kewe/"; "/noco/"]
           (nps_world_misses mi_url) eq_refl eq_refl Hp).
Defined.

Lemma get_site_instance_footer_witness :
  misses footless_world [] isro_url
  /\ serves footless_world isro_url footless_html
  /\ find (sample_parser footless_html) footer_q = None
  /\ get_site_instance sample_parser isro_url footless_world
     = (Raise AttributeError, fetched footless_world isro_url).
Proof.
  assert (Hm : misses footless_world [] isro_url) by (split; reflexivity).
  split; [exact Hm | split; [reflexivity | split; [reflexivity|]]].
  exact (get_site_instance_footer sample_parser isro_url footless_html []
           footless_world Hm eq_refl eq_refl).
Defined.

(** The command loop at a session that asks for a site without zip code
    and for one with: the first is refused with a message, the second is
    looked up. *)
Example main_session :
  let typed_lines := ["Michigan"; "3"; "1"; "exit"] in
  let tr := trace (snd (main sample_parser sample_key 5
                          (fresh_world nps_rows typed_lines))) in
  existsb (fun e => match e with
                    | Printed s =>
                        String.eqb s "[Error] This site does not have location info"
                    | _ => false
                    end) tr = true
  /\ filter (fun e => match e with Entered _ => true | _ => false end) tr
     = [Entered isle_royale].
Proof. split; vm_compute; reflexivity. Qed.

(** *** The other resolvers, by what the cache file holds *)

Lemma dict_has_get (items : list (string * json)) (k : string) :
  dict_has items k = match dict_get items k with Some _ => true | None => false end.
Proof. reflexivity. Qed.

Lemma state_loop_run (baseurl : string) (state_list : list node) :
  forall state_dict w,
    state_loop baseurl state_list state_dict w
    = (state_entries baseurl state_list state_dict, w).
Proof.
  induction state_list as [|[n attrs cs|s] rest IH]; intros state_dict w;
    cbn [state_loop state_entries]; try reflexivity.
  unfold bind, tag_getitem. destruct (attr_get attrs "href"); [|reflexivity].
  cbn [ret]. apply IH.
Qed.

Lemma heading_urls_run (site_h3_list : list node) :
  forall site_urls w,
    site_urls_loop site_h3_list site_urls w
    = (heading_urls site_h3_list site_urls, w).
Proof.
  induction site_h3_list as [|site rest IH]; intros site_urls w;
    cbn [site_urls_loop heading_urls]; [reflexivity|].
  unfold bind, tag_getitem.
  destruct (find site (any "a")) as [[n attrs cs|s]|]; try reflexivity.
  destruct (attr_get attrs "href"); [|reflexivity].
  cbn [ret]. apply IH.
Qed.

Section Resolved.
Variable html_parser : string -> node.
Variable API_KEY : string.

Lemma build_state_url_dict_run (w : world) :
  build_state_url_dict html_parser w =
  match stored CACHE_FILENAME w with
  | Ok (JDict items) =>
      match dict_get items index_url with
      | Some state_dict => (Ok state_dict, w)
      | None => index_miss html_parser items w
      end
  | Ok _ => (Raise AttributeError, w)
  | Raise e => (Raise e, w)
  | Abort r => (Abort r, w)
  end.
Proof.
  unfold build_state_url_dict. rewrite bind_run, open_cache_run.
  destruct (stored CACHE_FILENAME w) as [[| | | | |items|]|e|r]; try reflexivity.
  cbn [keys_contains]. rewrite bind_run. cbn [ret].
  change ("https://www.nps.gov" ++ "/index.htm") with index_url.
  rewrite dict_has_get. unfold getitem.
  destruct (dict_get items index_url) as [v|]; [reflexivity|].
  unfold index_miss, page. run.
  destruct (web w {| url := index_url; params := [] |}) as [body|];
    [|reflexivity].
  run. destruct (find (html_parser body) ul_states) as [ul|]; [|reflexivity].
  rewrite state_loop_run.
  destruct (state_entries "https://www.nps.gov" (find_all ul (any "a")) []);
    reflexivity.
Qed.

Lemma get_sites_for_state_run (state_url : string) (w : world) :
  get_sites_for_state html_parser state_url w
  = (site_urls <- site_urls_of html_parser state_url ;;
     site_urls <- iterate site_urls ;;
     sites_loop html_parser site_urls []) w.
Proof.
  unfold get_sites_for_state. rewrite bind_run, open_cache_run.
  rewrite (bind_run (site_urls_of html_parser state_url)).
  unfold site_urls_of.
  destruct (stored CACHE_FILENAME w) as [[| | | | |items|]|e|r]; try reflexivity.
  cbn [keys_contains]. rewrite bind_run. cbn [ret].
  rewrite bind_run, dict_has_get. unfold getitem.
  destruct (dict_get items state_url) as [v|]; [reflexivity|].
  unfold state_miss, page.
  change (with_attr "ul" "id" "list_parks") with list_parks_q.
  run.
  destruct (web w {| url := state_url; params := [] |}) as [body|];
    [|reflexivity].
  run. destruct (find (html_parser body) list_parks_q) as [ul|]; [|reflexivity].
  rewrite heading_urls_run.
  destruct (heading_urls (find_all ul (any "h3")) []); reflexivity.
Qed.

Lemma get_nearby_places_run (site_object : NationalSite) (w : world) :
  get_nearby_places API_KEY site_object w =
  match stored CACHE_FILENAME w with
  | Ok (JDict items) =>
      match dict_get items (zipcode site_object) with
      | Some place_dict =>
          (Ok place_dict,
           log (log w (Entered site_object)) (Printed "Using cache"))
      | None =>
          match web w (nearby_request API_KEY (zipcode site_object)) with
          | None => (Raise RequestException, asked API_KEY site_object w)
          | Some text =>
              match json_loads text with
              | Value place_dict =>
                  (Ok place_dict,
                   saved (asked API_KEY site_object w)
                         (JDict (dict_set items (zipcode site_object) place_dict)))
              | NoValue Malformed =>
                  (Raise JSONDecodeError, asked API_KEY site_object w)
              | NoValue Unrepresented =>
                  (Abort OutOfModel, asked API_KEY site_object w)
              | NoValue OutOfFuel => (Abort NoFuel, asked API_KEY site_object w)
              end
          end
      end
  | Ok _ => (Raise AttributeError, log w (Entered site_object))
  | Raise e => (Raise e, log w (Entered site_object))
  | Abort r => (Abort r, log w (Entered site_object))
  end.
Proof.
  unfold get_nearby_places. rewrite bind_run. unfold emit at 1.
  rewrite bind_run, open_cache_run, stored_log.
  destruct (stored CACHE_FILENAME w) as [[| | | | |items|]|e|r]; try reflexivity.
  cbn [keys_contains]. rewrite bind_run. cbn [ret]. rewrite dict_has_get.
  unfold getitem.
  destruct (dict_get items (zipcode site_object)) as [v|]; [reflexivity|].
  unfold asked, nearby_request. run.
  destruct (web w _) as [text|]; [|reflexivity].
  unfold json_load.
  destruct (json_loads text) as [v|[]]; reflexivity.
Qed.
End Resolved.

(** *** Dicts *)

Lemma dict_get_set_other (items : list (string * json)) (k k' : string) (v : json) :
  k <> k' -> dict_get (dict_set items k' v) k = dict_get items k.
Proof.
  intros N. induction items as [|[k0 v0] items IH]; cbn [dict_set dict_get].
  - destruct (String.eqb k' k) eqn:E; [|reflexivity].
    apply String.eqb_eq in E. congruence.
  - destruct (String.eqb k0 k') eqn:E; cbn [dict_get].
    + apply String.eqb_eq in E. subst k0.
      destruct (String.eqb k' k) eqn:E'; [|reflexivity].
      apply String.eqb_eq in E'. congruence.
    + rewrite IH. reflexivity.
Qed.

(** Setting a key the dict does not have keeps every binding it has. *)
Lemma dict_get_set_new (items : list (string * json)) (k k' : string) (v v' : json) :
  dict_has items k' = false -> dict_get items k = Some v ->
  dict_get (dict_set items k' v') k = Some v.
Proof.
  intros Hn Hk. rewrite dict_get_set_other; [exact Hk|].
  intros ->. unfold dict_has in Hn. rewrite Hk in Hn. discriminate.
Qed.

Lemma dict_get_none_has (items : list (string * json)) (k : string) :
  dict_get items k = None -> dict_has items k = false.
Proof. unfold dict_has. intros ->. reflexivity. Qed.

Lemma dict_has_set_cases (items : list (string * json)) (k k' : string) (v : json) :
  dict_has (dict_set items k' v) k = String.eqb k' k || dict_has items k.
Proof.
  destruct (String.eqb k' k) eqn:E.
  - apply String.eqb_eq in E. subst. apply dict_has_set.
  - unfold dict_has. rewrite dict_get_set_other; [reflexivity|].
    intros ->. rewrite String.eqb_refl in E. discriminate.
Qed.

(** *** Lower case *)

Lemma lower_char_lower_char (c : ascii) : lower_char (lower_char c) = lower_char c.
Proof. destruct c as [[] [] [] [] [] [] [] []]; reflexivity. Qed.

Lemma lower_lower (s : string) : lower (lower s) = lower s.
Proof.
  induction s as [|c s IH]; cbn [lower]; [reflexivity|].
  rewrite lower_char_lower_char, IH. reflexivity.
Qed.

(** *** The anchors of the index page *)

Lemma find_all_tag (n : node) (q : query) (a : node) :
  In a (find_all n q) -> exists name attrs contents, a = Tag name attrs contents.
Proof.
  unfold find_all. rewrite filter_In. intros [_ H].
  destruct a as [name attrs contents|s]; [eauto | discriminate H].
Qed.

Lemma state_entries_paths (baseurl : string) (anchors : list node) :
  forall paths state_dict,
    Forall2 (fun a p => anchor_href a = Some p) anchors paths ->
    state_entries baseurl anchors state_dict
    = Ok (fold_left (fun d ap => dict_set d (lower (get_text (fst ap)))
                                         (JStr (baseurl ++ snd ap)))
                    (combine anchors paths) state_dict).
Proof.
  induction anchors as [|a anchors IH]; intros paths state_dict H;
    inversion H as [|a' p anchors' paths' Ha Hr]; subst; [reflexivity|].
  destruct a as [n attrs cs|s]; [|discriminate Ha].
  cbn [state_entries combine fold_left fst snd]. cbn [anchor_href] in Ha.
  rewrite Ha. apply IH, Hr.
Qed.

Lemma state_entries_broken (baseurl : string) (anchors : list node) :
  forall state_dict,
    Forall (fun a => exists name attrs contents, a = Tag name attrs contents)
           anchors ->
    Exists (fun a => anchor_href a = None) anchors ->
    state_entries baseurl anchors state_dict = Raise KeyError.
Proof.
  induction anchors as [|a anchors IH]; intros state_dict Ht He;
    [inversion He|].
  inversion Ht as [|? ? (n & attrs & cs & ->) Ht']; subst.
  cbn [state_entries].
  destruct (attr_get attrs "href") as [p|] eqn:E; [|reflexivity].
  apply IH; [exact Ht'|].
  inversion He as [? ? Ha|? ? Hr]; subst; [|exact Hr].
  cbn [anchor_href] in Ha. congruence.
Qed.

Lemma state_entries_wf (baseurl : string) (anchors : list node) :
  forall state_dict d,
    json_wf (JDict state_dict) = true ->
    state_entries baseurl anchors state_dict = Ok d ->
    json_wf (JDict d) = true.
Proof.
  induction anchors as [|[n attrs cs|s] anchors IH]; intros state_dict d Hw H;
    cbn [state_entries] in H; [congruence| |discriminate].
  destruct (attr_get attrs "href") as [p|]; [|discriminate].
  refine (IH _ _ _ H). apply dict_set_wf; [exact Hw | reflexivity].
Qed.

(** Every key is lower case, and every anchor has its key. *)
Lemma state_entries_keys (baseurl : string) (anchors : list node) :
  forall state_dict d,
    state_entries baseurl anchors state_dict = Ok d ->
    (forall k, dict_has state_dict k = true -> lower k = k) ->
    (forall k, dict_has d k = true -> lower k = k)
    /\ (forall k, dict_has state_dict k = true -> dict_has d k = true)
    /\ (forall a, In a anchors -> dict_has d (lower (get_text a)) = true).
Proof.
  induction anchors as [|[n attrs cs|s] anchors IH]; intros state_dict d H Hl;
    cbn [state_entries] in H; [| |discriminate].
  - injection H as <-. split; [exact Hl|]. split; [auto|]. intros a [].
  - destruct (attr_get attrs "href") as [p|]; [|discriminate].
    destruct (IH _ _ H) as (L & K & A).
    + intros k. rewrite dict_has_set_cases, orb_true_iff.
      intros [E|E]; [|exact (Hl k E)].
      apply String.eqb_eq in E. subst k. apply lower_lower.
    + split; [exact L|]. split.
      * intros k Hk. apply K. rewrite dict_has_set_cases, Hk. apply orb_true_r.
      * intros a [<-|Ha]; [|exact (A a Ha)].
        apply K, dict_has_set.
Qed.

Section Index.
Variable html_parser : string -> node.

(** X1: on a miss [build_state_url_dict] asks for the index page once,
    binds the lower-cased text of each anchor of the state menu, in
    document order, to the base URL followed by the anchor's [href],
    stores that dict under the URL of the index page and returns it. *)
Theorem build_state_url_dict_miss (body : string) (items : list (string * json))
        (w : world) (ul : node) (paths : list string) :
  misses w items index_url -> serves w index_url body ->
  find (html_parser body) ul_states = Some ul ->
  Forall2 (fun a path => anchor_href a = Some path) (find_all ul (any "a")) paths ->
  let state_dict := JDict (states_of (find_all ul (any "a")) paths) in
  build_state_url_dict html_parser w
  = (Ok state_dict,
     saved (log w (Requested (page index_url)))
           (JDict (dict_set items index_url state_dict))).
Proof.
  intros [Hs Hm] Hb Hul Hp state_dict. unfold serves in Hb.
  rewrite build_state_url_dict_run, Hs.
  unfold dict_has in Hm. destruct (dict_get items index_url); [discriminate|].
  unfold index_miss. rewrite Hb, Hul, (state_entries_paths _ _ paths [] Hp).
  reflexivity.
Qed.

(** X2: the dict [build_state_url_dict] builds on a miss has a key for
    the lower-cased text of every anchor of the state menu, and every one
    of its keys is in lower case, as the command loop looks a state up by
    the lower-cased input. *)
Theorem build_state_url_dict_keys (body : string) (items : list (string * json))
        (w w' : world) (ul : node) (state_dict : list (string * json)) :
  misses w items index_url -> serves w index_url body ->
  find (html_parser body) ul_states = Some ul ->
  build_state_url_dict html_parser w = (Ok (JDict state_dict), w') ->
  (forall a, In a (find_all ul (any "a")) ->
             dict_has state_dict (lower (get_text a)) = true)
  /\ (forall k, dict_has state_dict k = true -> lower k = k).
Proof.
  intros [Hs Hm] Hb Hul. unfold serves in Hb.
  rewrite build_state_url_dict_run, Hs.
  unfold dict_has in Hm. destruct (dict_get items index_url); [discriminate|].
  unfold index_miss. rewrite Hb, Hul.
  destruct (state_entries "https://www.nps.gov" (find_all ul (any "a")) [])
    as [d|e|r] eqn:E; intros H; try discriminate.
  assert (d = state_dict) by congruence. subst d.
  destruct (state_entries_keys _ _ _ _ E) as (L & _ & A);
    [intros k Hk; discriminate Hk|].
  split; assumption.
Qed.

(** X3: on a miss, an index page without the state menu ends
    [build_state_url_dict] with AttributeError, and a menu with an anchor
    that has no [href] ends it with KeyError; in both cases the page was
    asked for and the cache file is as it was. *)
Theorem build_state_url_dict_broken (body : string) (items : list (string * json))
        (w : world) :
  misses w items index_url -> serves w index_url body ->
  (find (html_parser body) ul_states = None ->
   build_state_url_dict html_parser w
   = (Raise AttributeError, log w (Requested (page index_url))))
  /\ (forall ul,
        find (html_parser body) ul_states = Some ul ->
        Exists (fun a => anchor_href a = None) (find_all ul (any "a")) ->
        build_state_url_dict html_parser w
        = (Raise KeyError, log w (Requested (page index_url)))).
Proof.
  intros [Hs Hm] Hb. unfold serves in Hb.
  rewrite build_state_url_dict_run, Hs.
  unfold dict_has in Hm. destruct (dict_get items index_url); [discriminate|].
  unfold index_miss. rewrite Hb. split.
  - intros ->. reflexivity.
  - intros ul -> He. rewrite state_entries_broken; [reflexivity| |exact He].
    apply Forall_forall. intros a Ha. exact (find_all_tag _ _ _ Ha).
Qed.

(** X4: after a call of [build_state_url_dict] that returned a dict, the
    next call returns the same dict and leaves the world as it is: it
    asks for no page and writes nothing. *)
Theorem build_state_url_dict_again (w w1 : world) (state_dict : json) :
  build_state_url_dict html_parser w = (Ok state_dict, w1) ->
  build_state_url_dict html_parser w1 = (Ok state_dict, w1).
Proof.
  rewrite !build_state_url_dict_run.
  destruct (stored CACHE_FILENAME w) as [[| | | | |items|]|e|r] eqn:Hs;
    try discriminate.
  pose proof (stored_wf _ _ _ Hs) as Hw.
  destruct (dict_get items index_url) as [v|] eqn:Hg.
  - intros H. injection H as -> <-. rewrite Hs, Hg. reflexivity.
  - unfold index_miss. destruct (web w (page index_url)) as [body|];
      [|discriminate].
    destruct (find (html_parser body) ul_states) as [ul|]; [|discriminate].
    destruct (state_entries "https://www.nps.gov" (find_all ul (any "a")) [])
      as [d|e|r] eqn:E; try discriminate.
    intros H. injection H as <- <-.
    rewrite stored_saved, dict_get_set; [reflexivity|].
    apply dict_set_wf; [exact Hw|].
    refine (state_entries_wf _ _ [] _ _ E). reflexivity.
Qed.
End Index.

Section Nearby.
Variable API_KEY : string.

(** X5: on a miss [get_nearby_places] sends one request to the search
    service, with the key, the zip code of the site as origin, radius 10,
    at most 10 matches, ambiguities ignored and JSON as format; it stores
    the decoded answer under the zip code and returns it. *)
Theorem get_nearby_places_miss (site_object : NationalSite)
        (items : list (string * json)) (w : world) (text : string)
        (place_dict : json) :
  misses w items (zipcode site_object) ->
  web w {| url := "http://www.mapquestapi.com/search/v2/radius";
           params := [("key", API_KEY); ("origin", zipcode site_object);
                      ("radius", "10"); ("maxMatches", "10");
                      ("ambiguities", "ignore"); ("outFormat", "json")] |}
  = Some text ->
  json_loads text = Value place_dict ->
  get_nearby_places API_KEY site_object w
  = (Ok place_dict,
     saved (asked API_KEY site_object w)
           (JDict (dict_set items (zipcode site_object) place_dict)))
  /\ requests_of (trace (asked API_KEY site_object w))
     = (requests_of (trace w)
        ++ [nearby_request API_KEY (zipcode site_object)])%list.
Proof.
  intros [Hs Hm] Hb Hj. split.
  - rewrite get_nearby_places_run, Hs.
    unfold dict_has in Hm.
    destruct (dict_get items (zipcode site_object)); [discriminate|].
    unfold nearby_request. rewrite Hb, Hj. reflexivity.
  - unfold asked, log, requests_of. cbn [trace].
    rewrite !flat_map_app. cbn [flat_map List.app].
    rewrite !List.app_nil_r. reflexivity.
Qed.

(** X6: on a miss, an answer of the search service that is not JSON ends
    [get_nearby_places] with the decoder's error, and so does no answer
    with the error of the request; the cache file is as it was. *)
Theorem get_nearby_places_no_places (site_object : NationalSite)
        (items : list (string * json)) (w : world) :
  misses w items (zipcode site_object) ->
  (web w (nearby_request API_KEY (zipcode site_object)) = None ->
   get_nearby_places API_KEY site_object w
   = (Raise RequestException, asked API_KEY site_object w))
  /\ (forall text,
        web w (nearby_request API_KEY (zipcode site_object)) = Some text ->
        json_loads text = NoValue Malformed ->
        get_nearby_places API_KEY site_object w
        = (Raise JSONDecodeError, asked API_KEY site_object w))
  /\ files (asked API_KEY site_object w) = files w.
Proof.
  intros [Hs Hm]. rewrite get_nearby_places_run, Hs.
  unfold dict_has in Hm.
  destruct (dict_get items (zipcode site_object)); [discriminate|].
  split; [|split].
  - intros ->. reflexivity.
  - intros text -> ->. reflexivity.
  - reflexivity.
Qed.

(** X7: after a call of [get_nearby_places] that returned the places of
    a site, a call for any site with the same zip code returns the same
    places from the cache, with no request and no write. *)
Theorem get_nearby_places_again (site_object other : NationalSite)
        (w w1 : world) (place_dict : json) :
  get_nearby_places API_KEY site_object w = (Ok place_dict, w1) ->
  zipcode other = zipcode site_object ->
  get_nearby_places API_KEY other w1
  = (Ok place_dict, log (log w1 (Entered other)) (Printed "Using cache")).
Proof.
  intros H Hz. rewrite get_nearby_places_run, Hz.
  rewrite get_nearby_places_run in H.
  destruct (stored CACHE_FILENAME w) as [[| | | | |items|]|e|r] eqn:Hs;
    try discriminate.
  pose proof (stored_wf _ _ _ Hs) as Hw.
  destruct (dict_get items (zipcode site_object)) as [v|] eqn:Hg.
  - injection H as -> <-. rewrite !stored_log, Hs, Hg. reflexivity.
  - destruct (web w (nearby_request API_KEY (zipcode site_object)))
      as [text|]; [|discriminate].
    destruct (json_loads text) as [v|[]] eqn:Hj; try discriminate.
    injection H as -> <-.
    rewrite stored_saved, dict_get_set; [reflexivity|].
    apply dict_set_wf; [exact Hw|]. exact (json_loads_wf _ _ Hj).
Qed.
End Nearby.

(** *** The cache file only grows *)

Lemma keeps_refl (w : world) : keeps w w.
Proof. intros k v H. exact H. Qed.

Lemma keeps_trans (w1 w2 w3 : world) : keeps w1 w2 -> keeps w2 w3 -> keeps w1 w3.
Proof. intros H1 H2 k v H. apply H2, H1, H. Qed.

Lemma keeps_files (w w' : world) :
  files w' CACHE_FILENAME = files w CACHE_FILENAME -> keeps w w'.
Proof.
  intros E k v (items & Hs & Hg). exists items. split; [|exact Hg].
  unfold stored in *. rewrite E. exact Hs.
Qed.

Lemma keeps_log (w : world) (e : event) : keeps w (log w e).
Proof. apply keeps_files. reflexivity. Qed.

(** A new key stored in the dict of the cache file. *)
Lemma keeps_saved (w w0 : world) (items : list (string * json)) (k : string)
      (v : json) :
  stored CACHE_FILENAME w = Ok (JDict items) ->
  dict_get items k = None -> json_wf v = true ->
  keeps w (saved w0 (JDict (dict_set items k v)))
  /\ holds (saved w0 (JDict (dict_set items k v))) k v.
Proof.
  intros Hs Hn Hv.
  assert (Hw : stored CACHE_FILENAME (saved w0 (JDict (dict_set items k v)))
               = Ok (JDict (dict_set items k v))).
  { apply stored_saved, dict_set_wf; [exact (stored_wf _ _ _ Hs) | exact Hv]. }
  split.
  - intros k' v' (items' & Hs' & Hg). rewrite Hs in Hs'. injection Hs' as <-.
    exists (dict_set items k v). split; [exact Hw|].
    apply dict_get_set_new; [apply dict_get_none_has, Hn | exact Hg].
  - exists (dict_set items k v). split; [exact Hw | apply dict_get_set].
Qed.

Lemma json_wf_urls (urls : list string) : json_wf (JList (map JStr urls)) = true.
Proof. induction urls as [|u urls IH]; [reflexivity | exact IH]. Qed.

Lemma printing_cons (w : world) (line : string) (lines : list string) :
  printing w (line :: lines) = printing (log w (Printed line)) lines.
Proof. reflexivity. Qed.

(** The record of a site depends on the binding of its URL only. *)
Lemma cached_site_ext (items items' : list (string * json)) (site_url : string) :
  dict_get items' site_url = dict_get items site_url ->
  cached_site items' site_url = cached_site items site_url.
Proof. intros E. unfold cached_site, cached_string. rewrite E. reflexivity. Qed.

Section Growth.
Variable html_parser : string -> node.
Variable API_KEY : string.

Lemma keeping_build_state_url_dict : keeping (build_state_url_dict html_parser).
Proof.
  intros w. rewrite build_state_url_dict_run.
  destruct (stored CACHE_FILENAME w) as [[| | | | |items|]|e|r] eqn:Hs;
    try apply keeps_refl.
  destruct (dict_get items index_url) as [v|] eqn:Hg; [apply keeps_refl|].
  unfold index_miss. destruct (web w (page index_url)) as [body|];
    [|apply keeps_log].
  destruct (find (html_parser body) ul_states) as [ul|]; [|apply keeps_log].
  destruct (state_entries "https://www.nps.gov" (find_all ul (any "a")) [])
    as [d|e|r] eqn:E; try apply keeps_log.
  apply (keeps_saved w _ items index_url (JDict d) Hs Hg).
  refine (state_entries_wf _ _ [] _ _ E). reflexivity.
Qed.

Lemma keeping_get_site_instance (site_url : string) :
  keeping (get_site_instance html_parser site_url).
Proof.
  intros w. rewrite get_site_instance_run.
  destruct (stored CACHE_FILENAME w) as [[| | | | |items|]|e|r] eqn:Hs;
    try apply keeps_refl.
  rewrite dict_has_get.
  destruct (dict_get items site_url) as [v|] eqn:Hg; [apply keeps_log|].
  unfold site_miss. destruct (web w (page site_url)) as [body|];
    [|apply keeps_files; reflexivity].
  destruct (find (html_parser body) header_q) as [h|];
    [|apply keeps_files; reflexivity].
  destruct (find (html_parser body) footer_q) as [f|];
    [|apply keeps_files; reflexivity].
  apply (keeps_saved w _ items site_url _ Hs Hg), site_record_wf.
Qed.

Lemma keeping_get_nearby_places (site_object : NationalSite) :
  keeping (get_nearby_places API_KEY site_object).
Proof.
  intros w. rewrite get_nearby_places_run.
  destruct (stored CACHE_FILENAME w) as [[| | | | |items|]|e|r] eqn:Hs;
    try apply keeps_log.
  destruct (dict_get items (zipcode site_object)) as [v|] eqn:Hg;
    [apply keeps_files; reflexivity|].
  destruct (web w (nearby_request API_KEY (zipcode site_object))) as [text|];
    [|apply keeps_files; reflexivity].
  destruct (json_loads text) as [v|[]] eqn:Hj;
    try (apply keeps_files; reflexivity).
  apply (keeps_saved w _ items _ v Hs Hg). exact (json_loads_wf _ _ Hj).
Qed.

(** The first half of [get_sites_for_state] leaves the list it returns in
    the cache file. *)
Lemma site_urls_of_holds (state_url : string) (w : world) :
  keeps w (snd (site_urls_of html_parser state_url w))
  /\ forall site_urls w1,
       site_urls_of html_parser state_url w = (Ok site_urls, w1) ->
       holds w1 state_url site_urls.
Proof.
  unfold site_urls_of.
  destruct (stored CACHE_FILENAME w) as [[| | | | |items|]|e|r] eqn:Hs;
    try (split; [apply keeps_refl | discriminate]).
  destruct (dict_get items state_url) as [v|] eqn:Hg.
  - split; [apply keeps_log|]. intros site_urls w1 H. injection H as <- <-.
    exists items. rewrite stored_log. auto.
  - unfold state_miss. destruct (web w (page state_url)) as [body|];
      [|split; [apply keeps_files; reflexivity | discriminate]].
    destruct (find (html_parser body) list_parks_q) as [ul|];
      [|split; [apply keeps_files; reflexivity | discriminate]].
    destruct (heading_urls (find_all ul (any "h3")) []) as [urls|e|r];
      try (split; [apply keeps_files; reflexivity | discriminate]).
    destruct (keeps_saved w (fetched w state_url) items state_url
                (JList (map JStr urls)) Hs Hg (json_wf_urls urls)) as [K H].
    split; [exact K|]. intros site_urls w1 E. injection E as <- <-. exact H.
Qed.

Lemma keeping_sites_loop (site_urls : list json) :
  forall sites, keeping (sites_loop html_parser site_urls sites).
Proof.
  induction site_urls as [|u rest IH]; intros sites w; cbn [sites_loop];
    [apply keeps_refl|].
  destruct u; try apply keeps_refl.
  cbn [as_str]. unfold bind at 1. cbn [ret]. rewrite bind_run.
  pose proof (keeping_get_site_instance s w) as K.
  destruct (get_site_instance html_parser s w) as [[site|e|r] w1];
    cbn [snd] in *; try exact K.
  exact (keeps_trans _ _ _ K (IH _ w1)).
Qed.

Lemma keeping_get_sites_for_state (state_url : string) :
  keeping (get_sites_for_state html_parser state_url).
Proof.
  intros w. rewrite get_sites_for_state_run, bind_run.
  destruct (site_urls_of_holds state_url w) as [K _].
  destruct (site_urls_of html_parser state_url w) as [[v|e|r] w1];
    cbn [snd] in *; try exact K.
  rewrite bind_run.
  assert (P : snd (iterate v w1) = w1)
    by (destruct v; try destruct b; reflexivity).
  destruct (iterate v w1) as [[l|e|r] w2]; cbn [snd] in P; subst w2;
    try exact K.
  exact (keeps_trans _ _ _ K (keeping_sites_loop l [] w1)).
Qed.

(** X8: no resolver removes or changes a binding of the cache file:
    whatever the cache file binds to a key before a call of
    [build_state_url_dict], [get_sites_for_state], [get_site_instance] or
    [get_nearby_places], it binds to the same key after the call, however
    the call ends. *)
Theorem resolvers_keep (w : world) (state_url site_url : string)
        (site_object : NationalSite) :
  keeps w (snd (build_state_url_dict html_parser w))
  /\ keeps w (snd (get_sites_for_state html_parser state_url w))
  /\ keeps w (snd (get_site_instance html_parser site_url w))
  /\ keeps w (snd (get_nearby_places API_KEY site_object w)).
Proof.
  split; [apply keeping_build_state_url_dict|].
  split; [apply keeping_get_sites_for_state|].
  split; [apply keeping_get_site_instance | apply keeping_get_nearby_places].
Qed.

(** *** Asking again *)

(** Once [get_site_instance] returned a site, it returns that site from
    the cache in every world that kept the bindings. *)
Lemma get_site_instance_reads (site_url : string) (w w1 : world)
      (site : NationalSite) :
  get_site_instance html_parser site_url w = (Ok site, w1) ->
  forall w', keeps w1 w' ->
    get_site_instance html_parser site_url w'
    = (Ok site, log w' (Printed "Using cache")).
Proof.
  intros H.
  assert (C : exists items v,
             stored CACHE_FILENAME w1 = Ok (JDict items)
             /\ dict_get items site_url = Some v
             /\ cached_site items site_url = Ok site).
  { rewrite get_site_instance_run in H.
    destruct (stored CACHE_FILENAME w) as [[| | | | |items|]|e|r] eqn:Hs;
      try discriminate.
    rewrite dict_has_get in H.
    destruct (dict_get items site_url) as [v|] eqn:Hg.
    - exists items, v. injection H as H <-. rewrite stored_log. auto.
    - unfold site_miss in H. destruct (web w (page site_url)) as [body|];
        [|discriminate].
      destruct (find (html_parser body) header_q) as [h|]; [|discriminate].
      destruct (find (html_parser body) footer_q) as [f|]; [|discriminate].
      injection H as <- <-.
      exists (dict_set items site_url (site_record (record_of h f))),
             (site_record (record_of h f)).
      split; [|split; [apply dict_get_set | apply cached_site_set]].
      apply stored_saved, dict_set_wf;
        [exact (stored_wf _ _ _ Hs) | apply site_record_wf]. }
  destruct C as (items & v & Hs & Hg & Hc). intros w' K.
  destruct (K site_url v) as (items' & Hs' & Hg'); [exists items; auto|].
  rewrite get_site_instance_run, Hs', dict_has_get, Hg'.
  rewrite (cached_site_ext items items'), Hc; [reflexivity|].
  rewrite Hg, Hg'. reflexivity.
Qed.

Lemma sites_loop_again (site_urls : list json) :
  forall sites w result w1,
    sites_loop html_parser site_urls sites w = (Ok result, w1) ->
    keeps w w1
    /\ exists found,
         result = (sites ++ found)%list
         /\ List.length found = List.length site_urls
         /\ forall sites' w',
              keeps w1 w' ->
              sites_loop html_parser site_urls sites' w'
              = (Ok (sites' ++ found)%list,
                 printing w' (repeat "Using cache" (List.length site_urls))).
Proof.
  induction site_urls as [|u rest IH]; intros sites w result w1 H;
    cbn [sites_loop] in H.
  - injection H as <- <-. split; [apply keeps_refl|]. exists [].
    rewrite List.app_nil_r. split; [reflexivity|]. split; [reflexivity|].
    intros sites' w' _. cbn [sites_loop]. rewrite List.app_nil_r. reflexivity.
  - destruct u; try discriminate.
    cbn [as_str] in H. unfold bind at 1 in H. cbn [ret] in H.
    rewrite bind_run in H.
    pose proof (keeping_get_site_instance s w) as K.
    destruct (get_site_instance html_parser s w) as [[site|e|r] wa] eqn:G;
      try discriminate.
    cbn [snd] in K.
    destruct (IH _ _ _ _ H) as (K' & found & -> & L & A).
    split; [exact (keeps_trans _ _ _ K K')|].
    exists (site :: found). rewrite <- List.app_assoc.
    split; [reflexivity|]. split; [cbn [List.length]; rewrite L; reflexivity|].
    intros sites' w' Kw. cbn [sites_loop as_str].
    unfold bind at 1. cbn [ret]. rewrite bind_run.
    rewrite (get_site_instance_reads s w wa site G w'
               (keeps_trans _ _ _ K' Kw)).
    rewrite (A (sites' ++ [site])%list (log w' (Printed "Using cache"))
               (keeps_trans _ _ _ Kw (keeps_log _ _))).
    rewrite <- List.app_assoc. reflexivity.
Qed.

(** X9: after a call of [get_sites_for_state] that returned the sites of
    a state, the next call for that state returns the same sites in the
    same order, and all it does is print "Using cache" once for the list
    and once for every site: it asks for no page and writes nothing. *)
Theorem get_sites_for_state_again (state_url : string) (w w1 : world)
        (sites : list NationalSite) :
  get_sites_for_state html_parser state_url w = (Ok sites, w1) ->
  get_sites_for_state html_parser state_url w1
  = (Ok sites, printing w1 (repeat "Using cache" (S (List.length sites)))).
Proof.
  rewrite !get_sites_for_state_run, !bind_run.
  destruct (site_urls_of_holds state_url w) as [_ Hh].
  destruct (site_urls_of html_parser state_url w) as [[v|e|r] wa] eqn:E;
    try discriminate.
  specialize (Hh v wa eq_refl). rewrite bind_run.
  assert (P : snd (iterate v wa) = wa)
    by (destruct v; try destruct b; reflexivity).
  destruct (iterate v wa) as [[l|e|r] wb] eqn:Ei; try discriminate.
  cbn [snd] in P. subst wb. intros H.
  destruct (sites_loop_again l [] wa sites w1 H) as (K & found & -> & L & A).
  destruct (K state_url v Hh) as (items1 & Hs1 & Hg1).
  unfold site_urls_of at 1. rewrite Hs1, Hg1, bind_run.
  assert (Ei' : iterate v (log w1 (Printed "Using cache"))
                = (Ok l, log w1 (Printed "Using cache"))).
  { revert Ei. destruct v; try destruct b; unfold iterate, ret, raise;
      intros Ei; try discriminate Ei; injection Ei as <-; reflexivity. }
  rewrite Ei', (A [] _ (keeps_log _ _)).
  cbn [List.app]. rewrite L. reflexivity.
Qed.

(** X10: on a miss, a state page without the list of parks ends
    [get_sites_for_state] with AttributeError, and a list with a heading
    that has no anchor or whose anchor has no [href] ends it with
    TypeError or KeyError; the state page was asked for, no site page
    was, and the cache file is as it was: no part of the list is
    stored. *)
Theorem get_sites_for_state_broken (state_url body : string)
        (items : list (string * json)) (w : world) :
  misses w items state_url -> serves w state_url body ->
  (find (html_parser body) list_parks_q = None ->
   get_sites_for_state html_parser state_url w
   = (Raise AttributeError, fetched w state_url))
  /\ (forall ul,
        find (html_parser body) list_parks_q = Some ul ->
        Exists (fun h3 => heading_path h3 = None) (find_all ul (any "h3")) ->
        get_sites_for_state html_parser state_url w
        = (Raise TypeError, fetched w state_url)
        \/ get_sites_for_state html_parser state_url w
           = (Raise KeyError, fetched w state_url))
  /\ files (fetched w state_url) = files w.
Proof.
  intros [Hs Hm] Hb. unfold serves in Hb.
  rewrite get_sites_for_state_run, bind_run. unfold site_urls_of.
  rewrite Hs. unfold dict_has in Hm.
  destruct (dict_get items state_url); [discriminate|].
  unfold state_miss. rewrite Hb. split; [|split; [|reflexivity]].
  - intros ->. reflexivity.
  - intros ul -> He.
    assert (B : forall hs acc,
               Exists (fun h3 => heading_path h3 = None) hs ->
               heading_urls hs acc = Raise TypeError
               \/ heading_urls hs acc = Raise KeyError).
    { induction hs as [|h hs IH]; intros acc X; [inversion X|].
      cbn [heading_urls]. unfold heading_path in X.
      destruct (find h (any "a")) as [[n attrs cs|s]|] eqn:F; auto.
      destruct (attr_get attrs "href") as [p|] eqn:A; auto.
      apply IH. inversion X as [? ? Xh|? ? Xr]; subst; [|exact Xr].
      rewrite F in Xh. congruence. }
    destruct (B _ [] He) as [-> | ->]; auto.
Qed.
End Growth.

(** *** [print_places] *)

Lemma shown_or_missing (k v : string) (w : world) :
  format (or_missing k (JStr v)) w = (Ok (shown k v), w).
Proof. destruct v; reflexivity. Qed.

Lemma print_place_run (place : json) (line : string) (w : world) :
  line_of place = Some line ->
  print_place place w = (Ok tt, log w (Printed line)).
Proof.
  unfold line_of, place_strings.
  destruct place as [| | | | |p|]; try discriminate.
  destruct (dict_get p "name") as [[| | |n| | |]|] eqn:En; try discriminate.
  destruct (dict_get p "fields") as [[| | | | |f|]|] eqn:Ef; try discriminate.
  destruct (dict_get f "group_sic_code_name") as [[| | |c| | |]|] eqn:Ec;
    try discriminate.
  destruct (dict_get f "address") as [[| | |a| | |]|] eqn:Ea; try discriminate.
  destruct (dict_get f "city") as [[| | |t| | |]|] eqn:Et; try discriminate.
  intros H. injection H as <-.
  unfold print_place, bind, getitem. rewrite En. cbn [ret]. rewrite Ef.
  cbn [ret]. rewrite Ec. cbn [ret]. rewrite Ea. cbn [ret]. rewrite Et.
  cbn [ret]. rewrite !shown_or_missing.
  unfold print, emit, place_line, join. do 3 f_equal.
  rewrite !append_assoc. reflexivity.
Qed.

(** X11: for a dict whose "searchResults" is a list of places, each with
    a name and the fields category, address and city as strings,
    [print_places] prints one line for each place, in the order of the
    list: "- name (category): address, city", with "No name",
    "No category", "No address" or "No city" in the place of an empty
    string; it prints nothing else. *)
Theorem print_places_lines (d : list (string * json)) (places : list json)
        (lines : list string) (w : world) :
  dict_get d "searchResults" = Some (JList places) ->
  Forall2 (fun place line => line_of place = Some line) places lines ->
  print_places (JDict d) w = (Ok tt, printing w lines).
Proof.
  intros Hd Hl. unfold print_places, getitem.
  rewrite bind_run, Hd. cbn [ret iterate]. rewrite bind_run. cbn [ret].
  clear Hd. revert w.
  induction Hl as [|place line places lines Hp Hl IH]; intros w; [reflexivity|].
  cbn [print_places_loop]. rewrite bind_run, (print_place_run _ _ _ Hp).
  rewrite printing_cons. apply IH.
Qed.

(** *** White space around the fields *)

Lemma rstrip_rstrip (s : string) : rstrip (rstrip s) = rstrip s.
Proof.
  induction s as [|c s IH]; [reflexivity|]. cbn [rstrip].
  destruct (rstrip s) as [|d r] eqn:E.
  - destruct (isspace c) eqn:Ec; [reflexivity|]. cbn [rstrip]. rewrite Ec.
    reflexivity.
  - change (rstrip (String c (String d r))) with
      (match rstrip (String d r) with
       | EmptyString => if isspace c then EmptyString else String c EmptyString
       | r' => String c r'
       end).
    rewrite IH. reflexivity.
Qed.

Lemma lstrip_head (s : string) :
  lstrip s = EmptyString
  \/ exists c t, lstrip s = String c t /\ isspace c = false.
Proof.
  induction s as [|c s IH]; [left; reflexivity|]. cbn [lstrip].
  destruct (isspace c) eqn:E; [exact IH|]. right. eauto.
Qed.

Lemma strip_strip (s : string) : strip (strip s) = strip s.
Proof.
  unfold strip. destruct (lstrip_head s) as [->|(c & t & -> & Hc)];
    [reflexivity|].
  assert (L : lstrip (rstrip (String c t)) = rstrip (String c t)).
  { cbn [rstrip]. destruct (rstrip t); rewrite ?Hc; cbn [lstrip]; rewrite Hc;
      reflexivity. }
  rewrite L. apply rstrip_rstrip.
Qed.

Lemma stripped_field_text (t : option node) (sentinel : string) :
  stripped sentinel -> stripped (field_text t sentinel).
Proof. intros H. destruct t; [apply strip_strip | exact H]. Qed.

Section Stripped.
Variable html_parser : string -> node.

(** X12: the name, the category, the zip code and the phone of a site
    that [get_site_instance] reads off a page have no white space at
    either end: stripping them again changes nothing. *)
Theorem get_site_instance_stripped (site_url : string)
        (items : list (string * json)) (w w' : world) (site : NationalSite) :
  misses w items site_url ->
  get_site_instance html_parser site_url w = (Ok site, w') ->
  stripped (name site) /\ stripped (category site)
  /\ stripped (zipcode site) /\ stripped (phone site).
Proof.
  intros [Hs Hm]. rewrite get_site_instance_run, Hs, Hm. unfold site_miss.
  destruct (web w (page site_url)) as [body|]; [|discriminate].
  destruct (find (html_parser body) header_q) as [h|]; [|discriminate].
  destruct (find (html_parser body) footer_q) as [f|]; [|discriminate].
  intros H. injection H as <- _. cbn [record_of name category zipcode phone].
  repeat split; apply stripped_field_text; reflexivity.
Qed.
End Stripped.

Create HintDb never.
Create HintDb keeping.

(** *** Exceptions the program does not end with *)

Lemma exn_eqb_refl (e : exn) : exn_eqb e e = true.
Proof. destruct e; reflexivity. Qed.

Section Never.
Variable e : exn.

Lemma never_ret {A : Type} (a : A) : never e (ret a).
Proof. intros w. discriminate. Qed.

Lemma never_abort {A : Type} (r : reason) : never e (@abort A r).
Proof. intros w. discriminate. Qed.

Lemma never_emit (ev : event) : never e (emit ev).
Proof. intros w. discriminate. Qed.

Lemma never_print (s : string) : never e (print s).
Proof. intros w. discriminate. Qed.

Lemma never_bind_yields {A B : Type} (Q : A -> Prop) (m : M A) (k : A -> M B) :
  never e m -> yields Q m -> (forall a, Q a -> never e (k a)) ->
  never e (bind m k).
Proof.
  intros Hm Hq Hk w. unfold bind. specialize (Hm w).
  destruct (m w) as [[a|e'|r] w1] eqn:E; cbn [fst] in *.
  - apply (Hk a (Hq w a w1 E)).
  - intros X. apply Hm. injection X as ->. reflexivity.
  - discriminate.
Qed.

Lemma never_bind {A B : Type} (m : M A) (k : A -> M B) :
  never e m -> (forall a, never e (k a)) -> never e (bind m k).
Proof.
  intros Hm Hk. apply (never_bind_yields (fun _ => True)); auto.
  intros w a w' _. exact I.
Qed.

Lemma never_try {A : Type} (body handler : M A) (e' : exn) :
  never e body -> never e handler -> never e (try_except body e' handler).
Proof.
  intros Hb Hh w. unfold try_except. specialize (Hb w).
  destruct (body w) as [[a|e''|r] w1]; cbn [fst] in *; try discriminate.
  destruct (exn_eqb e'' e'); [apply Hh | exact Hb].
Qed.

(** What the handler catches does not come out of the statement. *)
Lemma never_try_caught {A : Type} (body handler : M A) :
  never e handler -> never e (try_except body e handler).
Proof.
  intros Hh w. unfold try_except.
  destruct (body w) as [[a|e'|r] w1]; cbn [fst]; try discriminate.
  destruct (exn_eqb e' e) eqn:E; [apply Hh|]. cbn [fst]. intros X.
  injection X as ->. rewrite exn_eqb_refl in E. discriminate.
Qed.
End Never.

(** [list_sites] ends with the number after the last one. *)
Lemma yields_list_sites (sites : list NationalSite) :
  forall counter,
    yields (fun c => c = (counter + Z.of_nat (List.length sites))%Z)
           (list_sites sites counter).
Proof.
  induction sites as [|site rest IH]; intros counter w c w' H;
    cbn [list_sites] in H.
  - injection H as <- _. cbn [List.length]. lia.
  - unfold bind, print, emit in H. apply IH in H. cbn [List.length]. lia.
Qed.

(** The number that passed the range check of the command loop is an
    index of the list. *)
Lemma list_getitem_in_range {A : Type} (l : list A) (n counter : Z) (w : world) :
  counter = (1 + Z.of_nat (List.length l))%Z ->
  (n >? counter - 1)%Z || (n <? 1)%Z = false ->
  exists x, list_getitem l (n - 1)%Z w = (Ok x, w).
Proof.
  intros -> H. apply orb_false_iff in H. destruct H as [H1 H2].
  assert (R : (1 <= n <= Z.of_nat (List.length l))%Z).
  { rewrite Z.gtb_ltb in H1. apply Z.ltb_ge in H1, H2. lia. }
  unfold list_getitem.
  destruct (Z.ltb_spec (n - 1) 0); [lia|].
  destruct (Z.ltb_spec (n - 1) 0); [lia|].
  destruct (nth_error l (Z.to_nat (n - 1))) as [x|] eqn:E;
    [exists x; reflexivity|].
  apply nth_error_None in E. lia.
Qed.

(** The operations that raise neither of the two exceptions. *)
Ltac never_op :=
  lazymatch goal with
  | |- never _ (raise _) => idtac
  | |- never _ (keys_contains _ _) => idtac
  | |- never _ (getitem _ _) => idtac
  | |- never _ (setitem _ _ _) => idtac
  | |- never _ (iterate _) => idtac
  | |- never _ (as_str _) => idtac
  | |- never _ (format _) => idtac
  | |- never _ (tag_find _ _) => idtac
  | |- never _ (tag_find_all _ _) => idtac
  | |- never _ (tag_text _) => idtac
  | |- never _ (tag_getitem _ _) => idtac
  | |- never _ (to_int _) => idtac
  | |- never _ (to_title _) => idtac
  | |- never _ (json_load _) => idtac
  | |- never _ (input _) => idtac
  | |- never _ (requests_get _ _) => idtac
  | |- never _ (save_cache _ _) => idtac
  end;
  intros ?w;
  unfold keys_contains, getitem, setitem, iterate, as_str, format, tag_find,
    tag_find_all, tag_text, tag_getitem, to_int, to_title, json_load, input,
    requests_get, save_cache, write_file, bind, emit, ret, raise, abort;
  repeat match goal with
         | |- context [match ?x with _ => _ end] => destruct x
         end;
  cbn [fst];
  match goal with
  | H : _ = IndexError \/ _ = FileNotFoundError |- _ =>
      destruct H; subst; discriminate
  end.

Ltac never_step :=
  first
    [ apply never_ret | apply never_abort | apply never_print | apply never_emit
    | never_op
    | solve [auto with never]
    | match goal with
      | H : ?c = (1 + Z.of_nat (List.length ?l))%Z,
        R : (?n >? ?c - 1)%Z || (?n <? 1)%Z = false
        |- never _ (list_getitem ?l (?n - 1)%Z) =>
          let w := fresh "w" in
          let x := fresh "x" in
          let E := fresh "E" in
          intros w;
          destruct (list_getitem_in_range l n c w H R) as [x E]; rewrite E;
          discriminate
      end
    | apply never_try
    | apply never_bind; [|intros ?]
    | match goal with
      | |- never _ (if ?b then _ else _) => destruct b eqn:?
      | |- never _ (match ?x with _ => _ end) => destruct x
      end ].

Ltac nevermore := repeat never_step.

Section Unraised.
Variable html_parser : string -> node.
Variable API_KEY : string.
Variable e : exn.
Hypothesis unraised : e = IndexError \/ e = FileNotFoundError.

Lemma never_open_cache (filename : string) : never e (open_cache filename).
Proof.
  intros w. rewrite open_cache_run. cbn [fst]. unfold stored.
  destruct (files w filename) as [text|]; [|discriminate].
  destruct (json_loads text) as [v|[]]; try discriminate.
  destruct unraised; subst; discriminate.
Qed.
Hint Resolve never_open_cache : never.

Lemma never_get_soup (u : string) : never e (get_soup html_parser u).
Proof. unfold get_soup. nevermore. Qed.
Hint Resolve never_get_soup : never.

Lemma never_text_or (t : option node) (sentinel : string) :
  never e (text_or t sentinel).
Proof. intros w. rewrite text_or_run. discriminate. Qed.
Hint Resolve never_text_or : never.

Lemma never_print_places_loop (places : list json) :
  never e (print_places_loop places).
Proof.
  induction places as [|place places IH]; cbn [print_places_loop]; [nevermore|].
  unfold print_place. nevermore.
Qed.
Hint Resolve never_print_places_loop : never.

Lemma never_print_places (place_dict : json) : never e (print_places place_dict).
Proof. unfold print_places. nevermore. Qed.
Hint Resolve never_print_places : never.

Lemma never_state_loop (baseurl : string) (state_list : list node) :
  forall state_dict, never e (state_loop baseurl state_list state_dict).
Proof.
  induction state_list as [|state rest IH]; intros state_dict;
    cbn [state_loop]; nevermore.
Qed.
Hint Resolve never_state_loop : never.

Lemma never_build_state_url_dict : never e (build_state_url_dict html_parser).
Proof. unfold build_state_url_dict. nevermore. Qed.
Hint Resolve never_build_state_url_dict : never.

Lemma never_cached_field (cache_dict : json) (site_url key : string) :
  never e (cached_field cache_dict site_url key).
Proof. unfold cached_field. nevermore. Qed.
Hint Resolve never_cached_field : never.

Lemma never_get_site_instance (site_url : string) :
  never e (get_site_instance html_parser site_url).
Proof. unfold get_site_instance. nevermore. Qed.
Hint Resolve never_get_site_instance : never.

Lemma never_site_urls_loop (site_h3_list : list node) :
  forall site_urls, never e (site_urls_loop site_h3_list site_urls).
Proof.
  induction site_h3_list as [|site rest IH]; intros site_urls;
    cbn [site_urls_loop]; nevermore.
Qed.
Hint Resolve never_site_urls_loop : never.

Lemma never_sites_loop (site_urls : list json) :
  forall sites, never e (sites_loop html_parser site_urls sites).
Proof.
  induction site_urls as [|u rest IH]; intros sites; cbn [sites_loop];
    nevermore.
Qed.
Hint Resolve never_sites_loop : never.

Lemma never_get_sites_for_state (state_url : string) :
  never e (get_sites_for_state html_parser state_url).
Proof. unfold get_sites_for_state. nevermore. Qed.
Hint Resolve never_get_sites_for_state : never.

Lemma never_get_nearby_places (site_object : NationalSite) :
  never e (get_nearby_places API_KEY site_object).
Proof. unfold get_nearby_places. nevermore. Qed.
Hint Resolve never_get_nearby_places : never.

Lemma never_list_sites (sites : list NationalSite) :
  forall counter, never e (list_sites sites counter).
Proof.
  induction sites as [|site rest IH]; intros counter; cbn [list_sites];
    nevermore.
Qed.
Hint Resolve never_list_sites : never.

Lemma never_print_header (header : string) : never e (print_header header).
Proof. unfold print_header. nevermore. Qed.
Hint Resolve never_print_header : never.

(** The inner loop with the counter that [list_sites] ends with. *)
Lemma never_detail_loop (fuel : nat) (sites : list NationalSite) (counter : Z) :
  counter = (1 + Z.of_nat (List.length sites))%Z ->
  never e (detail_loop API_KEY fuel sites counter).
Proof.
  intros Hc. induction fuel as [|fuel IH]; cbn [detail_loop]; nevermore.
Qed.

Lemma never_state_loop_main (fuel : nat) (state_dict : json) :
  never e (state_loop_main html_parser API_KEY fuel state_dict).
Proof.
  induction fuel as [|fuel IH]; cbn [state_loop_main]; [nevermore|].
  apply never_bind; [never_op|]. intros state.
  destruct (String.eqb (lower state) "exit"); [apply never_ret|].
  apply never_bind; [|intros leave; destruct leave; [apply never_ret | exact IH]].
  apply never_try; [|nevermore].
  apply never_bind; [never_op|]. intros state_url.
  apply never_bind; [never_op|]. intros state_url'.
  apply never_bind; [apply never_get_sites_for_state|]. intros sites.
  apply never_bind; [never_op|]. intros t.
  apply never_bind; [apply never_print_header|]. intros _.
  apply (never_bind_yields e
           (fun c => c = (1 + Z.of_nat (List.length sites))%Z));
    [apply never_list_sites | apply yields_list_sites|].
  intros counter Hc.
  apply never_bind; [apply never_detail_loop, Hc | intros detail; apply never_ret].
Qed.

Lemma never_main (fuel : nat) : never e (main html_parser API_KEY fuel).
Proof.
  unfold main. apply never_bind; [apply never_build_state_url_dict|].
  intros state_dict. apply never_state_loop_main.
Qed.
End Unraised.

Section Ends.
Variable html_parser : string -> node.
Variable API_KEY : string.

(** X13: the program never ends with IndexError: a site is taken from
    the list only after the number typed passed the range check, and the
    counter the check compares with is one more than the length of the
    list. *)
Theorem main_never_index_error (fuel : nat) (w : world) :
  fst (main html_parser API_KEY fuel w) <> Raise IndexError.
Proof. apply (never_main html_parser API_KEY IndexError). left. reflexivity. Qed.

(** X14: the program never ends with FileNotFoundError: the cache file
    is read by [open_cache] only, which takes a missing file for an empty
    cache. *)
Theorem main_never_file_not_found (fuel : nat) (w : world) :
  fst (main html_parser API_KEY fuel w) <> Raise FileNotFoundError.
Proof.
  apply (never_main html_parser API_KEY FileNotFoundError). right. reflexivity.
Qed.

(** X15: the command loop never ends with KeyError: whatever raises it
    after a state name was typed, the handler of the loop catches it; the
    program ends with KeyError only if [build_state_url_dict] does. *)
Theorem main_key_error (fuel : nat) (w : world) :
  (forall state_dict w',
      fst (state_loop_main html_parser API_KEY fuel state_dict w')
      <> Raise KeyError)
  /\ (fst (main html_parser API_KEY fuel w) = Raise KeyError ->
      fst (build_state_url_dict html_parser w) = Raise KeyError).
Proof.
  assert (L : forall state_dict,
             never KeyError (state_loop_main html_parser API_KEY fuel state_dict)).
  { intros state_dict. induction fuel as [|fuel' IH]; cbn [state_loop_main];
      [apply never_abort|].
    apply never_bind.
    - intros w0. unfold input, bind, emit. cbn [stdin log].
      destruct (stdin w0); discriminate.
    - intros state. destruct (String.eqb (lower state) "exit");
        [apply never_ret|].
      apply never_bind;
        [|intros leave; destruct leave; [apply never_ret | exact IH]].
      apply never_try_caught, never_bind; [apply never_print|].
      intros _. apply never_ret. }
  split; [exact L|].
  unfold main, bind.
  destruct (build_state_url_dict html_parser w) as [[state_dict|e|r] w1];
    cbn [fst]; [|intros H; injection H as ->; reflexivity|discriminate].
  intros H. destruct (L state_dict w1 H).
Qed.
End Ends.

(** *** The command loop keeps the cache *)

Section Keeping.
Lemma keeping_files {A : Type} (m : M A) :
  (forall w, files (snd (m w)) = files w) -> keeping m.
Proof. intros H w. apply keeps_files. rewrite H. reflexivity. Qed.

Lemma keeping_ret {A : Type} (a : A) : keeping (ret a).
Proof. apply keeping_files. reflexivity. Qed.

Lemma keeping_raise {A : Type} (e : exn) : keeping (@raise A e).
Proof. apply keeping_files. reflexivity. Qed.

Lemma keeping_abort {A : Type} (r : reason) : keeping (@abort A r).
Proof. apply keeping_files. reflexivity. Qed.

Lemma keeping_print (s : string) : keeping (print s).
Proof. apply keeping_files. reflexivity. Qed.

Lemma keeping_input (prompt : string) : keeping (input prompt).
Proof.
  apply keeping_files. intros w. unfold input, bind, emit. cbn [stdin log].
  destruct (stdin w); reflexivity.
Qed.

Lemma keeping_bind {A B : Type} (m : M A) (k : A -> M B) :
  keeping m -> (forall a, keeping (k a)) -> keeping (bind m k).
Proof.
  intros Hm Hk w. unfold bind. specialize (Hm w).
  destruct (m w) as [[a|e|r] w1]; cbn [snd] in *; try exact Hm.
  exact (keeps_trans _ _ _ Hm (Hk a w1)).
Qed.

Lemma keeping_try {A : Type} (body handler : M A) (e : exn) :
  keeping body -> keeping handler -> keeping (try_except body e handler).
Proof.
  intros Hb Hh w. unfold try_except. specialize (Hb w).
  destruct (body w) as [[a|e'|r] w1]; cbn [snd] in *; try exact Hb.
  destruct (exn_eqb e' e); [|exact Hb].
  exact (keeps_trans _ _ _ Hb (Hh w1)).
Qed.
End Keeping.

Ltac keeping_op :=
  lazymatch goal with
  | |- keeping (getitem _ _) => idtac
  | |- keeping (iterate _) => idtac
  | |- keeping (as_str _) => idtac
  | |- keeping (format _) => idtac
  | |- keeping (to_int _) => idtac
  | |- keeping (to_title _) => idtac
  | |- keeping (list_getitem _ _) => idtac
  end;
  apply keeping_files; intros ?w;
  unfold getitem, iterate, as_str, format, to_int, to_title, list_getitem;
  repeat match goal with
         | |- context [match ?x with _ => _ end] => destruct x
         end;
  reflexivity.

Ltac keeping_step :=
  first
    [ apply keeping_ret | apply keeping_raise | apply keeping_abort
    | apply keeping_print | apply keeping_input
    | keeping_op
    | solve [auto with keeping]
    | apply keeping_try
    | apply keeping_bind; [|intros ?]
    | match goal with
      | |- keeping (if ?b then _ else _) => destruct b
      | |- keeping (match ?x with _ => _ end) => destruct x
      end ].

Section KeepingOfProgram.
Variable html_parser : string -> node.
Variable API_KEY : string.

Hint Resolve keeping_build_state_url_dict keeping_get_sites_for_state
     keeping_get_site_instance keeping_get_nearby_places : keeping.

Lemma keeping_print_places_loop (places : list json) :
  keeping (print_places_loop places).
Proof.
  induction places as [|place places IH]; cbn [print_places_loop];
    [apply keeping_ret|].
  unfold print_place. repeat keeping_step.
Qed.
Hint Resolve keeping_print_places_loop : keeping.

Lemma keeping_print_places (place_dict : json) : keeping (print_places place_dict).
Proof. unfold print_places. repeat keeping_step. Qed.
Hint Resolve keeping_print_places : keeping.

Lemma keeping_list_sites (sites : list NationalSite) :
  forall counter, keeping (list_sites sites counter).
Proof.
  induction sites as [|site rest IH]; intros counter; cbn [list_sites];
    repeat keeping_step.
Qed.
Hint Resolve keeping_list_sites : keeping.

Lemma keeping_print_header (header : string) : keeping (print_header header).
Proof. unfold print_header. repeat keeping_step. Qed.
Hint Resolve keeping_print_header : keeping.

Lemma keeping_detail_loop (fuel : nat) :
  forall sites counter, keeping (detail_loop API_KEY fuel sites counter).
Proof.
  induction fuel as [|fuel IH]; intros sites counter; cbn [detail_loop];
    repeat keeping_step.
Qed.
Hint Resolve keeping_detail_loop : keeping.

Lemma keeping_state_loop_main (fuel : nat) :
  forall state_dict,
    keeping (state_loop_main html_parser API_KEY fuel state_dict).
Proof.
  induction fuel as [|fuel IH]; intros state_dict; cbn [state_loop_main];
    repeat keeping_step.
Qed.

(** X16: the program never removes or changes a binding of the cache
    file: whatever the file binds to a key when the program starts, it
    binds to the same key when the program ends, whatever is typed and
    however the program ends. *)
Theorem main_keeps (fuel : nat) (w : world) :
  keeps w (snd (main html_parser API_KEY fuel w)).
Proof.
  unfold main. apply keeping_bind; [apply keeping_build_state_url_dict|].
  intros state_dict. apply keeping_state_loop_main.
Qed.
End KeepingOfProgram.

(** *** Reading a number that was printed *)

Lemma int_lstrip_uint (d : uint) :
  int_lstrip (NilEmpty.string_of_uint d) = NilEmpty.string_of_uint d.
Proof. destruct d; reflexivity. Qed.

Lemma int_rstrip_uint (d : uint) :
  int_rstrip (NilEmpty.string_of_uint d) = NilEmpty.string_of_uint d.
Proof.
  induction d; cbn [NilEmpty.string_of_uint int_rstrip]; try reflexivity;
    rewrite IHd; destruct (NilEmpty.string_of_uint d); reflexivity.
Qed.

Lemma int_digits_uint (d : uint) :
  forall after_digit,
    after_digit = true \/ d <> Nil ->
    int_digits after_digit (NilEmpty.string_of_uint d)
    = Some (NilEmpty.string_of_uint d).
Proof.
  induction d; intros after_digit H; cbn [NilEmpty.string_of_uint int_digits];
    [destruct H as [->|H]; [reflexivity | congruence] | ..];
    rewrite IHd by (left; reflexivity); reflexivity.
Qed.

Lemma sign_of_digit {A : Type} (c : ascii) (x y z : A) :
  is_digit c = true ->
  (if Ascii.eqb c "-" then x else if Ascii.eqb c "+" then y else z) = z.
Proof.
  destruct c as [[] [] [] [] [] [] [] []]; cbv; intros H;
    first [reflexivity | discriminate H].
Qed.

Lemma uint_head (d : uint) :
  d <> Nil ->
  exists c r, NilEmpty.string_of_uint d = String c r /\ is_digit c = true.
Proof. destruct d; [congruence | ..]; intros _; do 2 eexists; split; reflexivity. Qed.

Lemma py_int_uint (d : uint) :
  d <> Nil -> py_int (NilEmpty.string_of_uint d) = Some (Z.of_N (N.of_uint d)).
Proof.
  intros H. unfold py_int. rewrite int_lstrip_uint, int_rstrip_uint.
  pose proof (int_digits_uint d false (or_intror H)) as Hi.
  pose proof (digits_value_uint d) as Hv.
  destruct (uint_head d H) as (c & r & E & Hc). rewrite E in *.
  cbv zeta. rewrite (sign_of_digit c _ _ _ Hc), Hi, Hv. reflexivity.
Qed.

(** [int(str(n))] is [n], for the numbers of the list. *)
Lemma py_int_repr (i : nat) :
  py_int (repr_int (Z.of_nat (S i))) = Some (Z.of_nat (S i)).
Proof.
  destruct (Z.of_nat (S i)) as [|p|p] eqn:E; try lia.
  unfold repr_int, repr_N. cbn [Z.to_N].
  rewrite py_int_uint.
  - rewrite DecimalN.Unsigned.of_to. reflexivity.
  - cbn [N.to_uint]. pose proof (pos_to_uint_head p) as Hh.
    destruct (Pos.to_uint p); [contradiction | discriminate ..].
Qed.

Lemma repr_not_a_word (i : nat) :
  String.eqb (repr_int (Z.of_nat (S i))) "exit"
  || String.eqb (repr_int (Z.of_nat (S i))) "back" = false.
Proof.
  destruct (repr_int_head (Z.of_nat (S i))) as (c & s & -> & H).
  cbn [String.eqb].
  destruct c as [[] [] [] [] [] [] [] []]; first [reflexivity | discriminate H].
Qed.

(** *** The numbers of the list of sites *)

Lemma input_run (prompt line : string) (rest : list string) (w : world) :
  stdin w = line :: rest ->
  input prompt w = (Ok line, typed (log w (Printed prompt)) rest).
Proof. intros H. unfold input, bind, emit. cbn [stdin log]. rewrite H. reflexivity. Qed.

Lemma list_sites_run (sites : list NationalSite) :
  forall counter w,
    list_sites sites counter w
    = (Ok (counter + Z.of_nat (List.length sites))%Z,
       printing w (numbered sites counter)).
Proof.
  induction sites as [|site rest IH]; intros counter w;
    cbn [list_sites numbered List.length].
  - rewrite Z.add_0_r. reflexivity.
  - unfold bind, print, emit. rewrite IH, printing_cons.
    do 2 f_equal. lia.
Qed.

Lemma numbered_nth (sites : list NationalSite) :
  forall counter i site,
    nth_error sites i = Some site ->
    nth_error (numbered sites counter) i
    = Some ("[" ++ repr_int (counter + Z.of_nat i) ++ "] " ++ info site).
Proof.
  induction sites as [|s rest IH]; intros counter [|i] site H;
    cbn [nth_error numbered] in *; try discriminate.
  - injection H as ->. rewrite Z.add_0_r. reflexivity.
  - rewrite (IH _ _ _ H). do 4 f_equal. lia.
Qed.

Lemma list_getitem_nth {A : Type} (l : list A) (i : nat) (x : A) (w : world) :
  nth_error l i = Some x ->
  list_getitem l (Z.of_nat (S i) - 1)%Z w = (Ok x, w).
Proof.
  intros H. unfold list_getitem.
  replace (Z.of_nat (S i) - 1)%Z with (Z.of_nat i) by lia.
  destruct (Z.ltb_spec (Z.of_nat i) 0); [lia|].
  destruct (Z.ltb_spec (Z.of_nat i) 0); [lia|].
  rewrite Nat2Z.id, H. reflexivity.
Qed.

Section Choice.
Variable html_parser : string -> node.
Variable API_KEY : string.

(** X17: the sites are listed with the numbers 1, 2, ... in the order of
    the list, and typing the number printed before a site that has a zip
    code looks up the places near that very site, prints them under the
    title-cased name of the site, and asks again. *)
Theorem detail_loop_selects (fuel : nat) (sites : list NationalSite) (i : nat)
        (site : NationalSite) (rest : list string) (w : world) :
  nth_error sites i = Some site ->
  zipcode site <> "No zipcode" ->
  stdin w = repr_int (Z.of_nat (S i)) :: rest ->
  let counter := (1 + Z.of_nat (List.length sites))%Z in
  (forall w0,
      list_sites sites 1%Z w0 = (Ok counter, printing w0 (numbered sites 1%Z)))
  /\ nth_error (numbered sites 1%Z) i
     = Some ("[" ++ repr_int (Z.of_nat (S i)) ++ "] " ++ info site)
  /\ detail_loop API_KEY (S fuel) sites counter w
     = (place_dict <- get_nearby_places API_KEY site ;;
        t <- to_title (name site) ;;
        print_header ("Places near " ++ t) ;;
        print_places place_dict ;;
        detail_loop API_KEY fuel sites counter)
         (typed (log w (Printed prompt2)) rest).
Proof.
  intros Hn Hz Hs counter. split; [|split].
  - intros w0. apply list_sites_run.
  - rewrite (numbered_nth _ _ _ _ Hn). do 4 f_equal. lia.
  - cbn [detail_loop]. rewrite bind_run, (input_run _ _ _ _ Hs).
    rewrite repr_not_a_word. unfold to_int. rewrite py_int_repr.
    rewrite bind_run. cbn [ret].
    assert (R : (Z.of_nat (S i) >? counter - 1)%Z || (Z.of_nat (S i) <? 1)%Z
                = false).
    { assert (i < List.length sites)
        by (apply nth_error_Some; rewrite Hn; discriminate).
      apply orb_false_iff. split; [rewrite Z.gtb_ltb|];
        apply Z.ltb_ge; unfold counter; lia. }
    rewrite R, bind_run, (list_getitem_nth _ _ _ _ Hn).
    apply String.eqb_neq in Hz. rewrite Hz.
    rewrite bind_run, (list_getitem_nth _ _ _ _ Hn).
    rewrite (bind_run (get_nearby_places API_KEY site)).
    rewrite (bind_run (get_nearby_places API_KEY site)).
    destruct (get_nearby_places API_KEY site _) as [[place_dict|e|r] w1];
      try reflexivity.
    rewrite bind_run, (list_getitem_nth _ _ _ _ Hn). reflexivity.
Qed.

(** X19: [get_site_instance] trusts what the cache binds to the URL: if
    it is not a dict, as the list of URLs that [get_sites_for_state]
    stores for a state page, the call prints "Using cache" and ends with
    TypeError; if it is a dict without the category, the call ends with
    KeyError. *)
Theorem get_site_instance_not_a_record (site_url : string) (v : json)
        (w : world) :
  holds w site_url v ->
  ((forall record, v <> JDict record) ->
   get_site_instance html_parser site_url w
   = (Raise TypeError, log w (Printed "Using cache")))
  /\ (forall record,
        v = JDict record -> dict_get record "category" = None ->
        get_site_instance html_parser site_url w
        = (Raise KeyError, log w (Printed "Using cache"))).
Proof.
  intros (items & Hs & Hg). rewrite get_site_instance_run, Hs, dict_has_get, Hg.
  unfold cached_site, cached_string. rewrite Hg. split.
  - intros H. destruct v as [| | | | |record|]; try reflexivity.
    destruct (H record eq_refl).
  - intros record -> ->. reflexivity.
Qed.
End Choice.

Create HintDb oblivious.

(** *** What reads no line *)

Section Oblivious.
Lemma oblivious_ret {A : Type} (a : A) : oblivious (ret a).
Proof. intros w. split; [discriminate | reflexivity]. Qed.

Lemma oblivious_raise {A : Type} (e : exn) :
  e <> EOFError -> oblivious (@raise A e).
Proof.
  intros H w. split; [|reflexivity]. intros E. injection E as E. exact (H E).
Qed.

Lemma oblivious_abort {A : Type} (r : reason) : oblivious (@abort A r).
Proof. intros w. split; [discriminate | reflexivity]. Qed.

Lemma oblivious_emit (e : event) : oblivious (emit e).
Proof. intros w. split; [discriminate | reflexivity]. Qed.

Lemma oblivious_print (s : string) : oblivious (print s).
Proof. apply oblivious_emit. Qed.

Lemma oblivious_bind {A B : Type} (m : M A) (k : A -> M B) :
  oblivious m -> (forall a, oblivious (k a)) -> oblivious (bind m k).
Proof.
  intros Hm Hk w. destruct (Hm w) as [Em Xm]. unfold bind.
  destruct (m w) as [[a|e|r] w1] eqn:E; cbn [fst snd] in *.
  - destruct (Hk a w1) as [Ek Xk]. split; [exact Ek|].
    intros lines. rewrite Xm. apply Xk.
  - split; [|intros lines; rewrite Xm; reflexivity].
    intros X. apply Em. injection X as ->. reflexivity.
  - split; [discriminate | intros lines; rewrite Xm; reflexivity].
Qed.

Lemma oblivious_try {A : Type} (body handler : M A) (e : exn) :
  oblivious body -> oblivious handler -> oblivious (try_except body e handler).
Proof.
  intros Hb Hh w. destruct (Hb w) as [Eb Xb]. unfold try_except.
  destruct (body w) as [[a|e'|r] w1] eqn:E; cbn [fst snd] in *.
  - split; [discriminate | intros lines; rewrite Xb; reflexivity].
  - destruct (exn_eqb e' e) eqn:Ee.
    + destruct (Hh w1) as [Eh Xh]. split; [exact Eh|].
      intros lines. rewrite Xb, Ee. apply Xh.
    + split; [exact Eb | intros lines; rewrite Xb, Ee; reflexivity].
  - split; [discriminate | intros lines; rewrite Xb; reflexivity].
Qed.

Lemma oblivious_requests_get (u : string) (ps : list (string * string)) :
  oblivious (requests_get u ps).
Proof.
  intros w. unfold requests_get, bind, emit. cbn [web log more typed].
  destruct (web w {| url := u; params := ps |});
    (split; [discriminate | reflexivity]).
Qed.

Lemma oblivious_open_cache (filename : string) : oblivious (open_cache filename).
Proof.
  intros w. split.
  - rewrite open_cache_run. cbn [fst]. unfold stored.
    destruct (files w filename) as [text|]; [|discriminate].
    destruct (json_loads text) as [v|[]]; discriminate.
  - intros lines. rewrite !open_cache_run. reflexivity.
Qed.

Lemma oblivious_save_cache (d : json) (filename : string) :
  oblivious (save_cache d filename).
Proof. intros w. split; [discriminate | reflexivity]. Qed.
End Oblivious.

(** The operations that leave the world as it is. *)
Ltac oblivious_op :=
  lazymatch goal with
  | |- oblivious (keys_contains _ _) => idtac
  | |- oblivious (getitem _ _) => idtac
  | |- oblivious (setitem _ _ _) => idtac
  | |- oblivious (iterate _) => idtac
  | |- oblivious (as_str _) => idtac
  | |- oblivious (format _) => idtac
  | |- oblivious (tag_find _ _) => idtac
  | |- oblivious (tag_find_all _ _) => idtac
  | |- oblivious (tag_text _) => idtac
  | |- oblivious (tag_getitem _ _) => idtac
  | |- oblivious (to_int _) => idtac
  | |- oblivious (to_title _) => idtac
  | |- oblivious (json_load _) => idtac
  | |- oblivious (list_getitem _ _) => idtac
  end;
  unfold keys_contains, getitem, setitem, iterate, as_str, format, tag_find,
    tag_find_all, tag_text, tag_getitem, to_int, to_title, json_load,
    list_getitem;
  repeat match goal with
         | |- context [match ?x with _ => _ end] => destruct x
         end;
  first [ apply oblivious_ret | apply oblivious_abort
        | apply oblivious_raise; discriminate
        | apply oblivious_bind; [apply oblivious_emit | intros _; apply oblivious_ret] ].

Ltac oblivious_step :=
  first
    [ apply oblivious_ret | apply oblivious_abort
    | apply oblivious_raise; discriminate
    | apply oblivious_print | apply oblivious_emit
    | apply oblivious_requests_get | apply oblivious_open_cache
    | apply oblivious_save_cache
    | oblivious_op
    | solve [auto with oblivious]
    | apply oblivious_try
    | apply oblivious_bind; [|intros ?]
    | match goal with
      | |- oblivious (if ?b then _ else _) => destruct b
      | |- oblivious (match ?x with _ => _ end) => destruct x
      end ].

Ltac obliviously := repeat oblivious_step.

Section ObliviousProgram.
Variable html_parser : string -> node.
Variable API_KEY : string.

Lemma oblivious_get_soup (u : string) : oblivious (get_soup html_parser u).
Proof. unfold get_soup. obliviously. Qed.
Hint Resolve oblivious_get_soup : oblivious.

Lemma oblivious_text_or (t : option node) (sentinel : string) :
  oblivious (text_or t sentinel).
Proof. unfold text_or. obliviously. Qed.
Hint Resolve oblivious_text_or : oblivious.

Lemma oblivious_print_places_loop (places : list json) :
  oblivious (print_places_loop places).
Proof.
  induction places as [|place places IH]; cbn [print_places_loop];
    [obliviously|].
  unfold print_place. obliviously.
Qed.
Hint Resolve oblivious_print_places_loop : oblivious.

Lemma oblivious_print_places (place_dict : json) :
  oblivious (print_places place_dict).
Proof. unfold print_places. obliviously. Qed.
Hint Resolve oblivious_print_places : oblivious.

Lemma oblivious_state_loop (baseurl : string) (state_list : list node) :
  forall state_dict, oblivious (state_loop baseurl state_list state_dict).
Proof.
  induction state_list as [|state rest IH]; intros state_dict;
    cbn [state_loop]; obliviously.
Qed.
Hint Resolve oblivious_state_loop : oblivious.

Lemma oblivious_build_state_url_dict :
  oblivious (build_state_url_dict html_parser).
Proof. unfold build_state_url_dict. obliviously. Qed.
Hint Resolve oblivious_build_state_url_dict : oblivious.

Lemma oblivious_cached_field (cache_dict : json) (site_url key : string) :
  oblivious (cached_field cache_dict site_url key).
Proof. unfold cached_field. obliviously. Qed.
Hint Resolve oblivious_cached_field : oblivious.

Lemma oblivious_get_site_instance (site_url : string) :
  oblivious (get_site_instance html_parser site_url).
Proof. unfold get_site_instance. obliviously. Qed.
Hint Resolve oblivious_get_site_instance : oblivious.

Lemma oblivious_site_urls_loop (site_h3_list : list node) :
  forall site_urls, oblivious (site_urls_loop site_h3_list site_urls).
Proof.
  induction site_h3_list as [|site rest IH]; intros site_urls;
    cbn [site_urls_loop]; obliviously.
Qed.
Hint Resolve oblivious_site_urls_loop : oblivious.

Lemma oblivious_sites_loop (site_urls : list json) :
  forall sites, oblivious (sites_loop html_parser site_urls sites).
Proof.
  induction site_urls as [|u rest IH]; intros sites; cbn [sites_loop];
    obliviously.
Qed.
Hint Resolve oblivious_sites_loop : oblivious.

Lemma oblivious_get_sites_for_state (state_url : string) :
  oblivious (get_sites_for_state html_parser state_url).
Proof. unfold get_sites_for_state. obliviously. Qed.
Hint Resolve oblivious_get_sites_for_state : oblivious.

Lemma oblivious_get_nearby_places (site_object : NationalSite) :
  oblivious (get_nearby_places API_KEY site_object).
Proof. unfold get_nearby_places. obliviously. Qed.
Hint Resolve oblivious_get_nearby_places : oblivious.

Lemma oblivious_list_sites (sites : list NationalSite) :
  forall counter, oblivious (list_sites sites counter).
Proof.
  induction sites as [|site rest IH]; intros counter; cbn [list_sites];
    obliviously.
Qed.
Hint Resolve oblivious_list_sites : oblivious.

Lemma oblivious_print_header (header : string) :
  oblivious (print_header header).
Proof. unfold print_header. obliviously. Qed.
Hint Resolve oblivious_print_header : oblivious.

(** *** A line that is no choice *)

Lemma resumes_of_oblivious {A : Type} (m : M A) : oblivious m -> resumes m.
Proof.
  intros H w. destruct (H w) as [E X]. split; [intros _; exact X|].
  intros E'. destruct (E E').
Qed.

Lemma resumes_bind {A B : Type} (m : M A) (k : A -> M B) :
  resumes m -> (forall a, resumes (k a)) -> resumes (bind m k).
Proof.
  intros Hm Hk w. destruct (Hm w) as [Xm Vm]. unfold bind.
  destruct (m w) as [[a|e|r] w1]; cbn [fst snd] in *.
  - destruct (Hk a w1) as [Xk Vk].
    split; intros E.
    + intros lines. rewrite Xm by discriminate. exact (Xk E lines).
    + intros tr detail rest Ht Hd. rewrite Xm by discriminate.
      exact (Vk E tr detail rest Ht Hd).
  - split; intros E.
    + intros lines. rewrite Xm; [reflexivity|].
      intros X. apply E. injection X as ->. reflexivity.
    + intros tr detail rest Ht Hd. rewrite (Vm ltac:(injection E as ->; reflexivity) tr detail rest Ht Hd).
      reflexivity.
  - split; [|discriminate]. intros _ lines. rewrite Xm by discriminate.
    reflexivity.
Qed.

(** A handler for an exception other than EOFError and ValueError lets
    both through. *)
Lemma resumes_try {A : Type} (body handler : M A) (e : exn) :
  exn_eqb EOFError e = false -> exn_eqb ValueError e = false ->
  resumes body -> resumes handler -> resumes (try_except body e handler).
Proof.
  intros He Hv Hb Hh w. destruct (Hb w) as [Xb Vb]. unfold try_except.
  destruct (body w) as [[a|e'|r] w1]; cbn [fst snd] in *.
  - split; [|discriminate]. intros _ lines. rewrite Xb by discriminate.
    reflexivity.
  - destruct (exn_eqb e' e) eqn:Ee.
    + assert (N : @Raise A e' <> Raise EOFError).
      { intros X. injection X as ->. rewrite He in Ee. discriminate. }
      destruct (Hh w1) as [Xh Vh]. split; intros E.
      * intros lines. rewrite (Xb N), Ee. exact (Xh E lines).
      * intros tr detail rest Ht Hd. rewrite (Xb N), Ee.
        exact (Vh E tr detail rest Ht Hd).
    + cbn [fst snd]. split; intros E.
      * intros lines. rewrite (Xb E), Ee. reflexivity.
      * intros tr detail rest Ht Hd.
        rewrite (Vb E tr detail rest Ht Hd), Hv. reflexivity.
  - split; [|discriminate]. intros _ lines. rewrite Xb by discriminate.
    reflexivity.
Qed.

Lemma bind_input_run {B : Type} (p : string) (k : string -> M B) (w : world) :
  bind (input p) k w =
  match stdin w with
  | [] => (Raise EOFError, log w (Printed p))
  | line :: rest => k line (typed (log w (Printed p)) rest)
  end.
Proof. unfold input, emit, bind. cbn [stdin log]. destruct (stdin w); reflexivity. Qed.

Lemma bind_input_more {B : Type} (p : string) (k : string -> M B) (w : world)
      (line : string) (rest lines : list string) :
  stdin w = line :: rest ->
  bind (input p) k (more w lines)
  = k line (more (typed (log w (Printed p)) rest) lines).
Proof.
  intros Es. rewrite bind_input_run. unfold more. cbn [stdin typed].
  rewrite Es. reflexivity.
Qed.

(** At the second prompt: the line that comes is the choice. *)
Lemma resumes_input_choice {B : Type} (k : string -> M B) :
  (forall line, resumes (k line)) ->
  (forall detail w, no_choice detail -> k detail w = (Raise ValueError, w)) ->
  resumes (bind (input prompt2) k).
Proof.
  intros Hk Hv w. rewrite bind_input_run.
  destruct (stdin w) as [|line rest] eqn:Es.
  - cbn [fst snd]. split; [intros E; destruct (E eq_refl)|].
    intros _ tr detail rest _ Hd. rewrite bind_input_run.
    unfold more. cbn [stdin typed]. rewrite Es. cbn [List.app].
    apply (Hv detail _ Hd).
  - destruct (Hk line (typed (log w (Printed prompt2)) rest)) as [Xk Vk].
    split; intros E.
    + intros lines. rewrite (bind_input_more _ _ _ _ _ _ Es). exact (Xk E lines).
    + intros tr detail rest' Ht Hd. rewrite (bind_input_more _ _ _ _ _ _ Es).
      exact (Vk E tr detail rest' Ht Hd).
Qed.

(** At another prompt the run does not end at the second prompt. *)
Lemma resumes_input {B : Type} (p : string) (k : string -> M B) :
  p <> prompt2 -> (forall line, resumes (k line)) -> resumes (bind (input p) k).
Proof.
  intros Hp Hk w. rewrite bind_input_run.
  destruct (stdin w) as [|line rest] eqn:Es.
  - cbn [fst snd]. split; [intros E; destruct (E eq_refl)|].
    intros _ tr detail rest Ht _. cbn [trace log] in Ht.
    apply app_inj_tail in Ht. destruct Ht as [_ Ht]. injection Ht as Ht.
    destruct (Hp Ht).
  - destruct (Hk line (typed (log w (Printed p)) rest)) as [Xk Vk].
    split; intros E.
    + intros lines. rewrite (bind_input_more _ _ _ _ _ _ Es). exact (Xk E lines).
    + intros tr detail rest' Ht Hd. rewrite (bind_input_more _ _ _ _ _ _ Es).
      exact (Vk E tr detail rest' Ht Hd).
Qed.

Ltac resume_step IH :=
  first
    [ exact IH
    | apply resumes_of_oblivious; solve [obliviously]
    | apply resumes_bind; [|intros ?]
    | match goal with
      | |- resumes (if ?b then _ else _) => destruct b
      end ].

Lemma resumes_detail_loop (fuel : nat) (sites : list NationalSite) (counter : Z) :
  resumes (detail_loop API_KEY fuel sites counter).
Proof.
  induction fuel as [|fuel IH]; cbn [detail_loop];
    [apply resumes_of_oblivious, oblivious_abort|].
  apply resumes_input_choice.
  - intros detail. repeat resume_step IH.
  - intros detail w (He & Hb & Hi).
    apply String.eqb_neq in He, Hb. rewrite He, Hb. cbn [orb].
    unfold to_int. rewrite Hi. reflexivity.
Qed.

Lemma resumes_state_loop_main (fuel : nat) (state_dict : json) :
  resumes (state_loop_main html_parser API_KEY fuel state_dict).
Proof.
  induction fuel as [|fuel IH]; cbn [state_loop_main];
    [apply resumes_of_oblivious, oblivious_abort|].
  apply resumes_input; [discriminate|]. intros state.
  destruct (String.eqb (lower state) "exit");
    [apply resumes_of_oblivious, oblivious_ret|].
  apply resumes_bind;
    [|intros leave; destruct leave;
      [apply resumes_of_oblivious, oblivious_ret | exact IH]].
  apply resumes_try; [reflexivity | reflexivity | |].
  - pose proof (resumes_detail_loop fuel) as ID.
    repeat first [ apply ID | resume_step IH ].
  - apply resumes_of_oblivious. obliviously.
Qed.

(** X18: whenever the program waits at the second prompt, a line that is
    neither "exit" nor "back" nor the text of an integer ends it with
    ValueError at once: if the program ends with EOFError after its last
    print was the second prompt, then with a line that is no choice
    typed after the lines it read it ends with ValueError in the same
    world, and the lines after that line are left. *)
Theorem main_value_error (fuel : nat) (w w1 : world) (tr : list event)
        (detail : string) (rest : list string) :
  main html_parser API_KEY fuel w = (Raise EOFError, w1) ->
  trace w1 = (tr ++ [Printed prompt2])%list ->
  detail <> "exit" -> detail <> "back" -> py_int detail = None ->
  main html_parser API_KEY fuel (more w (detail :: rest))
  = (Raise ValueError, typed w1 rest).
Proof.
  intros Hm Ht He Hb Hi.
  assert (R : resumes (main html_parser API_KEY fuel)).
  { unfold main. apply resumes_bind.
    - apply resumes_of_oblivious, oblivious_build_state_url_dict.
    - intros state_dict. apply resumes_state_loop_main. }
  destruct (R w) as [_ V]. rewrite Hm in V.
  apply (V eq_refl tr detail rest Ht). repeat split; assumption.
Qed.
End ObliviousProgram.

(** *** The other theorems at the sample pages *)

Lemma build_state_url_dict_miss_witness :
  exists ul,
    find (sample_parser index_html) ul_states = Some ul
    /\ Forall2 (fun a path => anchor_href a = Some path)
               (find_all ul (any "a")) ["/state/mi/index.htm"]
    /\ build_state_url_dict sample_parser nps_world
       = (Ok (JDict [("michigan", JStr mi_url)]),
          saved (log nps_world (Requested (page index_url)))
                (JDict (dict_set [] index_url (JDict [("michigan", JStr mi_url)])))).
Proof.
  exists (Tag "ul" [("class", "dropdown-menu SearchBar-keywordSearch")]
            [Tag "li" [] [text_in "a" [("href", "/state/mi/index.htm")] "Michigan"]]).
  assert (Hf : find (sample_parser index_html) ul_states
               = Some (Tag "ul" [("class", "dropdown-menu SearchBar-keywordSearch")]
                         [Tag "li" []
                            [text_in "a" [("href", "/state/mi/index.htm")] "Michigan"]]))
    by reflexivity.
  assert (Hp : Forall2 (fun a path => anchor_href a = Some path)
                 (find_all
                    (Tag "ul" [("class", "dropdown-menu SearchBar-keywordSearch")]
                       [Tag "li" []
                          [text_in "a" [("href", "/state/mi/index.htm")] "Michigan"]])
                    (any "a")) ["/state/mi/index.htm"])
    by (repeat constructor).
  split; [exact Hf | split; [exact Hp|]].
  exact (build_state_url_dict_miss sample_parser index_html [] nps_world _
           ["/state/mi/index.htm"] (nps_world_misses index_url) eq_refl Hf Hp).
Defined.

Lemma build_state_url_dict_keys_witness :
  exists ul,
    find (sample_parser index_html) ul_states = Some ul
    /\ build_state_url_dict sample_parser nps_world
       = (Ok (JDict [("michigan", JStr mi_url)]),
          snd (build_state_url_dict sample_parser nps_world))
    /\ (forall a, In a (find_all ul (any "a")) ->
                  dict_has [("michigan", JStr mi_url)] (lower (get_text a)) = true)
    /\ (forall k, dict_has [("michigan", JStr mi_url)] k = true -> lower k = k).
Proof.
  eexists. split; [reflexivity|].
  assert (H : build_state_url_dict sample_parser nps_world
              = (Ok (JDict [("michigan", JStr mi_url)]),
                 snd (build_state_url_dict sample_parser nps_world)))
    by reflexivity.
  split; [exact H|].
  exact (build_state_url_dict_keys sample_parser index_html [] nps_world _ _ _
           (nps_world_misses index_url) eq_refl eq_refl H).
Defined.

Lemma build_state_url_dict_broken_witness :
  (find (sample_parser bare_html) ul_states = None
   /\ build_state_url_dict sample_parser bare_nps_world
      = (Raise AttributeError, log bare_nps_world (Requested (page index_url))))
  /\ (exists ul,
        find (broken_parser broken_index_html) ul_states = Some ul
        /\ Exists (fun a => anchor_href a = None) (find_all ul (any "a"))
        /\ build_state_url_dict broken_parser broken_world
           = (Raise KeyError, log broken_world (Requested (page index_url)))).
Proof.
  assert (Hm : misses bare_nps_world [] index_url) by (split; reflexivity).
  assert (Hm' : misses broken_world [] index_url) by (split; reflexivity).
  split.
  - split; [reflexivity|].
    exact (proj1 (build_state_url_dict_broken sample_parser bare_html []
                    bare_nps_world Hm eq_refl) eq_refl).
  - eexists. split; [reflexivity|].
    assert (He : Exists (fun a => anchor_href a = None)
                   (find_all
                      (Tag "ul" [("class", "dropdown-menu SearchBar-keywordSearch")]
                         [Tag "li" []
                            [text_in "a" [("href", "/state/mi/index.htm")] "Michigan"];
                          Tag "li" [] [text_in "a" [] "Ohio"]])
                      (any "a")))
      by (apply Exists_cons_tl, Exists_cons_hd; reflexivity).
    split; [exact He|].
    exact (proj2 (build_state_url_dict_broken broken_parser broken_index_html []
                    broken_world Hm' eq_refl) _ eq_refl He).
Defined.

Lemma build_state_url_dict_again_witness :
  let w1 := snd (build_state_url_dict sample_parser nps_world) in
  build_state_url_dict sample_parser nps_world
  = (Ok (JDict [("michigan", JStr mi_url)]), w1)
  /\ build_state_url_dict sample_parser w1
     = (Ok (JDict [("michigan", JStr mi_url)]), w1).
Proof.
  intros w1.
  assert (H : build_state_url_dict sample_parser nps_world
              = (Ok (JDict [("michigan", JStr mi_url)]), w1)) by reflexivity.
  split; [exact H|].
  exact (build_state_url_dict_again sample_parser nps_world w1 _ H).
Defined.

Lemma places_world_misses (u : string) : misses (places_world []) [] u.
Proof. split; reflexivity. Qed.

Lemma sample_places_loads : json_loads (json_dumps sample_places) = Value sample_places.
Proof. vm_compute. reflexivity. Qed.

Lemma get_nearby_places_miss_witness :
  web (places_world []) (nearby_request sample_key "49931")
  = Some (json_dumps sample_places)
  /\ get_nearby_places sample_key isle_royale (places_world [])
     = (Ok sample_places,
        saved (asked sample_key isle_royale (places_world []))
              (JDict (dict_set [] "49931" sample_places)))
  /\ requests_of (trace (asked sample_key isle_royale (places_world [])))
     = [nearby_request sample_key "49931"].
Proof.
  split; [reflexivity|].
  exact (get_nearby_places_miss sample_key isle_royale [] (places_world [])
           (json_dumps sample_places) sample_places
           (places_world_misses "49931") eq_refl sample_places_loads).
Defined.

Lemma get_nearby_places_no_places_witness :
  (web (places_world []) (nearby_request sample_key "No zipcode") = None
   /\ get_nearby_places sample_key north_country (places_world [])
      = (Raise RequestException, asked sample_key north_country (places_world [])))
  /\ (web (places_world []) (nearby_request sample_key "49913")
      = Some "<html>Service unavailable</html>"
      /\ json_loads "<html>Service unavailable</html>" = NoValue Malformed
      /\ get_nearby_places sample_key keweenaw (places_world [])
         = (Raise JSONDecodeError, asked sample_key keweenaw (places_world []))).
Proof.
  split.
  - split; [reflexivity|].
    exact (proj1 (get_nearby_places_no_places sample_key north_country []
                    (places_world []) (places_world_misses "No zipcode"))
             eq_refl).
  - split; [reflexivity|].
    assert (Hj : json_loads "<html>Service unavailable</html>" = NoValue Malformed)
      by (vm_compute; reflexivity).
    split; [exact Hj|].
    exact (proj1 (proj2 (get_nearby_places_no_places sample_key keweenaw []
                           (places_world []) (places_world_misses "49913")))
             _ eq_refl Hj).
Defined.

Lemma get_nearby_places_again_witness :
  let w1 := snd (get_nearby_places sample_key isle_royale (places_world [])) in
  get_nearby_places sample_key isle_royale (places_world []) = (Ok sample_places, w1)
  /\ zipcode ranger_pier = zipcode isle_royale
  /\ get_nearby_places sample_key ranger_pier w1
     = (Ok sample_places, log (log w1 (Entered ranger_pier)) (Printed "Using cache")).
Proof.
  intros w1.
  assert (H : get_nearby_places sample_key isle_royale (places_world [])
              = (Ok sample_places, w1)) by (vm_compute; reflexivity).
  split; [exact H | split; [reflexivity|]].
  exact (get_nearby_places_again sample_key isle_royale ranger_pier
           (places_world []) w1 sample_places H eq_refl).
Defined.

Lemma get_sites_for_state_again_witness :
  let w1 := snd (get_sites_for_state sample_parser mi_url nps_world) in
  let sites := [isle_royale; keweenaw; north_country] in
  get_sites_for_state sample_parser mi_url nps_world = (Ok sites, w1)
  /\ get_sites_for_state sample_parser mi_url w1
     = (Ok sites, printing w1 (repeat "Using cache" 4)).
Proof.
  intros w1 sites.
  assert (H : get_sites_for_state sample_parser mi_url nps_world = (Ok sites, w1))
    by (vm_compute; reflexivity).
  split; [exact H|].
  exact (get_sites_for_state_again sample_parser mi_url nps_world w1 sites H).
Defined.

Lemma get_sites_for_state_broken_witness :
  (find (sample_parser bare_html) list_parks_q = None
   /\ get_sites_for_state sample_parser mi_url bare_nps_world
      = (Raise AttributeError, fetched bare_nps_world mi_url))
  /\ (exists ul,
        find (broken_parser broken_state_html) list_parks_q = Some ul
        /\ Exists (fun h3 => heading_path h3 = None) (find_all ul (any "h3"))
        /\ (get_sites_for_state broken_parser mi_url broken_world
            = (Raise TypeError, fetched broken_world mi_url)
            \/ get_sites_for_state broken_parser mi_url broken_world
               = (Raise KeyError, fetched broken_world mi_url))).
Proof.
  assert (Hm : misses bare_nps_world [] mi_url) by (split; reflexivity).
  assert (Hm' : misses broken_world [] mi_url) by (split; reflexivity).
  split.
  - split; [reflexivity|].
    exact (proj1 (get_sites_for_state_broken sample_parser mi_url bare_html []
                    bare_nps_world Hm eq_refl) eq_refl).
  - eexists. split; [reflexivity|].
    assert (He : Exists (fun h3 => heading_path h3 = None)
                   (find_all
                      (Tag "ul" [("id", "list_parks")]
                         [Tag "li" []
                            [Tag "h3" [] [text_in "a" [("href", "/isro/")] "Isle Royale"]];
                          Tag "li" [] [Tag "h3" [] [NavigableString "Keweenaw"]]])
                      (any "h3")))
      by (apply Exists_cons_tl, Exists_cons_hd; reflexivity).
    split; [exact He|].
    exact (proj1 (proj2 (get_sites_for_state_broken broken_parser mi_url
                           broken_state_html [] broken_world Hm' eq_refl))
             _ eq_refl He).
Defined.

Lemma print_places_lines_witness :
  print_places sample_places nps_world
  = (Ok tt,
     printing nps_world
       ["- Suomi Cafe (Restaurants): 54 Huron St, Houghton";
        "- Ranger III Pier (No category): No address, Houghton"]).
Proof.
  apply (print_places_lines
           [("resultsCount", JInt 2); ("searchResults", JList [cafe; pier])]
           [cafe; pier]).
  - reflexivity.
  - repeat constructor.
Defined.

Lemma get_site_instance_stripped_witness :
  get_site_instance sample_parser isro_url nps_world
  = (Ok isle_royale, snd (get_site_instance sample_parser isro_url nps_world))
  /\ stripped (name isle_royale) /\ stripped (category isle_royale)
  /\ stripped (zipcode isle_royale) /\ stripped (phone isle_royale).
Proof.
  assert (H : get_site_instance sample_parser isro_url nps_world
              = (Ok isle_royale,
                 snd (get_site_instance sample_parser isro_url nps_world)))
    by reflexivity.
  split; [exact H|].
  exact (get_site_instance_stripped sample_parser isro_url [] nps_world _
           isle_royale (nps_world_misses isro_url) H).
Defined.

Lemma main_key_error_witness :
  fst (main broken_parser sample_key 1 broken_world) = Raise KeyError
  /\ fst (build_state_url_dict broken_parser broken_world) = Raise KeyError.
Proof.
  assert (H : fst (main broken_parser sample_key 1 broken_world) = Raise KeyError)
    by reflexivity.
  split; [exact H|].
  exact (proj2 (main_key_error broken_parser sample_key 1 broken_world) H).
Defined.

Lemma detail_loop_selects_witness :
  let sites := [isle_royale; keweenaw] in
  let w := places_world ["1"] in
  (forall w0,
      list_sites sites 1%Z w0
      = (Ok 3%Z,
         printing w0
           ["[1] Isle Royale (National Park): Houghton, MI 49931";
            "[2] Keweenaw (): Calumet, MI 49913"]))
  /\ nth_error (numbered sites 1%Z) 0
     = Some "[1] Isle Royale (National Park): Houghton, MI 49931"
  /\ detail_loop sample_key 1 sites 3%Z w
     = (place_dict <- get_nearby_places sample_key isle_royale ;;
        t <- to_title (name isle_royale) ;;
        print_header ("Places near " ++ t) ;;
        print_places place_dict ;;
        detail_loop sample_key 0 sites 3%Z)
         (typed (log w (Printed prompt2)) []).
Proof.
  intros sites w.
  assert (Hz : zipcode isle_royale <> "No zipcode") by discriminate.
  exact (detail_loop_selects sample_key 0 sites 0 isle_royale [] w
           eq_refl Hz eq_refl).
Defined.

Lemma get_site_instance_not_a_record_witness :
  (holds listed_world mi_url (JList [JStr isro_url])
   /\ get_site_instance sample_parser mi_url listed_world
      = (Raise TypeError, log listed_world (Printed "Using cache")))
  /\ (holds nameless_world isro_url (JDict [("name", JStr "Isle Royale")])
      /\ get_site_instance sample_parser isro_url nameless_world
         = (Raise KeyError, log nameless_world (Printed "Using cache"))).
Proof.
  assert (H1 : holds listed_world mi_url (JList [JStr isro_url])).
  { exists [(mi_url, JList [JStr isro_url])]. split; vm_compute; reflexivity. }
  assert (H2 : holds nameless_world isro_url (JDict [("name", JStr "Isle Royale")])).
  { exists [(isro_url, JDict [("name", JStr "Isle Royale")])].
    split; vm_compute; reflexivity. }
  split.
  - split; [exact H1|].
    apply (proj1 (get_site_instance_not_a_record sample_parser mi_url _
                    listed_world H1)).
    intros record. discriminate.
  - split; [exact H2|].
    exact (proj2 (get_site_instance_not_a_record sample_parser isro_url _
                    nameless_world H2) _ eq_refl eq_refl).
Defined.

Lemma main_fuel_witness :
  List.length (stdin (fresh_world nps_rows ["Michigan"; "exit"])) < 3
  /\ fst (main sample_parser sample_key 3 (fresh_world nps_rows ["Michigan"; "exit"]))
     <> Abort NoFuel.
Proof.
  assert (H : List.length (stdin (fresh_world nps_rows ["Michigan"; "exit"])) < 3)
    by (simpl; lia).
  split; [exact H|].
  exact (main_fuel sample_parser sample_key 3
           (fresh_world nps_rows ["Michigan"; "exit"]) H).
Defined.

Lemma main_value_error_witness :
  let w := places_world ["Michigan"; "3"; "back"; "michigan"; "1"] in
  let w1 := snd (main sample_parser sample_key 8 w) in
  main sample_parser sample_key 8 w = (Raise EOFError, w1)
  /\ trace w1 = (removelast (trace w1) ++ [Printed prompt2])%list
  /\ py_int "one" = None
  /\ main sample_parser sample_key 8 (more w ["one"; "exit"])
     = (Raise ValueError, typed w1 ["exit"]).
Proof.
  intros w w1.
  assert (H : main sample_parser sample_key 8 w = (Raise EOFError, w1))
    by (vm_compute; reflexivity).
  assert (Ht : trace w1 = (removelast (trace w1) ++ [Printed prompt2])%list)
    by (vm_compute; reflexivity).
  assert (He : "one" <> "exit") by discriminate.
  assert (Hb : "one" <> "back") by discriminate.
  split; [exact H | split; [exact Ht | split; [reflexivity|]]].
  exact (main_value_error sample_parser sample_key 8 w w1 _ "one" ["exit"]
           H Ht He Hb eq_refl).
Defined.
